(** * swarm-mind: the swarm coordination and decision engine

    A shallow embedding of the decision engine ([decider]), of the agent
    state machine ([agent]) and of the data model ([types]) of the
    swarm-mind repository, with the properties of its specification.
    The ranking of the files of a repository ([scoreFiles] of [github])
    is embedded as well, and further properties read off the code
    follow those of the specification.

    Conventions of the embedding.
    - A JavaScript [number] that holds a count (tokens, issue numbers,
      timestamps, steps) is a [Z]; a [number] that holds a fraction
      (priority, energy, strength, confidence, density, personality
      traits) is an exact rational [Q].  Rounding, infinities and NaN of
      IEEE-754 doubles are outside the model.
    - A JavaScript [string] is a [string]; letter case, white space and
      the character classes of the regular expressions are those of
      ASCII.
    - [Math.random()], [uuid()], [Date.now()], [Math.exp], the SHA-256
      [hash] and the code-hosting search are inputs of the functions that
      call them.  A function that draws once takes the value drawn; one
      that draws several times takes the sequence of the values, indexed
      by the number of the call (module [Rand]).
    - [path.extname] and [path.basename], the reasoning and execution
      services the engineering branches of [step] call, and
      [Math.cos], [Math.sin] and [Math.PI] are inputs likewise.
    - Objects mutated in place are threaded explicitly: a function that
      mutates the agent or a pheromone of the channel returns the new
      agent and the new channel contents.  A pheromone object is shared
      by the channel and by the lists that hold it; the channel is the
      store, and a list returned by a function holds the pheromones in
      their state after the call. *)

From Stdlib Require Import ZArith QArith Qminmax Qround Lqa Lia.
From Stdlib Require Import List String Ascii Bool Permutation Sorted.
From stdpp Require Import gmap strings pretty.
Import ListNotations.

Local Open Scope string_scope.
Local Open Scope Z_scope.
Local Open Scope list_scope.

(* ===================================================================== *)
(** * Numbers *)
(* ===================================================================== *)

(** [x < y] on fractions, as a boolean. *)
Definition Qltb (x y : Q) : bool := negb (Qle_bool y x).

(** [Math.max] and [Math.min] on two fractions. *)
Definition Math_max (x y : Q) : Q := if Qle_bool x y then y else x.
Definition Math_min (x y : Q) : Q := if Qle_bool x y then x else y.

(* ===================================================================== *)
(** * Strings: the part of the JavaScript string API the decider uses *)
(* ===================================================================== *)

Module Js.

Definition between (lo hi : nat) (c : ascii) : bool :=
  let n := nat_of_ascii c in (lo <=? n)%nat && (n <=? hi)%nat.

Definition is_upper : ascii -> bool := between 65 90.
Definition is_lower : ascii -> bool := between 97 122.
Definition is_digit : ascii -> bool := between 48 57.

Definition lower_char (c : ascii) : ascii :=
  if is_upper c then ascii_of_nat (nat_of_ascii c + 32) else c.

(** [s.toLowerCase()] *)
Fixpoint toLowerCase (s : string) : string :=
  match s with
  | EmptyString => EmptyString
  | String c s' => String (lower_char c) (toLowerCase s')
  end.

(** [s.startsWith(p)] *)
Definition startsWith (s p : string) : bool := String.prefix p s.

(** [s.includes(p)] *)
Fixpoint includes (s p : string) : bool :=
  String.prefix p s ||
  match s with
  | EmptyString => false
  | String _ s' => includes s' p
  end.

(** The longest prefix of [s] whose characters satisfy [f], and the rest. *)
Fixpoint span (f : ascii -> bool) (s : string) : string * string :=
  match s with
  | EmptyString => (EmptyString, EmptyString)
  | String c s' =>
      if f c then let '(a, b) := span f s' in (String c a, b)
      else (EmptyString, s)
  end.

Definition nonempty (s : string) : bool :=
  match s with EmptyString => false | _ => true end.

(** [[a-zA-Z0-9_-]] and [[a-zA-Z0-9_.-]] *)
Definition owner_char (c : ascii) : bool :=
  is_lower c || is_upper c || is_digit c
  || Ascii.eqb c "_" || Ascii.eqb c "-".

Definition repo_char (c : ascii) : bool :=
  owner_char c || Ascii.eqb c ".".

(** [\s], on ASCII: space, tab, line feed, vertical tab, form feed,
    carriage return. *)
Definition is_space (c : ascii) : bool :=
  let n := nat_of_ascii c in (n =? 32)%nat || between 9 13 c.

(** [s.match(/#(\d+)/)]: the first capture group of the leftmost match. *)
Fixpoint match_issue (s : string) : option string :=
  match s with
  | EmptyString => None
  | String c s' =>
      if Ascii.eqb c "#" && nonempty (fst (span is_digit s'))
      then Some (fst (span is_digit s'))
      else match_issue s'
  end.

(** [s.match(/([a-zA-Z0-9_-]+)\/([a-zA-Z0-9_.-]+)/)]: the two capture
    groups of the leftmost match.  The first group is greedy and no
    character of it is a slash, so at each start position only its
    longest run can be followed by the slash. *)
Definition match_repo_here (s : string) : option (string * string) :=
  let '(o, rest) := span owner_char s in
  match rest with
  | String c r =>
      if nonempty o && Ascii.eqb c "/" && nonempty (fst (span repo_char r))
      then Some (o, fst (span repo_char r))
      else None
  | EmptyString => None
  end.

Fixpoint match_repo (s : string) : option (string * string) :=
  match match_repo_here s with
  | Some m => Some m
  | None =>
      match s with
      | EmptyString => None
      | String _ s' => match_repo s'
      end
  end.

Definition digit_value (c : ascii) : Z := Z.of_nat (nat_of_ascii c) - 48.

(** [parseInt(s)] on a non-empty string of decimal digits. *)
Fixpoint parseInt_from (acc : Z) (s : string) : Z :=
  match s with
  | EmptyString => acc
  | String c s' => parseInt_from (10 * acc + digit_value c) s'
  end.

Definition parseInt (s : string) : Z := parseInt_from 0 s.

Fixpoint drop (n : nat) (s : string) : string :=
  match n, s with
  | O, _ => s
  | S _, EmptyString => EmptyString
  | S n', String _ s' => drop n' s'
  end.

(** [s.replace(re, empty)] where [re] is [/^kw:?\s*/i], for a lower-case
    ASCII keyword [kw]. *)
Definition strip_keyword (kw s : string) : string :=
  if String.prefix kw (toLowerCase s) then
    let rest := drop (String.length kw) s in
    let rest :=
      match rest with
      | String c r => if Ascii.eqb c ":" then r else rest
      | EmptyString => rest
      end in
    snd (span is_space rest)
  else s.

(** [a || b] on strings: the empty string is falsy. *)
Definition or_else (a b : string) : string := if nonempty a then a else b.

(** [s.split(/\s+/)] *)
Fixpoint split_ws (s : string) : list string :=
  match s with
  | EmptyString => [EmptyString]
  | String c s' =>
      let ws := split_ws s' in
      if is_space c then
        match s' with
        | String c' _ => if is_space c' then ws else EmptyString :: ws
        | EmptyString => EmptyString :: ws
        end
      else
        match ws with
        | w :: ws' => String c w :: ws'
        | [] => [String c EmptyString]
        end
  end.

(** [s.slice(0, n)] *)
Definition take (n : nat) (s : string) : string := substring 0 n s.

End Js.

(* ===================================================================== *)
(** * Data model ([types]) *)
(* ===================================================================== *)

Module Artifact.
Inductive Kind := code_change | pr_url | analysis | technique.

Definition kind_eqb (a b : Kind) : bool :=
  match a, b with
  | code_change, code_change | pr_url, pr_url
  | analysis, analysis | technique, technique => true
  | _, _ => false
  end.

Record t := mk {
  type : Kind;
  content : string;
  filePath : option string;
  prUrl : option string
}.
End Artifact.

Module Pheromone.
Inductive Kind := knowledge | code | pr | technique.

(** The fields [EngineeringPheromone] adds to [Pheromone]. *)
Record Engineering := mkEngineering {
  pheromoneType : Kind;
  artifacts : list Artifact.t;
  githubRefs : list string;
  codeSnippets : list string
}.

(** A [Pheromone]; [engineering] holds the additional fields when the
    object is an [EngineeringPheromone]. *)
Record t := mk {
  id : string;
  agentId : string;
  content : string;
  domain : string;
  confidence : Q;
  strength : Q;
  connections : list string;
  timestamp : Z;
  attestation : string;
  engineering : option Engineering
}.

(** [p.strength = v] *)
Definition set_strength (v : Q) (p : t) : t :=
  mk (id p) (agentId p) (content p) (domain p) (confidence p) v
     (connections p) (timestamp p) (attestation p) (engineering p).

(** Strength and confidence both lie in [[0,1]]. *)
Definition in_range (p : t) : Prop :=
  (0 <= strength p <= 1)%Q /\ (0 <= confidence p <= 1)%Q.
End Pheromone.

Module Channel.
Record t := mk {
  pheromones : list Pheromone.t;
  density : Q;
  criticalThreshold : Q;
  phaseTransitionOccurred : bool;
  transitionStep : option Z
}.

Definition set_pheromones (ps : list Pheromone.t) (c : t) : t :=
  mk ps (density c) (criticalThreshold c) (phaseTransitionOccurred c)
     (transitionStep c).
End Channel.

Module Personality.
Record t := mk {
  curiosity : Q;
  diligence : Q;
  boldness : Q;
  sociability : Q
}.
End Personality.

Module Thought.
Record t := mk {
  id : string;
  agentId : string;
  trigger : string;
  observation : string;
  reasoning : string;
  conclusion : string;
  suggestedActions : list string;
  confidence : Q;
  timestamp : Z
}.
End Thought.

Inductive RiskLevel := low | medium | high.

Module Cost.
Record t := mk {
  estimatedTokens : Z;
  estimatedTimeMs : Z;
  riskLevel : RiskLevel
}.
End Cost.

Module Result.
Record t := mk {
  success : bool;
  summary : string;
  artifacts : list Artifact.t;
  tokensUsed : Z
}.
End Result.

(** The tag of an action. *)
Inductive ActionType :=
  | study_repo | fix_issue | write_code | refactor
  | document | share_technique | contribute_pr | explore_topic.

Definition ActionType_eqb (a b : ActionType) : bool :=
  match a, b with
  | study_repo, study_repo | fix_issue, fix_issue
  | write_code, write_code | refactor, refactor
  | document, document | share_technique, share_technique
  | contribute_pr, contribute_pr | explore_topic, explore_topic => true
  | _, _ => false
  end.

(** The discriminated union of actions, one constructor per tag. *)
Inductive AgentAction :=
  | StudyRepo (owner repo : string) (topic : option string)
  | FixIssue (owner repo : string) (issueNumber : Z)
  | WriteCode (description : string) (targetRepo : option string)
  | Refactor (owner repo target : string)
  | Document (owner repo target : string)
  | ShareTechnique (technique : string) (sourceRepo : option string)
  | ContributePr (owner repo description : string)
  | ExploreTopic (topic : string).

(** [action.type] *)
Definition action_type (a : AgentAction) : ActionType :=
  match a with
  | StudyRepo _ _ _ => study_repo
  | FixIssue _ _ _ => fix_issue
  | WriteCode _ _ => write_code
  | Refactor _ _ _ => refactor
  | Document _ _ _ => document
  | ShareTechnique _ _ => share_technique
  | ContributePr _ _ _ => contribute_pr
  | ExploreTopic _ => explore_topic
  end.

(** [`${action.owner}/${action.repo}`] when ["owner" in action] and
    ["repo" in action], and [null] otherwise. *)
Definition repoKey (a : AgentAction) : option string :=
  match a with
  | StudyRepo o r _ | FixIssue o r _ | Refactor o r _
  | Document o r _ | ContributePr o r _ => Some (o ++ "/" ++ r)%string
  | WriteCode _ _ | ShareTechnique _ _ | ExploreTopic _ => None
  end.

Inductive Status := pending | executing | completed | failed.

Module Decision.
Record t := mk {
  id : string;
  agentId : string;
  action : AgentAction;
  priority : Q;
  cost : Cost.t;
  status : Status;
  result : option Result.t;
  createdAt : Z;
  completedAt : option Z
}.

(** [d.priority = v] *)
Definition set_priority (v : Q) (d : t) : t :=
  mk (id d) (agentId d) (action d) v (cost d) (status d) (result d)
     (createdAt d) (completedAt d).

Definition type (d : t) : ActionType := action_type (action d).
End Decision.

Module Repo.
Record t := mk {
  owner : string;
  repo : string;
  description : string;
  language : string;
  stars : Z;
  topics : list string;
  relevanceScore : Q
}.

(** [`${r.owner}/${r.repo}`] *)
Definition fullName (r : t) : string := (owner r ++ "/" ++ repo r)%string.
End Repo.

Module Issue.
Inductive Difficulty := easy | medium | hard.

Record t := mk {
  owner : string;
  repo : string;
  number : Z;
  title : string;
  body : string;
  labels : list string;
  difficulty : Difficulty;
  relevanceScore : Q
}.
End Issue.

(** [AgentState], the base of an agent's state. *)
Module Base.
Record t := mk {
  id : string;
  name : string;
  position : Q * Q;
  velocity : Q * Q;
  knowledge : list Pheromone.t;
  absorbed : gset string;
  explorationTarget : string;
  energy : Q;
  synchronized : bool;
  syncedWith : list string;
  stepCount : Z;
  discoveries : Z;
  contributionsToCollective : Z
}.

Definition set_knowledge (v : list Pheromone.t) (b : t) : t :=
  mk (id b) (name b) (position b) (velocity b) v (absorbed b)
     (explorationTarget b) (energy b) (synchronized b) (syncedWith b)
     (stepCount b) (discoveries b) (contributionsToCollective b).

Definition set_absorbed (v : gset string) (b : t) : t :=
  mk (id b) (name b) (position b) (velocity b) (knowledge b) v
     (explorationTarget b) (energy b) (synchronized b) (syncedWith b)
     (stepCount b) (discoveries b) (contributionsToCollective b).

Definition set_explorationTarget (v : string) (b : t) : t :=
  mk (id b) (name b) (position b) (velocity b) (knowledge b) (absorbed b)
     v (energy b) (synchronized b) (syncedWith b)
     (stepCount b) (discoveries b) (contributionsToCollective b).

Definition set_energy (v : Q) (b : t) : t :=
  mk (id b) (name b) (position b) (velocity b) (knowledge b) (absorbed b)
     (explorationTarget b) v (synchronized b) (syncedWith b)
     (stepCount b) (discoveries b) (contributionsToCollective b).

Definition set_synchronized (v : bool) (b : t) : t :=
  mk (id b) (name b) (position b) (velocity b) (knowledge b) (absorbed b)
     (explorationTarget b) (energy b) v (syncedWith b)
     (stepCount b) (discoveries b) (contributionsToCollective b).

Definition set_discoveries (v : Z) (b : t) : t :=
  mk (id b) (name b) (position b) (velocity b) (knowledge b) (absorbed b)
     (explorationTarget b) (energy b) (synchronized b) (syncedWith b)
     (stepCount b) v (contributionsToCollective b).
End Base.

(** [AutonomousAgentState extends AgentState]. *)
Module Agent.
Record t := mk {
  base : Base.t;
  thoughts : list Thought.t;
  decisions : list Decision.t;
  currentDecision : option Decision.t;
  reposStudied : list string;
  prsCreated : list string;
  tokensUsed : Z;
  tokenBudget : Z;
  specialization : string;
  personality : Personality.t;
  currentAction : string
}.

Definition id (s : t) : string := Base.id (base s).
Definition absorbed (s : t) : gset string := Base.absorbed (base s).
Definition energy (s : t) : Q := Base.energy (base s).
Definition synchronized (s : t) : bool := Base.synchronized (base s).
Definition explorationTarget (s : t) : string :=
  Base.explorationTarget (base s).

Definition set_base (b : Base.t) (s : t) : t :=
  mk b (thoughts s) (decisions s) (currentDecision s) (reposStudied s)
     (prsCreated s) (tokensUsed s) (tokenBudget s) (specialization s)
     (personality s) (currentAction s).

Definition set_currentAction (a : string) (s : t) : t :=
  mk (base s) (thoughts s) (decisions s) (currentDecision s)
     (reposStudied s) (prsCreated s) (tokensUsed s) (tokenBudget s)
     (specialization s) (personality s) a.
End Agent.

Module Project.
Inductive Status := proposed | active | completed.

Record t := mk {
  id : string;
  title : string;
  description : string;
  participants : list string;
  repos : list string;
  status : Status;
  createdAt : Z
}.
End Project.

(* ===================================================================== *)
(** * Decision engine ([decider]) *)
(* ===================================================================== *)

#[global] Instance ActionType_eq_dec : EqDecision ActionType.
Proof. solve_decision. Defined.

Definition ActionType_code (t : ActionType) : nat :=
  match t with
  | study_repo => 0 | fix_issue => 1 | write_code => 2 | refactor => 3
  | document => 4 | share_technique => 5 | contribute_pr => 6
  | explore_topic => 7
  end%nat.

Definition ActionType_of_code (n : nat) : ActionType :=
  match n with
  | 0 => study_repo | 1 => fix_issue | 2 => write_code | 3 => refactor
  | 4 => document | 5 => share_technique | 6 => contribute_pr
  | _ => explore_topic
  end%nat.

#[global] Instance ActionType_countable : Countable ActionType.
Proof.
  refine (inj_countable' ActionType_code ActionType_of_code _).
  now intros [].
Defined.

(** [a || b] on numbers: zero is falsy. *)
Definition or_elseZ (a b : Z) : Z := if a =? 0 then b else a.
Definition or_elseQ (a b : Q) : Q := if Qeq_bool a 0 then b else a.

(** [l.slice(-n)] and [l.slice(0, n)] *)
Definition slice_last {A} (n : nat) (l : list A) : list A :=
  skipn (length l - n) l.
Definition slice_first {A} (n : nat) (l : list A) : list A := firstn n l.

Definition ACTION_PRIORITIES (t : ActionType) : Q :=
  match t with
  | share_technique => 0.9
  | study_repo => 0.85
  | explore_topic => 0.75
  | document => 0.6
  | write_code => 0.4
  | refactor => 0.3
  | fix_issue => 0.05
  | contribute_pr => 0.05
  end.

Definition TOKEN_ESTIMATES (t : ActionType) : Z :=
  match t with
  | explore_topic => 800
  | study_repo => 3000
  | fix_issue => 8000
  | write_code => 10000
  | refactor => 7000
  | document => 4000
  | share_technique => 1500
  | contribute_pr => 12000
  end.

Definition TIME_ESTIMATES (t : ActionType) : Z :=
  match t with
  | explore_topic => 5000
  | study_repo => 15000
  | fix_issue => 45000
  | write_code => 60000
  | refactor => 40000
  | document => 20000
  | share_technique => 8000
  | contribute_pr => 90000
  end.

Definition estimateCost (action : AgentAction) : Cost.t :=
  let type := action_type action in
  let estimatedTokens := or_elseZ (TOKEN_ESTIMATES type) 5000 in
  let estimatedTimeMs := or_elseZ (TIME_ESTIMATES type) 30000 in
  let riskLevel := low in
  let riskLevel :=
    if existsb (ActionType_eqb type) [contribute_pr; write_code; fix_issue]
    then medium else riskLevel in
  let riskLevel :=
    if ActionType_eqb type contribute_pr then high else riskLevel in
  Cost.mk estimatedTokens estimatedTimeMs riskLevel.

(** [{ low: 0, medium: 0.1, high: 0.2 }[riskLevel]] *)
Definition riskMultiplier (r : RiskLevel) : Q :=
  match r with low => 0 | medium => 0.1 | high => 0.2 end.

(** The quotients are taken in [Q], where a quotient by zero is zero;
    JavaScript yields an infinity or NaN where a divisor is zero, so
    what is stated on the value of the score assumes a positive
    remaining budget. *)
Definition scoreDecision
    (decision : Decision.t) (state : Agent.t) (channel : Channel.t) : Q :=
  let action := Decision.action decision in
  let type := action_type action in
  let personality := Agent.personality state in
  (* Base priority by action type *)
  let basePriority := or_elseQ (ACTION_PRIORITIES type) 0.5 in
  let priorityWeight := (basePriority * 0.20)%Q in
  (* Cost efficiency *)
  let budgetRemaining :=
    inject_Z (Agent.tokenBudget state - Agent.tokensUsed state) in
  let budgetRatio := (budgetRemaining / inject_Z (Agent.tokenBudget state))%Q in
  let costRatio :=
    (inject_Z (Cost.estimatedTokens (Decision.cost decision))
     / budgetRemaining)%Q in
  let costEfficiency := (Math_max 0 (1 - costRatio) * 0.25)%Q in
  (* Staleness bonus *)
  let recentDecisions := slice_last 10 (Agent.decisions state) in
  let recentTypes : gset ActionType :=
    list_to_set (map Decision.type recentDecisions) in
  let stalenessBonus : Q :=
    (if bool_decide (type ∈ recentTypes) then 0 else 0.15)%Q in
  (* Risk penalty *)
  let riskMultiplier :=
    riskMultiplier (Cost.riskLevel (Decision.cost decision)) in
  let riskPenalty := (- (riskMultiplier * (1 - budgetRatio)) * 0.20)%Q in
  (* Swarm alignment *)
  let swarmAlignment : Q :=
    (if Channel.phaseTransitionOccurred channel
        && negb (ActionType_eqb type explore_topic)
     then 0.10 else 0)%Q in
  (* Personal fit *)
  let personalFit : Q :=
    if ActionType_eqb type study_repo || ActionType_eqb type explore_topic
    then (Personality.curiosity personality * 0.10)%Q
    else if ActionType_eqb type fix_issue || ActionType_eqb type contribute_pr
    then (Personality.boldness personality * 0.10)%Q
    else if ActionType_eqb type share_technique
    then (Personality.sociability personality * 0.10)%Q
    else if ActionType_eqb type refactor || ActionType_eqb type document
    then (Personality.diligence personality * 0.10)%Q
    else 0%Q in
  (priorityWeight + costEfficiency + stalenessBonus + riskPenalty
   + swarmAlignment + personalFit)%Q.

(** [parseSuggestedAction] *)
Definition parseSuggestedAction
    (suggestion : string) (repos : list Repo.t) (issues : list Issue.t)
    : option AgentAction :=
  let lower := Js.toLowerCase suggestion in
  if Js.startsWith lower "fix_issue" || Js.includes lower "fix issue" then
    (* Try to extract issue reference *)
    let found :=
      match Js.match_issue suggestion, issues with
      | Some digits, _ :: _ =>
          let issueNum := Js.parseInt digits in
          find (fun i => Issue.number i =? issueNum) issues
      | _, _ => None
      end in
    match found with
    | Some issue =>
        Some (FixIssue (Issue.owner issue) (Issue.repo issue)
                       (Issue.number issue))
    | None =>
        (* Fallback: use first available issue *)
        match issues with
        | issue :: _ =>
            Some (FixIssue (Issue.owner issue) (Issue.repo issue)
                           (Issue.number issue))
        | [] => None
        end
    end
  else if Js.startsWith lower "study" || Js.includes lower "study_repo" then
    match Js.match_repo suggestion with
    | Some (o, r) => Some (StudyRepo o r None)
    | None =>
        match repos with
        | r0 :: _ => Some (StudyRepo (Repo.owner r0) (Repo.repo r0) None)
        | [] => None
        end
    end
  else if Js.startsWith lower "share_technique" || Js.includes lower "share"
  then
    let desc := Js.strip_keyword "share_technique" suggestion in
    Some (ShareTechnique (Js.or_else desc "engineering insight") None)
  else if Js.startsWith lower "explore_topic" || Js.includes lower "explore"
  then
    let topic := Js.strip_keyword "explore_topic" suggestion in
    Some (ExploreTopic (Js.or_else topic "distributed systems"))
  else if Js.includes lower "contribute" || Js.includes lower "pr"
          || Js.includes lower "fix_issue" || Js.includes lower "fix issue"
  then
    (* redirect to study_repo *)
    let known :=
      match Js.match_repo suggestion with
      | Some (o, r) =>
          find (fun k => String.eqb (Repo.owner k) o
                         && String.eqb (Repo.repo k) r) repos
      | None => None
      end in
    match known with
    | Some k => Some (StudyRepo (Repo.owner k) (Repo.repo k) None)
    | None =>
        match repos with
        | r0 :: _ => Some (StudyRepo (Repo.owner r0) (Repo.repo r0) None)
        | [] => None
        end
    end
  else if Js.includes lower "refactor" then
    match Js.match_repo suggestion with
    | Some (o, r) => Some (Refactor o r suggestion)
    | None => None
    end
  else if Js.includes lower "document" then
    match Js.match_repo suggestion with
    | Some (o, r) => Some (Document o r suggestion)
    | None => None
    end
  else None.

(** The stable sort of [candidates.sort((a, b) => b.priority - a.priority)]:
    non-increasing priority, equal priorities in their original order. *)
Fixpoint insert_by_priority (d : Decision.t) (l : list Decision.t)
    : list Decision.t :=
  match l with
  | [] => [d]
  | e :: l' =>
      if Qle_bool (Decision.priority e) (Decision.priority d)
      then d :: l
      else e :: insert_by_priority d l'
  end.

Definition sort_by_priority (l : list Decision.t) : list Decision.t :=
  fold_right insert_by_priority [] l.

Section Decider.

(** [uuid n] is the value of the [n]-th call of [uuid()] in one
    invocation, [now] the value of [Date.now()]. *)
Variable uuid : nat -> string.
Variable now : Z.

(** [candidates.push({ id: uuid(), agentId: state.id, action,
    priority: 0, cost, status: "pending", ... })] *)
Definition push_candidate
    (state : Agent.t) (candidates : list Decision.t)
    (action : AgentAction) (cost : Cost.t) : list Decision.t :=
  candidates ++
  [Decision.mk (uuid (length candidates)) (Agent.id state) action 0%Q cost
               pending None now None].

(** The four sources of candidates, in the order of the code; each
    extends the list [candidates] built so far. *)

(* From thoughts: turn suggested actions into decisions *)
Definition fromThoughts (state : Agent.t) (repos : list Repo.t)
    (issues : list Issue.t) (thoughts : list Thought.t)
    (budgetRemaining : Z) (candidates : list Decision.t)
    : list Decision.t :=
  fold_left (fun candidates thought =>
    fold_left (fun candidates suggestion =>
      match parseSuggestedAction suggestion repos issues with
      | None => candidates
      | Some action =>
          let cost := estimateCost action in
          if Cost.estimatedTokens cost >? budgetRemaining then candidates
          else push_candidate state candidates action cost
      end) (Thought.suggestedActions thought) candidates)
    (slice_last 5 thoughts) candidates.

(* From repos: study opportunities *)
Definition fromRepos (state : Agent.t) (repos : list Repo.t)
    (budgetRemaining : Z) (candidates : list Decision.t)
    : list Decision.t :=
  fold_left (fun candidates repo =>
    if existsb (String.eqb (Repo.fullName repo)) (Agent.reposStudied state)
    then candidates
    else
      let action := StudyRepo (Repo.owner repo) (Repo.repo repo) None in
      let cost := estimateCost action in
      if Cost.estimatedTokens cost >? budgetRemaining then candidates
      else push_candidate state candidates action cost)
    (slice_first 3 repos) candidates.

(* From pheromones: share technique *)
Definition fromPheromones (state : Agent.t) (channel : Channel.t)
    (budgetRemaining : Z) (candidates : list Decision.t)
    : list Decision.t :=
  if (5 <? length (Channel.pheromones channel))%nat
     && Qltb 0.5 (Personality.sociability (Agent.personality state))
  then
    let action :=
      ShareTechnique
        ("Cross-domain synthesis from " ++ Agent.specialization state)%string
        None in
    let cost := estimateCost action in
    if Cost.estimatedTokens cost <=? budgetRemaining
    then push_candidate state candidates action cost
    else candidates
  else candidates.

(* Always offer explore_topic as a fallback *)
Definition fallbackExplore (state : Agent.t)
    (budgetRemaining : Z) (candidates : list Decision.t)
    : list Decision.t :=
  let action := ExploreTopic (Agent.specialization state) in
  let cost := estimateCost action in
  if Cost.estimatedTokens cost <=? budgetRemaining
  then push_candidate state candidates action cost
  else candidates.

(** The candidates before scoring and sorting. *)
Definition collectCandidates
    (state : Agent.t) (channel : Channel.t) (repos : list Repo.t)
    (issues : list Issue.t) (thoughts : list Thought.t)
    : list Decision.t :=
  let candidates : list Decision.t := [] in
  let budgetRemaining := Agent.tokenBudget state - Agent.tokensUsed state in
  let candidates :=
    fromThoughts state repos issues thoughts budgetRemaining candidates in
  let candidates := fromRepos state repos budgetRemaining candidates in
  let candidates := fromPheromones state channel budgetRemaining candidates in
  fallbackExplore state budgetRemaining candidates.

(** [candidate.priority = scoreDecision(candidate, state, channel)] *)
Definition scoreCandidate (state : Agent.t) (channel : Channel.t)
    (candidate : Decision.t) : Decision.t :=
  Decision.set_priority (scoreDecision candidate state channel) candidate.

Definition generateCandidateDecisions
    (state : Agent.t) (channel : Channel.t) (repos : list Repo.t)
    (issues : list Issue.t) (thoughts : list Thought.t)
    : list Decision.t :=
  let candidates := collectCandidates state channel repos issues thoughts in
  (* Score all candidates *)
  let candidates := map (scoreCandidate state channel) candidates in
  sort_by_priority candidates.

End Decider.

(** The weighted draw of [selectDecision]: subtract the weights from the
    roll in turn and return the first candidate at which it is used up. *)
Fixpoint draw_weighted (roll : Q) (candidates : list Decision.t)
    (weights : list Q) : option Decision.t :=
  match candidates, weights with
  | c :: cs, w :: ws =>
      let roll := (roll - w)%Q in
      if Qle_bool roll 0 then Some c else draw_weighted roll cs ws
  | _, _ => None
  end.

(** [Math.max(...xs)] on a non-empty list. *)
Definition Math_max_list (x : Q) (xs : list Q) : Q := fold_left Math_max xs x.

(** [selectDecision(candidates, temperature)]; [exp] is [Math.exp] and
    [random] the value of the one call of [Math.random()]. *)
Definition selectDecision (exp : Q -> Q) (random : Q)
    (candidates : list Decision.t) (temperature : Q)
    : option Decision.t :=
  match candidates with
  | [] => None
  | first :: rest =>
      if Qeq_bool temperature 0 then Some first (* Greedy *)
      else
        let maxPriority :=
          Math_max_list (Decision.priority first)
                        (map Decision.priority rest) in
        let weights :=
          map (fun c =>
                 exp ((Decision.priority c - maxPriority) / temperature)%Q)
              candidates in
        let totalWeight := fold_left Qplus weights 0%Q in
        let roll := (random * totalWeight)%Q in
        match draw_weighted roll candidates weights with
        | Some c => Some c
        | None => Some first
        end
  end.

(** [shouldSwitch(state, lastResult)]; [random] is the value of
    [Math.random()] in the branch that calls it. *)
Definition shouldSwitch (random : Q) (state : Agent.t)
    (lastResult : option Result.t) : bool :=
  (* If last action succeeded, slight chance to switch for variety *)
  if match lastResult with Some r => Result.success r | None => false end
  then Qltb random 0.3
  (* If last action failed, higher chance to switch *)
  else if match lastResult with
          | Some r => negb (Result.success r)
          | None => false
          end
  then Qltb random 0.7
  (* No current decision *)
  else if match Agent.currentDecision state with
          | None => true
          | Some _ => false
          end
  then true
  (* Budget exhausted *)
  else if Agent.tokensUsed state >=? Agent.tokenBudget state then true
  else false.

(** A [Map<string, string[]>] in insertion order. *)
Definition RepoAgents := list (string * list string).

Fixpoint map_get (k : string) (m : RepoAgents) : option (list string) :=
  match m with
  | [] => None
  | (k', v) :: m' => if String.eqb k' k then Some v else map_get k m'
  end.

(** [m.set(k, v)]: an existing key keeps its place. *)
Fixpoint map_set (k : string) (v : list string) (m : RepoAgents)
    : RepoAgents :=
  match m with
  | [] => [(k, v)]
  | (k', v') :: m' =>
      if String.eqb k' k then (k, v) :: m' else (k', v') :: map_set k v m'
  end.

(** A [Set<string>] built from a list, in insertion order. *)
Definition set_of_list (l : list string) : list string :=
  fold_left (fun acc x => if existsb (String.eqb x) acc then acc
                          else acc ++ [x]) l [].

(** [l.join(sep)] *)
Fixpoint join (sep : string) (l : list string) : string :=
  match l with
  | [] => EmptyString
  | [x] => x
  | x :: l' => (x ++ sep ++ join sep l')%string
  end.

Definition show_nat (n : nat) : string := pretty n.

(** One iteration of the first loop of [detectCollaborativeOpportunity]. *)
Definition groupStep (repoAgents : RepoAgents) (agent : Agent.t)
    : RepoAgents :=
  match Agent.currentDecision agent with
  | None => repoAgents
  | Some decision =>
      match repoKey (Decision.action decision) with
      | Some key =>
          if Js.nonempty key then
            let existing :=
              match map_get key repoAgents with
              | Some e => e
              | None => []
              end in
            map_set key (existing ++ [Agent.id agent]) repoAgents
          else repoAgents
      | None => repoAgents
      end
  end.

(** The first loop of [detectCollaborativeOpportunity]: the agents that
    hold a current decision, grouped by the repository it references. *)
Definition groupByRepo (agents : list Agent.t) : RepoAgents :=
  fold_left groupStep agents [].

Definition detectCollaborativeOpportunity (uuid : nat -> string) (now : Z)
    (agents : list Agent.t) (channel : Channel.t)
    (_memories : list Pheromone.t) : option Project.t :=
  let repoAgents := groupByRepo agents in
  (* If 2+ agents are working on the same repo, propose collaboration *)
  match find (fun '(_, agentIds) => (2 <=? length agentIds)%nat) repoAgents with
  | Some (repo, agentIds) =>
      Some (Project.mk (uuid 0%nat)
              ("Collaborative work on " ++ repo)%string
              (show_nat (length agentIds)
               ++ " agents are independently working on " ++ repo
               ++ ". Coordination could prevent conflicts.")%string
              agentIds [repo] Project.proposed now)
  | None =>
      (* Check for synced agents with complementary specializations *)
      let syncedAgents := filter Agent.synchronized agents in
      let specializations :=
        set_of_list (map Agent.specialization syncedAgents) in
      if (3 <=? length syncedAgents)%nat
         && (2 <=? length specializations)%nat
      then
        Some (Project.mk (uuid 0%nat)
                ("Cross-domain collaboration: "
                 ++ join " + " (slice_first 2 specializations))%string
                (show_nat (length syncedAgents)
                 ++ " synced agents with complementary specializations"
                 ++ " could tackle a complex cross-domain project.")%string
                (map Agent.id syncedAgents) [] Project.proposed now)
      else None
  end.

(* ===================================================================== *)
(** * Agent state machine ([agent]) *)
(* ===================================================================== *)

(** Computations that call [Math.random()].  A computation receives the
    sequence of values [Math.random()] returns and the number of calls
    made so far; it yields its result with the new count.  It yields
    [None] where the JavaScript leaves the typed data model: an index
    out of range, which reads [undefined]. *)
Module Rand.
Definition M (A : Type) : Type := (nat -> Q) -> nat -> option (A * nat).

Definition ret {A} (a : A) : M A := fun _ n => Some (a, n).

Definition bind {A B} (c : M A) (k : A -> M B) : M B :=
  fun rnd n =>
    match c rnd n with
    | Some (a, n') => k a rnd n'
    | None => None
    end.

(** [Math.random()] *)
Definition random : M Q := fun rnd n => Some (rnd n, S n).

Definition lift {A} (o : option A) : M A :=
  fun _ n => match o with Some a => Some (a, n) | None => None end.

End Rand.

Notation "'let*' x ':=' c 'in' k" := (Rand.bind c (fun x => k))
  (at level 10, x pattern, c at level 100, k at level 200, only parsing).

(** [l[Math.floor(r * l.length)]] *)
Definition pick {A} (r : Q) (l : list A) : option A :=
  let i := Qfloor (r * inject_Z (Z.of_nat (length l))) in
  if i <? 0 then None else nth_error l (Z.to_nat i).

(** The [SwarmAgent] object: its state and its private fields. *)
Module SwarmAgent.
Record t := mk {
  state : Agent.t;
  discoveredRepos : list Repo.t;
  discoveredIssues : list Issue.t;
  engineeringEnabled : bool
}.

Definition set_state (v : Agent.t) (a : t) : t :=
  mk v (discoveredRepos a) (discoveredIssues a) (engineeringEnabled a).

Definition set_discoveredRepos (v : list Repo.t) (a : t) : t :=
  mk (state a) v (discoveredIssues a) (engineeringEnabled a).
End SwarmAgent.

(** [PERSONALITY_PRESETS[index % PERSONALITY_PRESETS.length]] *)
Definition PERSONALITY_PRESETS (index : nat) : string * Personality.t :=
  match (index mod 3)%nat with
  | 0%nat => ("Explorer", Personality.mk 0.9 0.4 0.3 0.6)
  | 1%nat => ("Synthesizer", Personality.mk 0.7 0.5 0.4 0.9)
  | _ => ("Builder", Personality.mk 0.5 0.6 0.9 0.3)
  end.

Definition clamp01 (x : Q) : Q := Math_max 0 (Math_min 1 x).

(** [perturb()] *)
Definition perturb : Rand.M Q :=
  let* r := Rand.random in Rand.ret (clamp01 ((r - 0.5) * 0.1)%Q).

Definition generatePersonality (index : nat)
    : Rand.M (string * Personality.t) :=
  let preset := PERSONALITY_PRESETS index in
  let p := snd preset in
  let* c := perturb in
  let* d := perturb in
  let* b := perturb in
  let* s := perturb in
  Rand.ret (fst preset,
            Personality.mk (clamp01 (Personality.curiosity p + c)%Q)
                           (clamp01 (Personality.diligence p + d)%Q)
                           (clamp01 (Personality.boldness p + b)%Q)
                           (clamp01 (Personality.sociability p + s)%Q)).

(** [checkSync(channel)] *)
Definition checkSync (this : Agent.t) (channel : Channel.t) : Agent.t :=
  if Agent.synchronized this then this
  else if Qle_bool (Channel.criticalThreshold channel) (Channel.density channel)
          && (3 <=? size (Agent.absorbed this))%nat
          && Qltb 0.5 (Agent.energy this)
  then
    Agent.set_base
      (Base.set_energy 1%Q (Base.set_synchronized true (Agent.base this)))
      this
  else this.

(** One iteration of the loop of [absorbPheromones]: the agent, the
    pheromone after the iteration, and whether it was absorbed. *)
Definition absorb_one (this : Agent.t) (p : Pheromone.t)
    : Rand.M (Agent.t * Pheromone.t * bool) :=
  if String.eqb (Pheromone.agentId p) (Agent.id this)
  then Rand.ret (this, p, false)
  else if bool_decide (Pheromone.id p ∈ Agent.absorbed this)
  then Rand.ret (this, p, false)
  else if Qltb 0.2 (Pheromone.strength p) then
    let* r := Rand.random in
    if Qltb r (Pheromone.strength p * 0.6)%Q then
      let b := Agent.base this in
      let b := Base.set_absorbed (Base.absorbed b ∪ {[Pheromone.id p]}) b in
      let b := Base.set_energy (Math_min 1 (Base.energy b + 0.05)%Q) b in
      (* Boost the original pheromone (positive feedback) *)
      let p :=
        Pheromone.set_strength (Math_min 1 (Pheromone.strength p + 0.1)%Q) p in
      Rand.ret (Agent.set_base b this, p, true)
    else Rand.ret (this, p, false)
  else Rand.ret (this, p, false).

(** The loop of [absorbPheromones] over the pheromones of the channel:
    the agent, the pheromones of the channel and the absorbed ones. *)
Fixpoint absorb_loop (this : Agent.t) (ps : list Pheromone.t)
    : Rand.M (Agent.t * list Pheromone.t * list Pheromone.t) :=
  match ps with
  | [] => Rand.ret (this, [], [])
  | p :: ps' =>
      let* (this, p, took) := absorb_one this p in
      let* (this, ps', absorbed) := absorb_loop this ps' in
      Rand.ret (this, p :: ps', if took : bool then p :: absorbed else absorbed)
  end.

(** [absorbPheromones(channel)]: the agent and the channel after the
    call, and the returned list. *)
Definition absorbPheromones (this : Agent.t) (channel : Channel.t)
    : Rand.M (Agent.t * Channel.t * list Pheromone.t) :=
  let* (this, ps, absorbed) := absorb_loop this (Channel.pheromones channel) in
  Rand.ret (this, Channel.set_pheromones ps channel, absorbed).

Section Emission.

(** The collaborators of the emitting functions: [uuid()],
    [Date.now()], the SHA-256 [hash], the code-hosting search
    [discoverRepos(query, { limit, minStars })], the topics of
    [GITHUB_DISCOVERY_TOPICS], and the two tables of fallback texts
    ([insights] of [fallbackInsight], [discoveries] of
    [fallbackDiscovery]), each a lookup by domain. *)
Variable uuid : nat -> string.
Variable now : Z.
Variable hash : string -> string.
Variable discoverRepos : string -> Z -> option Z -> list Repo.t.
Variable discoveryTopics : list string.
Variable insights : string -> option (list string).
Variable discoveries : string -> option (list string).

Definition show_Z (n : Z) : string := pretty n.

(** [table[domain] || table["data structures and algorithms"]] *)
Definition pool_of (table : string -> option (list string))
    (domain : string) : option (list string) :=
  match table domain with
  | Some l => Some l
  | None => table "data structures and algorithms"
  end.

Definition fallbackInsight (source : Pheromone.t) : Rand.M string :=
  let* domainInsights :=
    Rand.lift (pool_of insights (Pheromone.domain source)) in
  let* r := Rand.random in
  Rand.lift (pick r domainInsights).

Definition fallbackDiscovery (this : SwarmAgent.t) : Rand.M string :=
  let domain := Agent.explorationTarget (SwarmAgent.state this) in
  let* pool := Rand.lift (pool_of discoveries domain) in
  let* r := Rand.random in
  Rand.lift (pick r pool).

(** [if (!discoveredRepos.some(...)) discoveredRepos.push(repo)] *)
Definition remember_repo (repo : Repo.t) (this : SwarmAgent.t)
    : SwarmAgent.t :=
  if existsb (fun r => String.eqb (Repo.owner r) (Repo.owner repo)
                       && String.eqb (Repo.repo r) (Repo.repo repo))
             (SwarmAgent.discoveredRepos this)
  then this
  else SwarmAgent.set_discoveredRepos
         (SwarmAgent.discoveredRepos this ++ [repo]) this.

Definition set_explorationTarget (v : string) (this : SwarmAgent.t)
    : SwarmAgent.t :=
  let st := SwarmAgent.state this in
  SwarmAgent.set_state
    (Agent.set_base (Base.set_explorationTarget v (Agent.base st)) st) this.

(** [this.state.knowledge.push(pheromone); this.state.discoveries++] *)
Definition record_discovery (pheromone : Pheromone.t) (st : Agent.t)
    : Agent.t :=
  let b := Agent.base st in
  let b := Base.set_knowledge (Base.knowledge b ++ [pheromone]) b in
  let b := Base.set_discoveries (Base.discoveries b + 1) b in
  Agent.set_base b st.

(** The cross-pollination branch of [explore]: the agent, and the
    content, domain, connections and confidence of the pheromone. *)
Definition explore_cross (this : SwarmAgent.t) (target : string)
    (absorbed : list Pheromone.t)
    : Rand.M (SwarmAgent.t * string * string * list string * Q) :=
  let* r := Rand.random in
  let* source := Rand.lift (pick r absorbed) in
  let connections := [Pheromone.id source] in
  let confidence := Math_min 1 (Pheromone.confidence source + 0.1)%Q in
  let domain := Pheromone.domain source in
  let keywords :=
    slice_first 3
      (List.filter (fun w => (4 <? String.length w)%nat)
                   (Js.split_ws (Pheromone.content source))) in
  let searchTerm := Js.or_else (join " " keywords) target in
  let repos := discoverRepos searchTerm 3 None in
  let* (this, content) :=
    match repos with
    | repo :: _ =>
        Rand.ret
          (remember_repo repo this,
           ("github:" ++ Repo.owner repo ++ "/" ++ Repo.repo repo
            ++ " — " ++ Repo.description repo)%string)
    | [] => let* c := fallbackInsight source in Rand.ret (this, c)
    end in
  let this :=
    if Qltb 0.6 (Pheromone.strength source)
    then set_explorationTarget (Pheromone.domain source) this
    else this in
  Rand.ret (this, content, domain, connections, confidence).

(** The independent-discovery branch of [explore]. *)
Definition explore_independent (this : SwarmAgent.t) (target : string)
    : Rand.M (SwarmAgent.t * string * string * list string * Q) :=
  let* r := Rand.random in
  let* topic := Rand.lift (pick r discoveryTopics) in
  let repos := discoverRepos topic 5 (Some 10) in
  let* r := Rand.random in
  let confidence := (0.4 + r * 0.4)%Q in
  match repos with
  | _ :: _ =>
      let* r := Rand.random in
      let* repo := Rand.lift (pick r repos) in
      Rand.ret
        (remember_repo repo this,
         ("github:" ++ Repo.owner repo ++ "/" ++ Repo.repo repo
          ++ " (" ++ show_Z (Repo.stars repo) ++ "★ "
          ++ Repo.language repo ++ ") — "
          ++ Repo.description repo)%string,
         target, [], confidence)
  | [] =>
      let* content := fallbackDiscovery this in
      let* r := Rand.random in
      let confidence := (0.3 + r * 0.4)%Q in
      Rand.ret (this, content, target, [], confidence)
  end.

(** [explore(absorbed)]: the agent after the call and the pheromone it
    returns, or [null]. *)
Definition explore (this : SwarmAgent.t) (absorbed : list Pheromone.t)
    : Rand.M (SwarmAgent.t * option Pheromone.t) :=
  let this :=
    SwarmAgent.set_state
      (Agent.set_currentAction "exploring github" (SwarmAgent.state this))
      this in
  let discoveryChance : Q :=
    if Agent.synchronized (SwarmAgent.state this) then 0.7%Q else 0.4%Q in
  let* r := Rand.random in
  if Qltb discoveryChance r then Rand.ret (this, None)
  else
    let target := Agent.explorationTarget (SwarmAgent.state this) in
    let* cross :=
      (if (0 <? length absorbed)%nat
       then let* r := Rand.random in Rand.ret (Qltb r 0.6)
       else Rand.ret false) in
    let* (this, content, domain, connections, confidence) :=
      (if cross : bool
       then explore_cross this target absorbed
       else explore_independent this target) in
    let id := Agent.id (SwarmAgent.state this) in
    let pheromone :=
      Pheromone.mk (uuid 0%nat) id content domain confidence
        (0.5 + confidence * 0.3)%Q connections now
        (hash (content ++ id ++ show_Z now)%string) None in
    Rand.ret
      (SwarmAgent.set_state
         (record_discovery pheromone (SwarmAgent.state this)) this,
       Some pheromone).

(** [createEngineeringPheromone(decision, result)]: the agent state
    after the call and the pheromone it returns. *)
Definition createEngineeringPheromone (this : Agent.t)
    (decision : Decision.t) (result : Result.t)
    : Agent.t * Pheromone.t :=
  let has k :=
    existsb (fun a => Artifact.kind_eqb (Artifact.type a) k)
            (Result.artifacts result) in
  let hasCode := has Artifact.code_change in
  let hasPR := has Artifact.pr_url in
  let pheromoneType :=
    if hasPR then Pheromone.pr
    else if hasCode then Pheromone.code
    else if has Artifact.technique then Pheromone.technique
    else Pheromone.knowledge in
  let action := Decision.action decision in
  let githubRefs :=
    match repoKey action with Some k => [k] | None => [] end in
  let pheromone :=
    Pheromone.mk (uuid 0%nat) (Agent.id this) (Result.summary result)
      (Agent.explorationTarget this)
      (Decision.priority decision)
      (0.6 + Decision.priority decision * 0.3)%Q
      [] now
      (hash (Result.summary result ++ Agent.id this ++ show_Z now)%string)
      (Some (Pheromone.mkEngineering pheromoneType
               (map (fun a => Artifact.mk (Artifact.type a)
                                          (Artifact.content a) None
                                          (Artifact.prUrl a))
                    (Result.artifacts result))
               githubRefs
               (map (fun a => Js.take 200 (Artifact.content a))
                    (List.filter
                       (fun a => Artifact.kind_eqb (Artifact.type a)
                                                   Artifact.code_change)
                       (Result.artifacts result))))) in
  (record_discovery pheromone this, pheromone).

End Emission.

(* ===================================================================== *)
(** * Agent state machine: movement and the step *)
(* ===================================================================== *)

(** [this.state.position = v] and [this.state.velocity = v] *)
Definition set_position (v : Q * Q) (b : Base.t) : Base.t :=
  Base.mk (Base.id b) (Base.name b) v (Base.velocity b) (Base.knowledge b)
          (Base.absorbed b) (Base.explorationTarget b) (Base.energy b)
          (Base.synchronized b) (Base.syncedWith b) (Base.stepCount b)
          (Base.discoveries b) (Base.contributionsToCollective b).

Definition set_velocity (v : Q * Q) (b : Base.t) : Base.t :=
  Base.mk (Base.id b) (Base.name b) (Base.position b) v (Base.knowledge b)
          (Base.absorbed b) (Base.explorationTarget b) (Base.energy b)
          (Base.synchronized b) (Base.syncedWith b) (Base.stepCount b)
          (Base.discoveries b) (Base.contributionsToCollective b).

(** [this.state.stepCount = v] *)
Definition set_stepCount (v : Z) (b : Base.t) : Base.t :=
  Base.mk (Base.id b) (Base.name b) (Base.position b) (Base.velocity b)
          (Base.knowledge b) (Base.absorbed b) (Base.explorationTarget b)
          (Base.energy b) (Base.synchronized b) (Base.syncedWith b) v
          (Base.discoveries b) (Base.contributionsToCollective b).

(** The loop of [move] over the pheromones of the channel: the velocity
    is drawn toward every strong pheromone of another agent that this
    agent has not absorbed. *)
Fixpoint attract (this : Agent.t) (ps : list Pheromone.t) (v : Q * Q)
    : Rand.M (Q * Q) :=
  match ps with
  | [] => Rand.ret v
  | p :: ps' =>
      if String.eqb (Pheromone.agentId p) (Agent.id this)
      then attract this ps' v
      else if bool_decide (Pheromone.id p ∈ Agent.absorbed this)
      then attract this ps' v
      else if Qltb 0.5 (Pheromone.strength p) then
        let* r := Rand.random in
        let dx := (fst v + (r - 0.5) * Pheromone.strength p * 3)%Q in
        let* r := Rand.random in
        let dy := (snd v + (r - 0.5) * Pheromone.strength p * 3)%Q in
        attract this ps' (dx, dy)
      else attract this ps' v
  end.

(** [move(channel)] *)
Definition move (this : Agent.t) (channel : Channel.t) : Rand.M Agent.t :=
  let b := Agent.base this in
  let x := fst (Base.position b) in
  let y := snd (Base.position b) in
  let dx := fst (Base.velocity b) in
  let dy := snd (Base.velocity b) in
  let* (dx, dy) :=
    (if Base.synchronized b then
       (* Pull toward collective center *)
       let cx := 500%Q in
       let cy := 400%Q in
       let pullStrength := 0.05%Q in
       let dx := (dx + (cx - x) * pullStrength)%Q in
       let dy := (dy + (cy - y) * pullStrength)%Q in
       (* Orbit *)
       let dx := (dx + (y - cy) * 0.01)%Q in
       let dy := (dy + - (x - cx) * 0.01)%Q in
       Rand.ret (dx, dy)
     else
       (* Brownian motion + pheromone attraction *)
       let* r := Rand.random in
       let dx := (dx + (r - 0.5) * 4)%Q in
       let* r := Rand.random in
       let dy := (dy + (r - 0.5) * 4)%Q in
       attract this (Channel.pheromones channel) (dx, dy)) in
  (* Damping *)
  let dx := (dx * 0.85)%Q in
  let dy := (dy * 0.85)%Q in
  (* Apply *)
  let x := (x + dx)%Q in
  let y := (y + dy)%Q in
  (* Soft bounds *)
  let x := Math_max 50 (Math_min 950 x) in
  let y := Math_max 50 (Math_min 750 y) in
  Rand.ret (Agent.set_base (set_position (x, y) (set_velocity (dx, dy) b))
                           this).

(** [shouldDoEngineering()] *)
Definition shouldDoEngineering (this : SwarmAgent.t) : Rand.M bool :=
  if negb (SwarmAgent.engineeringEnabled this) then Rand.ret false
  else if Agent.tokensUsed (SwarmAgent.state this)
          >=? Agent.tokenBudget (SwarmAgent.state this)
  then Rand.ret false
  else
    let step := Base.stepCount (Agent.base (SwarmAgent.state this)) in
    let probability := Math_min 0.8 (inject_Z step / 50)%Q in
    let* r := Rand.random in
    Rand.ret (Qltb r probability).

(** [enableEngineering()] *)
Definition enableEngineering (this : SwarmAgent.t) : SwarmAgent.t :=
  SwarmAgent.mk (SwarmAgent.state this) (SwarmAgent.discoveredRepos this)
                (SwarmAgent.discoveredIssues this) true.

Section Step.

(** The collaborators of [explore], and the two engineering branches of
    [step], which call the reasoning and execution services:
    [engineeringStep(channel, absorbed)] and
    [continueExecution(absorbed)]. *)
Variable uuid : nat -> string.
Variable now : Z.
Variable hash : string -> string.
Variable discoverRepos : string -> Z -> option Z -> list Repo.t.
Variable discoveryTopics : list string.
Variable insights : string -> option (list string).
Variable discoveries : string -> option (list string).
Variable engineeringStep :
  SwarmAgent.t -> Channel.t -> list Pheromone.t ->
  Rand.M (SwarmAgent.t * option Pheromone.t).
Variable continueExecution :
  SwarmAgent.t -> list Pheromone.t ->
  Rand.M (SwarmAgent.t * option Pheromone.t).

(** [step(channel)]: the agent and the channel after the step, and the
    pheromone it returns, or [null]. *)
Definition step (this : SwarmAgent.t) (channel : Channel.t)
    : Rand.M (SwarmAgent.t * Channel.t * option Pheromone.t) :=
  let st := SwarmAgent.state this in
  let st :=
    Agent.set_base
      (set_stepCount (Base.stepCount (Agent.base st) + 1) (Agent.base st))
      st in
  (* 1. Move through exploration space *)
  let* st := move st channel in
  (* 2. Absorb nearby pheromones from other agents *)
  let* (st, channel, absorbed) := absorbPheromones st channel in
  let this := SwarmAgent.set_state st this in
  (* 3. Branch: engineering mode or exploration mode *)
  let* engineering := shouldDoEngineering this in
  let* (this, discovery) :=
    (if engineering : bool then
       match Agent.currentDecision (SwarmAgent.state this) with
       | Some d =>
           match Decision.status d with
           | executing => continueExecution this absorbed
           | _ => engineeringStep this channel absorbed
           end
       | None => engineeringStep this channel absorbed
       end
     else
       explore uuid now hash discoverRepos discoveryTopics insights
               discoveries this absorbed) in
  (* 4. Check for synchronization *)
  let this :=
    SwarmAgent.set_state (checkSync (SwarmAgent.state this) channel) this in
  Rand.ret (this, channel, discovery).

End Step.

Definition DOMAINS : list string :=
  ["data structures and algorithms";
   "distributed systems architecture";
   "cryptographic primitives";
   "network protocols and security";
   "database optimization patterns";
   "compiler design techniques";
   "operating system internals";
   "machine learning optimization";
   "consensus mechanisms";
   "memory management strategies"].

Definition NAMES : list string := ["Neuron-A"; "Neuron-B"; "Neuron-C"].

Section Constructor.

(** [uuid()], [Math.cos], [Math.sin] and [Math.PI], and the value
    [parseInt] returns for the setting [TOKEN_BUDGET_PER_AGENT]
    (["50000"] when it is not set). *)
Variable uuid : nat -> string.
Variable Math_cos : Q -> Q.
Variable Math_sin : Q -> Q.
Variable Math_PI : Q.
Variable tokenBudget : Z.

(** [new SwarmAgent(index)] *)
Definition newSwarmAgent (index : nat) : Rand.M SwarmAgent.t :=
  let angle := (inject_Z (Z.of_nat index) / 8 * Math_PI * 2)%Q in
  let* r := Rand.random in
  let radius := (300 + r * 200)%Q in
  let* (specialization, personality) := generatePersonality index in
  let* rdx := Rand.random in
  let* rdy := Rand.random in
  let* re := Rand.random in
  let* explorationTarget :=
    Rand.lift (nth_error DOMAINS (index mod length DOMAINS)) in
  let name :=
    match nth_error NAMES index with
    | Some n => Js.or_else n ("Neuron-" ++ show_nat index)%string
    | None => ("Neuron-" ++ show_nat index)%string
    end in
  let base :=
    Base.mk (uuid 0%nat) name
            (500 + Math_cos angle * radius, 400 + Math_sin angle * radius)%Q
            ((rdx - 0.5) * 8, (rdy - 0.5) * 8)%Q
            [] ∅ explorationTarget (0.3 + re * 0.3)%Q false [] 0 0 0 in
  Rand.ret
    (SwarmAgent.mk
       (Agent.mk base [] [] None [] [] 0 tokenBudget specialization
                 personality "initializing")
       [] [] false).

End Constructor.

(* ===================================================================== *)
(** * Ranking of the files of a repository ([github]) *)
(* ===================================================================== *)

(** [FileScore] *)
Module FileScore.
Record t := mk {
  path : string;
  score : Z;
  reason : string;
  keySnippets : list string
}.
End FileScore.

(** The stable sort of [scores.sort((a, b) => b.score - a.score)]. *)
Fixpoint insert_by_score (f : FileScore.t) (l : list FileScore.t)
    : list FileScore.t :=
  match l with
  | [] => [f]
  | e :: l' =>
      if FileScore.score e <=? FileScore.score f then f :: l
      else e :: insert_by_score f l'
  end.

Definition sort_by_score (l : list FileScore.t) : list FileScore.t :=
  fold_right insert_by_score [] l.

Section ScoreFiles.

(** [path.extname] and [path.basename] *)
Variable extname : string -> string.
Variable basename : string -> string.

(** [issue.title.toLowerCase().split(/\s+/).filter((t) => t.length > 3)] *)
Definition issueTerms (issue : Issue.t) : list string :=
  List.filter (fun t => (3 <? String.length t)%nat)
              (Js.split_ws (Js.toLowerCase (Issue.title issue))).

(** One iteration of the loop of [scoreFiles]: the entry pushed for
    [filePath], if any. *)
Definition scoreFile (keywords : list string) (issue : option Issue.t)
    (filePath : string) : option FileScore.t :=
  let score := 0 in
  let reasons : list string := [] in
  let ext := Js.toLowerCase (extname filePath) in
  let name := Js.toLowerCase (basename filePath) in
  (* Source file bonus *)
  let '(score, reasons) :=
    if existsb (String.eqb ext) [".ts"; ".js"; ".py"; ".rs"; ".go"; ".sol"]
    then (score + 2, reasons ++ ["source file"])
    else (score, reasons) in
  (* Config/entry point bonus *)
  let '(score, reasons) :=
    if existsb (fun k => Js.includes name k)
               ["index"; "main"; "app"; "server"; "lib"]
    then (score + 3, reasons ++ ["entry point"])
    else (score, reasons) in
  (* Test file bonus *)
  let '(score, reasons) :=
    if Js.includes name "test" || Js.includes name "spec"
    then (score + 1, reasons ++ ["test file"])
    else (score, reasons) in
  (* Keyword matching *)
  let '(score, reasons) :=
    fold_left (fun '(score, reasons) kw =>
      if Js.includes (Js.toLowerCase filePath) (Js.toLowerCase kw)
      then (score + 2, reasons ++ [("matches keyword: " ++ kw)%string])
      else (score, reasons)) keywords (score, reasons) in
  (* Issue title/label matching *)
  let '(score, reasons) :=
    match issue with
    | Some issue =>
        fold_left (fun '(score, reasons) term =>
          if Js.includes (Js.toLowerCase filePath) term
          then (score + 3, reasons ++ [("matches issue term: " ++ term)%string])
          else (score, reasons)) (issueTerms issue) (score, reasons)
    | None => (score, reasons)
    end in
  (* Ignore uninteresting files *)
  let score :=
    if existsb (String.eqb ext)
               [".md"; ".txt"; ".lock"; ".json"; ".yaml"; ".yml"; ".toml"]
       && negb (Js.includes name "config")
    then Z.max 0 (score - 2) else score in
  if Js.includes filePath "node_modules/" || Js.includes filePath "dist/"
     || Js.includes filePath ".git/"
  then None
  else if 0 <? score
  then Some (FileScore.mk filePath score (join ", " reasons) [])
  else None.

(** [scoreFiles(filePaths, keywords, issue)] *)
Definition scoreFiles (filePaths : list string) (keywords : list string)
    (issue : option Issue.t) : list FileScore.t :=
  let scores :=
    fold_left (fun scores filePath =>
                 match scoreFile keywords issue filePath with
                 | Some s => scores ++ [s]
                 | None => scores
                 end) filePaths [] in
  slice_first 15 (sort_by_score scores).

End ScoreFiles.

(* ===================================================================== *)
(** * Predicates and inputs of the statements *)
(* ===================================================================== *)

(** The guard of [checkSync], as a proposition. *)
Definition sync_condition (this : Agent.t) (channel : Channel.t) : Prop :=
  (Channel.criticalThreshold channel <= Channel.density channel)%Q
  /\ (3 <= size (Agent.absorbed this))%nat
  /\ (0.5 < Agent.energy this)%Q.

(** [l] is in non-increasing order of priority. *)
Definition by_priority : list Decision.t -> Prop :=
  StronglySorted
    (fun a b => (Decision.priority b <= Decision.priority a)%Q).

(** Where the action of a candidate comes from. *)
Definition origin (state : Agent.t) (repos : list Repo.t)
    (issues : list Issue.t) (thoughts : list Thought.t)
    (action : AgentAction) : Prop :=
  (exists thought suggestion,
      In thought (slice_last 5 thoughts)
      /\ In suggestion (Thought.suggestedActions thought)
      /\ parseSuggestedAction suggestion repos issues = Some action)
  \/ (exists repo,
         In repo (slice_first 3 repos)
         /\ action = StudyRepo (Repo.owner repo) (Repo.repo repo) None)
  \/ action
     = ShareTechnique
         ("Cross-domain synthesis from " ++ Agent.specialization state)%string
         None
  \/ action = ExploreTopic (Agent.specialization state).

(** A pending candidate as the sources push it. *)
Definition pushed (state : Agent.t) (repos : list Repo.t)
    (issues : list Issue.t) (thoughts : list Thought.t)
    (budgetRemaining : Z) (d : Decision.t) : Prop :=
  origin state repos issues thoughts (Decision.action d)
  /\ Decision.cost d = estimateCost (Decision.action d)
  /\ Cost.estimatedTokens (Decision.cost d) <= budgetRemaining
  /\ Decision.priority d = 0%Q
  /\ Decision.status d = pending
  /\ Decision.agentId d = Agent.id state.

(** ** Concrete inputs *)

Definition ex_base (id : string) (absorbed : gset string) (energy : Q)
    (synchronized : bool) : Base.t :=
  Base.mk id "Neuron-A" (500%Q, 400%Q) (0%Q, 0%Q) [] absorbed
          "consensus mechanisms" energy synchronized [] 0 0 0.

Definition ex_personality : Personality.t := Personality.mk 0.9 0.4 0.3 0.6.

(** An agent with a budget of 50000 tokens of which [used] are spent. *)
Definition ex_agent (used : Z) : Agent.t :=
  Agent.mk (ex_base "agent-1" ∅ 0.9%Q false) [] [] None [] [] used 50000
           "Explorer" ex_personality "initializing".

Definition ex_channel : Channel.t := Channel.mk [] 0.8%Q 0.6%Q false None.

Definition ex_uuid (n : nat) : string := ("id-" ++ pretty n)%string.

Definition ex_repo : Repo.t :=
  Repo.mk "octo" "widget" "a widget toolkit" "ts" 10 [] 0.5%Q.

Definition ex_issue : Issue.t :=
  Issue.mk "octo" "widget" 7 "crash on start" "stack trace" [] Issue.easy
           0.5%Q.

Definition ex_thought (suggestions : list string) : Thought.t :=
  Thought.mk "thought-1" "agent-1" "exploration" "observed" "reasoned"
             "concluded" suggestions 0.5%Q 0.

Definition within_budget (budgetRemaining : Z) (d : Decision.t) : Prop :=
  Cost.estimatedTokens (Decision.cost d) <= budgetRemaining.

Definition ex_decision (id : string) (priority : Q) : Decision.t :=
  Decision.mk id "agent-1" (ExploreTopic "Explorer") priority
              (Cost.mk 800 5000 low) pending None 0 None.

(** ** The score in the words of the specification *)

(** The personality trait relevant to an action kind, in the words of
    the specification: curiosity for study and explore, boldness for fix
    and contribute, sociability for share, diligence for refactor and
    document.  The specification names no trait for [write_code], which
    contributes nothing. *)
Definition spec_relevant_trait (type : ActionType) (p : Personality.t) : Q :=
  match type with
  | study_repo | explore_topic => Personality.curiosity p
  | fix_issue | contribute_pr => Personality.boldness p
  | share_technique => Personality.sociability p
  | refactor | document => Personality.diligence p
  | write_code => 0
  end.

(** The score in the words of the specification: the weighted sum of
    six signals, as a function of the action kind, the cost, the budget,
    the kinds of the last 10 decisions, the phase transition and the
    personality. *)
Definition spec_score (type : ActionType) (risk : RiskLevel)
    (estimatedTokens tokenBudget tokensUsed : Z)
    (recentTypes : list ActionType) (phaseTransitionOccurred : bool)
    (p : Personality.t) : Q :=
  let remainingBudget := inject_Z (tokenBudget - tokensUsed) in
  (ACTION_PRIORITIES type * 0.20
   + Math_max 0 (1 - inject_Z estimatedTokens / remainingBudget) * 0.25
   + (if bool_decide (type ∈ recentTypes) then 0 else 0.15)
   - riskMultiplier risk
     * (1 - remainingBudget / inject_Z tokenBudget) * 0.20
   + (if phaseTransitionOccurred
         && bool_decide (type <> explore_topic) then 0.10 else 0)
   + spec_relevant_trait type p * 0.10)%Q.

(** ** Agents grouped by repository *)

(** The agent holds a current decision whose action references the
    repository [r]. *)
Definition acts_on (r : string) (a : Agent.t) : bool :=
  match Agent.currentDecision a with
  | Some d =>
      match repoKey (Decision.action d) with
      | Some k => String.eqb k r
      | None => false
      end
  | None => false
  end.

(** The agent holds an executing decision whose action references the
    repository [r]. *)
Definition executing_on (r : string) (a : Agent.t) : bool :=
  match Agent.currentDecision a with
  | Some d =>
      match Decision.status d, repoKey (Decision.action d) with
      | executing, Some k => String.eqb k r
      | _, _ => false
      end
  | None => false
  end.

(** Every current decision is the one in flight: its status is
    [executing]. *)
Definition in_flight (agents : list Agent.t) : Prop :=
  forall a d, In a agents -> Agent.currentDecision a = Some d ->
              Decision.status d = executing.

Definition ids_on (r : string) (agents : list Agent.t) : list string :=
  map Agent.id (List.filter (acts_on r) agents).

(** The grouping holds, for each repository some agent acts on, the ids
    of the agents acting on it, in the order of the agents. *)
Definition grouped (agents : list Agent.t) (m : RepoAgents) : Prop :=
  NoDup (map fst m)
  /\ (forall k v, In (k, v) m -> v = ids_on k agents /\ v <> [])
  /\ (forall k, ids_on k agents <> [] -> In k (map fst m)).

Definition ex_executing (id : string) (action : AgentAction) : Agent.t :=
  Agent.mk (ex_base id ∅ 0.9%Q false) [] []
           (Some (Decision.mk "d" id action 0.5%Q (estimateCost action)
                              executing None 0 None))
           [] [] 0 50000 "Explorer" ex_personality "studying repo".

(** An agent whose current decision has the given status. *)
Definition ex_holding (id : string) (status : Status) (action : AgentAction)
    : Agent.t :=
  Agent.mk (ex_base id ∅ 0.9%Q false) [] []
           (Some (Decision.mk "d" id action 0.5%Q (estimateCost action)
                              status None 0 None))
           [] [] 0 50000 "Explorer" ex_personality "studying repo".

(** Two agents whose current decisions reference [octo/widget], none of
    them executing. *)
Definition ex_idle_pair : list Agent.t :=
  [ex_holding "agent-1" completed (StudyRepo "octo" "widget" None);
   ex_holding "agent-2" pending (FixIssue "octo" "widget" 7)].


(** The traits [generatePersonality] returns: each is at least the
    smallest preset of its kind and at most 1. *)
Definition generated (p : Personality.t) : Prop :=
  (0.5 <= Personality.curiosity p <= 1)%Q
  /\ (0.4 <= Personality.diligence p <= 1)%Q
  /\ (0.3 <= Personality.boldness p <= 1)%Q
  /\ (0.3 <= Personality.sociability p <= 1)%Q.

Definition ex_pheromone (id agentId : string) (strength : Q) : Pheromone.t :=
  Pheromone.mk id agentId "raft leader lease optimization"
               "consensus mechanisms" 0.5%Q strength [] 0 "0a1b" None.

(** An agent that has absorbed the pheromones of the given ids. *)
Definition ex_absorber (absorbed : gset string) : Agent.t :=
  Agent.mk (ex_base "agent-1" absorbed 0.9%Q false) [] [] None [] [] 0 50000
           "Explorer" ex_personality "initializing".

Definition ex_swarm_agent : SwarmAgent.t :=
  SwarmAgent.mk (ex_agent 0) [] [] false.

Definition ex_result : Result.t :=
  Result.mk true "studied octo/widget"
            [Artifact.mk Artifact.analysis "notes" None None] 1200.

(** ** What a suggestion yields *)

(** The suggestion asks to fix an issue: the guard of the first branch of
    [parseSuggestedAction]. *)
Definition asks_fix (suggestion : string) : bool :=
  Js.startsWith (Js.toLowerCase suggestion) "fix_issue"
  || Js.includes (Js.toLowerCase suggestion) "fix issue".

(** The [fix_issue] action on an issue. *)
Definition fix_of (issue : Issue.t) : AgentAction :=
  FixIssue (Issue.owner issue) (Issue.repo issue) (Issue.number issue).

(** Every character of [s] satisfies [f]. *)
Fixpoint all_chars (f : ascii -> bool) (s : string) : bool :=
  match s with
  | EmptyString => true
  | String c s' => f c && all_chars f s'
  end.

(** A non-empty string whose characters all satisfy [f]. *)
Definition name_of (f : ascii -> bool) (s : string) : Prop :=
  Js.nonempty s = true /\ all_chars f s = true.

(** ** The candidates as lists of actions *)

(** The actions whose estimated cost fits the remaining budget. *)
Definition affordable (budgetRemaining : Z) (l : list AgentAction)
    : list AgentAction :=
  List.filter
    (fun a => Cost.estimatedTokens (estimateCost a) <=? budgetRemaining) l.

(** The actions [parseSuggestedAction] reads from the suggestions. *)
Definition parsed (repos : list Repo.t) (issues : list Issue.t)
    (suggestions : list string) : list AgentAction :=
  flat_map (fun s => match parseSuggestedAction s repos issues with
                     | Some a => [a]
                     | None => []
                     end) suggestions.

(** The suggestions of the last five thoughts. *)
Definition suggested (thoughts : list Thought.t) : list string :=
  flat_map Thought.suggestedActions (slice_last 5 thoughts).

(** The repositories among the first three that the agent has not
    studied. *)
Definition unstudied (state : Agent.t) (repos : list Repo.t) : list Repo.t :=
  List.filter
    (fun r => negb (existsb (String.eqb (Repo.fullName r))
                            (Agent.reposStudied state)))
    (slice_first 3 repos).

Definition study_of (repo : Repo.t) : AgentAction :=
  StudyRepo (Repo.owner repo) (Repo.repo repo) None.

(** The guard of the [share_technique] candidate. *)
Definition shares (state : Agent.t) (channel : Channel.t) : bool :=
  (5 <? length (Channel.pheromones channel))%nat
  && Qltb 0.5 (Personality.sociability (Agent.personality state)).

(** The actions of the candidates, in the order of the four sources. *)
Definition offered (state : Agent.t) (channel : Channel.t)
    (repos : list Repo.t) (issues : list Issue.t) (thoughts : list Thought.t)
    : list AgentAction :=
  affordable (Agent.tokenBudget state - Agent.tokensUsed state)
    (parsed repos issues (suggested thoughts)
     ++ map study_of (unstudied state repos)
     ++ (if shares state channel
         then [ShareTechnique
                 ("Cross-domain synthesis from "
                  ++ Agent.specialization state)%string None]
         else [])
     ++ [ExploreTopic (Agent.specialization state)]).

(** The candidate the [k]-th call of [uuid()] identifies. *)
Definition fresh_decision (uuid : nat -> string) (now : Z) (state : Agent.t)
    (k : nat) (action : AgentAction) : Decision.t :=
  Decision.mk (uuid k) (Agent.id state) action 0%Q (estimateCost action)
              pending None now None.

(** The decisions of priority [q]. *)
Definition ties (q : Q) (l : list Decision.t) : list Decision.t :=
  List.filter (fun d => Qeq_bool (Decision.priority d) q) l.

(** The candidates are the fresh decisions on [actions], numbered in
    the order of the calls of [uuid()]. *)
Definition numbered (uuid : nat -> string) (now : Z) (state : Agent.t)
    (actions : list AgentAction) (candidates : list Decision.t) : Prop :=
  candidates = imap (fresh_decision uuid now state) actions.

(** ** The weighted draw of [selectDecision] *)

(** [Math.max(...candidates.map((c) => c.priority))] *)
Definition maxPriority (first : Decision.t) (rest : list Decision.t) : Q :=
  Math_max_list (Decision.priority first) (map Decision.priority rest).

(** The weights [selectDecision] gives the candidates [first :: rest]. *)
Definition softmax_weights (exp : Q -> Q) (first : Decision.t)
    (rest : list Decision.t) (temperature : Q) : list Q :=
  map (fun c =>
         exp ((Decision.priority c - maxPriority first rest) / temperature)%Q)
      (first :: rest).

(** [weights.reduce((s, w) => s + w, 0)] *)
Definition total (weights : list Q) : Q := fold_left Qplus weights 0%Q.

(** The sum of the first [i] weights. *)
Definition cumulative (weights : list Q) (i : nat) : Q :=
  total (firstn i weights).

(** ** Synchronized agents *)

(** [agents.filter((a) => a.synchronized)] *)
Definition syncedAgents (agents : list Agent.t) : list Agent.t :=
  filter Agent.synchronized agents.

(** At least three agents are synchronized, two of them with different
    specializations. *)
Definition complementary (agents : list Agent.t) : Prop :=
  (3 <= length (syncedAgents agents))%nat
  /\ exists a b, In a (syncedAgents agents) /\ In b (syncedAgents agents)
                 /\ Agent.specialization a <> Agent.specialization b.

(** No repository is referenced by the current decisions of two agents. *)
Definition no_shared_repo (agents : list Agent.t) : Prop :=
  forall r, (length (ids_on r agents) < 2)%nat.

Definition ex_synced (id specialization : string) : Agent.t :=
  Agent.mk (ex_base id ∅ 1%Q true) [] [] None [] [] 0 50000
           specialization ex_personality "exploring github".

(** ** Absorption *)

(** [Math.min(1.0, energy + 0.05)], the energy after one absorption. *)
Definition boost_energy (e : Q) : Q := Math_min 1 (e + 0.05)%Q.

(** A pheromone after its absorption. *)
Definition boosted (p : Pheromone.t) : Pheromone.t :=
  Pheromone.set_strength (Math_min 1 (Pheromone.strength p + 0.1)%Q) p.

(** The agent with its absorbed set and its energy erased. *)
Definition forget_absorption (this : Agent.t) : Agent.t :=
  Agent.set_base
    (Base.set_energy 0%Q (Base.set_absorbed ∅ (Agent.base this))) this.

(** The trait of the preset perturbed by the draw [r]. *)
Definition perturbed (preset r : Q) : Q :=
  (preset + Math_max 0 ((r - 0.5) * 0.1))%Q.

(** ** Exploration *)

(** The agent with what [explore] may change erased: the current action,
    the knowledge, the count of discoveries, the exploration target and
    the discovered repositories. *)
Definition forget_exploration (this : SwarmAgent.t) : SwarmAgent.t :=
  let st := SwarmAgent.state this in
  let b :=
    Base.set_knowledge []
      (Base.set_discoveries 0
         (Base.set_explorationTarget EmptyString (Agent.base st))) in
  SwarmAgent.set_discoveredRepos []
    (SwarmAgent.set_state
       (Agent.set_currentAction EmptyString (Agent.set_base b st)) this).

(** [this.state.currentAction = "exploring github"] *)
Definition exploring (this : SwarmAgent.t) : SwarmAgent.t :=
  SwarmAgent.set_state
    (Agent.set_currentAction "exploring github" (SwarmAgent.state this)) this.

(** The agent [this'] is [this], or [this] after it has remembered a
    repository. *)
Definition remembered (this this' : SwarmAgent.t) : Prop :=
  this' = this \/ exists repo, this' = remember_repo repo this.

(** No two repositories of the list have the same owner and name. *)
Definition distinct_repos (l : list Repo.t) : Prop :=
  List.NoDup (map (fun r => (Repo.owner r, Repo.repo r)) l).

(** What the two branches of [explore] yield from the agent [this0]:
    the independent discovery, or the cross-pollination from an absorbed
    pheromone. *)
Definition explored (this0 this1 : SwarmAgent.t)
    (absorbed : list Pheromone.t) (domain : string)
    (connections : list string) (confidence : Q) : Prop :=
  (connections = []
   /\ domain = Agent.explorationTarget (SwarmAgent.state this0)
   /\ remembered this0 this1)
  \/ (exists source this2,
         In source absorbed
         /\ connections = [Pheromone.id source]
         /\ domain = Pheromone.domain source
         /\ confidence = Math_min 1 (Pheromone.confidence source + 0.1)%Q
         /\ remembered this0 this2
         /\ this1 = if Qltb 0.6 (Pheromone.strength source)
                    then set_explorationTarget (Pheromone.domain source) this2
                    else this2).

(** ** Engineering *)

(** Some artifact of the result is of kind [k]. *)
Definition has_artifact (k : Artifact.Kind) (result : Result.t) : Prop :=
  Exists (fun a => Artifact.type a = k) (Result.artifacts result).

Definition ex_code_result : Result.t :=
  Result.mk true "patched octo/widget"
            [Artifact.mk Artifact.analysis "notes" None None;
             Artifact.mk Artifact.code_change "let x = 1;" (Some "a.ts") None]
            1200.

(** ** Ranked files *)

(** [l] is in non-increasing order of score. *)
Definition by_score : list FileScore.t -> Prop :=
  StronglySorted (fun a b => FileScore.score b <= FileScore.score a).

(** The directories whose files [scoreFiles] leaves out. *)
Definition vendored (filePath : string) : bool :=
  Js.includes filePath "node_modules/" || Js.includes filePath "dist/"
  || Js.includes filePath ".git/".

(** The number of terms [scoreFiles] reads from the issue. *)
Definition term_count (issue : option Issue.t) : Z :=
  match issue with
  | Some issue => Z.of_nat (length (issueTerms issue))
  | None => 0
  end.

(** Stand-ins for [path.extname] and [path.basename] on the paths of
    the examples: the path from its first dot on, and the whole path. *)
Definition ex_extname (filePath : string) : string :=
  snd (Js.span (fun c => negb (Ascii.eqb c ".")) filePath).

Definition ex_basename (filePath : string) : string := filePath.

Definition ex_file_score : FileScore.t :=
  FileScore.mk "src/index.ts" 7
               "source file, entry point, matches keyword: src" [].

(* ===================================================================== *)
(** * Properties of numbers and strings *)
(* ===================================================================== *)

Lemma Qltb_lt (x y : Q) : Qltb x y = true <-> (x < y)%Q.
Proof.
  unfold Qltb. rewrite negb_true_iff.
  split.
  - intros H. apply Qnot_le_lt. intros Hle.
    apply Qle_bool_iff in Hle. congruence.
  - intros H. destruct (Qle_bool y x) eqn:E; [|reflexivity].
    apply Qle_bool_iff in E. exfalso. exact (Qlt_not_le _ _ H E).
Qed.

Example toLowerCase_ex : Js.toLowerCase "Fix Issue #12" = "fix issue #12".
Proof. reflexivity. Qed.

Example match_issue_ex :
  Js.match_issue "Fix issue #12 in octo/widget" = Some "12".
Proof. reflexivity. Qed.

Example match_issue_skip : Js.match_issue "a # b #x #7" = Some "7".
Proof. reflexivity. Qed.

Example match_repo_ex :
  Js.match_repo "study the octo/widget.js repo" = Some ("octo", "widget.js").
Proof. reflexivity. Qed.

Example match_repo_none : Js.match_repo "a/ /b //" = None.
Proof. reflexivity. Qed.

Example match_repo_dot : Js.match_repo "x.y/z" = Some ("y", "z").
Proof. reflexivity. Qed.

Example parseInt_ex : Js.parseInt "0042" = 42.
Proof. reflexivity. Qed.

Example strip_keyword_ex :
  Js.strip_keyword "share_technique" "Share_Technique:  lock-free queues"
  = "lock-free queues".
Proof. reflexivity. Qed.

Example split_ws_ex :
  Js.split_ws "lock-free  queues in rust "
  = ["lock-free"; "queues"; "in"; "rust"; EmptyString].
Proof. reflexivity. Qed.

Example strip_keyword_keep :
  Js.strip_keyword "share_technique" "please share this" = "please share this".
Proof. reflexivity. Qed.

(* ===================================================================== *)
(** * Properties of the agent state machine *)
(* ===================================================================== *)

Lemma Channel_set_pheromones_id (c : Channel.t) :
  Channel.set_pheromones (Channel.pheromones c) c = c.
Proof. now destruct c. Qed.

(** An agent that is already synchronized stays as it is. *)
Lemma checkSync_synchronized (this : Agent.t) (channel : Channel.t) :
  Agent.synchronized this = true -> checkSync this channel = this.
Proof. intros H. unfold checkSync. now rewrite H. Qed.


Lemma sync_guard_spec (this : Agent.t) (channel : Channel.t) :
  Qle_bool (Channel.criticalThreshold channel) (Channel.density channel)
  && (3 <=? size (Agent.absorbed this))%nat
  && Qltb 0.5 (Agent.energy this) = true
  <-> sync_condition this channel.
Proof.
  unfold sync_condition.
  rewrite !andb_true_iff, Qle_bool_iff, Nat.leb_le, Qltb_lt. tauto.
Qed.

(** C3. An unsynchronized agent becomes synchronized by [checkSync] if
    and only if the channel density is at least the critical threshold,
    the agent has absorbed at least 3 distinct pheromones and its energy
    is above 0.5; when it synchronizes its energy becomes 1, and
    otherwise the agent is unchanged.  With threshold 0.6, density 0.8
    and energy 0.9, an agent that has absorbed 2 pheromones stays
    unsynchronized and one that has absorbed 3 becomes synchronized with
    energy 1. *)
Theorem checkSync_transition (this : Agent.t) (channel : Channel.t) :
  Agent.synchronized this = false ->
  (Agent.synchronized (checkSync this channel) = true
   <-> sync_condition this channel)
  /\ (sync_condition this channel ->
      Agent.energy (checkSync this channel) = 1%Q)
  /\ (~ sync_condition this channel -> checkSync this channel = this)
  /\ ((Channel.criticalThreshold channel == 0.6)%Q ->
      (Channel.density channel == 0.8)%Q ->
      (Agent.energy this == 0.9)%Q ->
      (size (Agent.absorbed this) = 2%nat ->
       Agent.synchronized (checkSync this channel) = false)
      /\ (size (Agent.absorbed this) = 3%nat ->
          Agent.synchronized (checkSync this channel) = true
          /\ Agent.energy (checkSync this channel) = 1%Q)).
Proof.
  intros Hunsync.
  assert (Hyes : sync_condition this channel ->
                 Agent.synchronized (checkSync this channel) = true
                 /\ Agent.energy (checkSync this channel) = 1%Q).
  { intros Hc. apply sync_guard_spec in Hc.
    unfold checkSync. rewrite Hunsync, Hc. now split. }
  assert (Hno : ~ sync_condition this channel -> checkSync this channel = this).
  { intros Hc. unfold checkSync. rewrite Hunsync.
    destruct (_ && _ && _) eqn:E; [|reflexivity].
    apply sync_guard_spec in E. contradiction. }
  assert (Hdec : sync_condition this channel \/ ~ sync_condition this channel).
  { destruct (Qle_bool (Channel.criticalThreshold channel)
                       (Channel.density channel)
              && (3 <=? size (Agent.absorbed this))%nat
              && Qltb 0.5 (Agent.energy this)) eqn:E.
    - left. now apply sync_guard_spec.
    - right. intros Hc. apply sync_guard_spec in Hc. congruence. }
  split; [|split; [|split]].
  - split.
    + intros Hs. destruct Hdec as [Hc|Hc]; [exact Hc|].
      rewrite (Hno Hc) in Hs. congruence.
    + intros Hc. now apply Hyes.
  - intros Hc. now apply Hyes.
  - exact Hno.
  - intros Hthr Hden Hen. split.
    + intros Hsz. rewrite Hno; [exact Hunsync|].
      intros (_ & Habs & _). lia.
    + intros Hsz. apply Hyes. unfold sync_condition.
      rewrite Hsz. split; [lra | split; [lia | lra]].
Qed.

(** ** Inversion of computations *)

Lemma bind_Some {A B} (c : Rand.M A) (k : A -> Rand.M B) rnd n b n2 :
  Rand.bind c k rnd n = Some (b, n2) <->
  exists a n1, c rnd n = Some (a, n1) /\ k a rnd n1 = Some (b, n2).
Proof.
  unfold Rand.bind. split.
  - destruct (c rnd n) as [[a n1]|]; [|discriminate]. eauto.
  - intros (a & n1 & -> & H). exact H.
Qed.

Lemma ret_Some {A} (a b : A) rnd n n' :
  Rand.ret a rnd n = Some (b, n') <-> a = b /\ n = n'.
Proof. unfold Rand.ret. split; [intros [= -> ->]|intros [-> ->]]; auto. Qed.

Lemma random_Some rnd n r n' :
  Rand.random rnd n = Some (r, n') <-> r = rnd n /\ n' = S n.
Proof. unfold Rand.random. split; [intros [= <- <-]|intros [-> ->]]; auto. Qed.

Lemma lift_Some {A} (o : option A) rnd n a n' :
  Rand.lift o rnd n = Some (a, n') <-> o = Some a /\ n = n'.
Proof.
  unfold Rand.lift. destruct o; split; try intros [= -> ->]; auto;
    try intros [[= ->] ->]; auto; intros [? _]; discriminate.
Qed.

(** ** Absorption *)

(** A pheromone the agent emitted, or one it has absorbed, is skipped:
    no draw, no change. *)
Lemma absorb_one_skip (this : Agent.t) (p : Pheromone.t) rnd n :
  Pheromone.agentId p = Agent.id this
  \/ (Pheromone.id p ∈ Agent.absorbed this) ->
  absorb_one this p rnd n = Some (this, p, false, n).
Proof.
  intros H. unfold absorb_one.
  destruct (String.eqb_spec (Pheromone.agentId p) (Agent.id this)) as [|Hne];
    [reflexivity|].
  destruct H as [H|H]; [contradiction|].
  now rewrite (bool_decide_eq_true_2 _ H).
Qed.

(** What one iteration does to the agent and to the pheromone. *)
Lemma absorb_one_cases (this : Agent.t) (p : Pheromone.t) rnd n
    this' p' took n' :
  absorb_one this p rnd n = Some (this', p', took, n') ->
  (this' = this /\ p' = p /\ took = false)
  \/ (took = true
      /\ (Pheromone.id p ∉ Agent.absorbed this)
      /\ (0.2 < Pheromone.strength p)%Q
      /\ Agent.absorbed this' = Agent.absorbed this ∪ {[Pheromone.id p]}
      /\ Agent.energy this' = Math_min 1 (Agent.energy this + 0.05)%Q
      /\ Agent.id this' = Agent.id this
      /\ p' = Pheromone.set_strength
                (Math_min 1 (Pheromone.strength p + 0.1)%Q) p).
Proof.
  unfold absorb_one.
  destruct (String.eqb _ _); [intros [= <- <- <- _]; auto|].
  destruct (bool_decide _) eqn:Habs; [intros [= <- <- <- _]; auto|].
  destruct (Qltb 0.2 _) eqn:Hs; [|intros [= <- <- <- _]; auto].
  unfold Rand.bind, Rand.random.
  destruct (Qltb (rnd n) _); intros [= <- <- <- _]; [right|auto].
  apply bool_decide_eq_false in Habs. apply Qltb_lt in Hs.
  repeat split; assumption.
Qed.

(** An iteration, and a pass, always complete. *)
Lemma absorb_one_total (this : Agent.t) (p : Pheromone.t) rnd n :
  exists this' p' took n',
    absorb_one this p rnd n = Some (this', p', took, n').
Proof.
  unfold absorb_one, Rand.bind, Rand.random, Rand.ret.
  repeat match goal with
         | |- context [if ?b then _ else _] => destruct b
         end; eauto.
Qed.

Lemma absorb_loop_total (ps : list Pheromone.t) :
  forall this rnd n,
  exists this' ps' absorbed n',
    absorb_loop this ps rnd n = Some (this', ps', absorbed, n').
Proof.
  induction ps as [|p ps IH]; simpl; intros this rnd n.
  - unfold Rand.ret. eauto.
  - destruct (absorb_one_total this p rnd n) as (this1 & p1 & took & n1 & H1).
    destruct (IH this1 rnd n1) as (this2 & ps2 & abs2 & n2 & H2).
    unfold Rand.bind. rewrite H1, H2. unfold Rand.ret. eauto.
Qed.

Lemma absorbPheromones_total (this : Agent.t) (channel : Channel.t) rnd n :
  exists this' channel' absorbed n',
    absorbPheromones this channel rnd n
    = Some (this', channel', absorbed, n').
Proof.
  unfold absorbPheromones.
  destruct (absorb_loop_total (Channel.pheromones channel) this rnd n)
    as (this1 & ps1 & abs1 & n1 & H1).
  unfold Rand.bind. rewrite H1. unfold Rand.ret. eauto.
Qed.

(** The absorbed set only grows, and the agent keeps its identity. *)
Lemma absorb_loop_grows (ps : list Pheromone.t) :
  forall this rnd n this' ps' absorbed n',
    absorb_loop this ps rnd n = Some (this', ps', absorbed, n') ->
    Agent.absorbed this ⊆ Agent.absorbed this'
    /\ Agent.id this' = Agent.id this
    /\ length ps' = length ps.
Proof.
  induction ps as [|p ps IH]; simpl; intros this rnd n this' ps' absorbed n' H.
  - apply ret_Some in H as [[= <- <- <-] _]. auto.
  - apply bind_Some in H as ([[this1 p1] took] & n1 & H1 & H).
    apply bind_Some in H as ([[this2 ps2] abs2] & n2 & H2 & H).
    apply ret_Some in H as [[= <- <- <-] _].
    apply IH in H2 as (Hsub & Hid & Hlen).
    apply absorb_one_cases in H1
      as [(-> & -> & ->)|(_ & _ & _ & Ha & _ & Hid1 & _)].
    + simpl. auto.
    + simpl. rewrite Hid, Hid1, Hlen. split; [|auto].
      rewrite Ha in Hsub. intros x Hx. apply Hsub, elem_of_union. now left.
Qed.

(** A pheromone whose id is in the absorbed set at the start of a pass
    sits unchanged at its place in the channel after the pass. *)
Lemma absorb_loop_keeps (ps : list Pheromone.t) :
  forall this rnd n this' ps' absorbed n' i p,
    absorb_loop this ps rnd n = Some (this', ps', absorbed, n') ->
    ps !! i = Some p ->
    Pheromone.id p ∈ Agent.absorbed this ->
    ps' !! i = Some p /\ Pheromone.id p ∈ Agent.absorbed this'.
Proof.
  induction ps as [|q ps IH]; simpl;
    intros this rnd n this' ps' absorbed n' i p H Hi Hin.
  - discriminate.
  - apply bind_Some in H as ([[this1 q1] took] & n1 & H1 & H).
    apply bind_Some in H as ([[this2 ps2] abs2] & n2 & H2 & H).
    apply ret_Some in H as [[= <- <- <-] _].
    assert (Hin1 : Pheromone.id p ∈ Agent.absorbed this1).
    { apply absorb_one_cases in H1
        as [(-> & _)|(_ & _ & _ & Ha & _)]; [exact Hin|].
      rewrite Ha. apply elem_of_union. now left. }
    destruct i as [|i]; simpl in *.
    + injection Hi as ->.
      rewrite absorb_one_skip in H1 by (right; exact Hin).
      injection H1 as <- <- <- <-. split; [reflexivity|].
      apply absorb_loop_grows in H2 as (Hsub & _). now apply Hsub.
    + eapply IH; eauto.
Qed.

(** A pass over pheromones that are all absorbed already, or the agent's
    own, changes nothing and draws nothing. *)
Lemma absorb_loop_fixed (ps : list Pheromone.t) (this : Agent.t) rnd n :
  (forall p, In p ps ->
     Pheromone.agentId p = Agent.id this
     \/ Pheromone.id p ∈ Agent.absorbed this) ->
  absorb_loop this ps rnd n = Some (this, ps, [], n).
Proof.
  induction ps as [|p ps IH]; simpl; intros H; [reflexivity|].
  unfold Rand.bind.
  rewrite absorb_one_skip by (apply H; now left).
  rewrite IH by (intros q Hq; apply H; now right).
  reflexivity.
Qed.

(** C9. Absorption is idempotent per pheromone id.  For an agent whose
    absorbed set contains the id of a pheromone, the iteration of
    [absorbPheromones] over that pheromone leaves the agent (its
    absorbed set and its energy) and the pheromone (its strength) as
    they are; in a pass over a whole channel the pheromone is unchanged
    at its place and its id is still absorbed; and a pass over a channel
    whose pheromones are all absorbed returns the agent and the channel
    unchanged and an empty list. *)
Theorem absorb_idempotent (this : Agent.t) (p : Pheromone.t)
    (rnd : nat -> Q) (n : nat) :
  Pheromone.id p ∈ Agent.absorbed this ->
  absorb_one this p rnd n = Some (this, p, false, n)
  /\ (forall channel i,
        Channel.pheromones channel !! i = Some p ->
        exists this' channel' absorbed n',
          absorbPheromones this channel rnd n
          = Some (this', channel', absorbed, n')
          /\ Channel.pheromones channel' !! i = Some p
          /\ Pheromone.id p ∈ Agent.absorbed this')
  /\ (forall channel,
        (forall q, In q (Channel.pheromones channel) ->
                   Pheromone.id q ∈ Agent.absorbed this) ->
        absorbPheromones this channel rnd n = Some (this, channel, [], n)).
Proof.
  intros Hin. split; [|split].
  - apply absorb_one_skip. now right.
  - intros channel i Hi.
    destruct (absorbPheromones_total this channel rnd n)
      as (this' & channel' & absorbed & n' & H).
    exists this', channel', absorbed, n'. split; [exact H|].
    unfold absorbPheromones in H.
    apply bind_Some in H as ([[this1 ps1] abs1] & n1 & H1 & H).
    apply ret_Some in H as [[= <- <- <-] _].
    simpl. eapply absorb_loop_keeps; eauto.
  - intros channel Hall. unfold absorbPheromones, Rand.bind.
    rewrite absorb_loop_fixed by (intros q Hq; right; now apply Hall).
    unfold Rand.ret. now rewrite Channel_set_pheromones_id.
Qed.

(* ===================================================================== *)
(** * Properties of the decision engine *)
(* ===================================================================== *)

(** ** Sorting *)

Lemma insert_by_priority_perm (d : Decision.t) (l : list Decision.t) :
  Permutation (insert_by_priority d l) (d :: l).
Proof.
  induction l as [|e l IH]; simpl; [reflexivity|].
  destruct (Qle_bool _ _); [reflexivity|].
  rewrite IH. apply perm_swap.
Qed.

Lemma sort_by_priority_perm (l : list Decision.t) :
  Permutation (sort_by_priority l) l.
Proof.
  induction l as [|d l IH]; simpl; [reflexivity|].
  rewrite insert_by_priority_perm. now rewrite IH.
Qed.

Lemma sort_by_priority_In (d : Decision.t) (l : list Decision.t) :
  In d (sort_by_priority l) <-> In d l.
Proof.
  split; apply Permutation_in;
    [|symmetry]; apply sort_by_priority_perm.
Qed.

Lemma insert_by_priority_sorted (d : Decision.t) (l : list Decision.t) :
  by_priority l -> by_priority (insert_by_priority d l).
Proof.
  unfold by_priority. induction 1 as [|e l Hl IH He]; simpl.
  - repeat constructor.
  - destruct (Qle_bool (Decision.priority e) (Decision.priority d)) eqn:E.
    + apply Qle_bool_iff in E. constructor; [now constructor|].
      constructor; [exact E|].
      eapply List.Forall_impl; [|exact He]. intros c Hc. simpl in Hc.
      now apply Qle_trans with (Decision.priority e).
    + constructor; [exact IH|].
      apply (Permutation_Forall (x := d :: l));
        [symmetry; apply insert_by_priority_perm|].
      constructor; [|exact He].
      apply Qlt_le_weak, Qltb_lt. unfold Qltb. now rewrite E.
Qed.

Lemma sort_by_priority_sorted (l : list Decision.t) :
  by_priority (sort_by_priority l).
Proof.
  induction l as [|d l IH]; simpl; [constructor|].
  now apply insert_by_priority_sorted.
Qed.

(** ** What the pool is made of *)

Lemma fold_left_inv {A B} (P : A -> Prop) (f : A -> B -> A) (l : list B) :
  forall a, P a -> (forall a x, In x l -> P a -> P (f a x)) ->
            P (fold_left f l a).
Proof.
  induction l as [|x l IH]; simpl; intros a Ha Hf; [exact Ha|].
  apply IH; [apply Hf; auto|]. intros a' y Hy. apply Hf. now right.
Qed.

Section Sources.

Variable uuid : nat -> string.
Variable now : Z.
Variable state : Agent.t.
Variable channel : Channel.t.
Variable repos : list Repo.t.
Variable issues : list Issue.t.
Variable thoughts : list Thought.t.
Variable budgetRemaining : Z.

Lemma push_candidate_ok (candidates : list Decision.t)
    (action : AgentAction) :
  Forall (pushed state repos issues thoughts budgetRemaining) candidates ->
  origin state repos issues thoughts action ->
  Cost.estimatedTokens (estimateCost action) <= budgetRemaining ->
  Forall (pushed state repos issues thoughts budgetRemaining)
         (push_candidate uuid now state candidates action
                         (estimateCost action)).
Proof using Type.
  intros Hc Ho Hb. unfold push_candidate.
  apply Forall_app. split; [exact Hc|].
  constructor; [|constructor]. unfold pushed. simpl. auto 10.
Qed.

Lemma fromThoughts_ok (candidates : list Decision.t) :
  Forall (pushed state repos issues thoughts budgetRemaining) candidates ->
  Forall (pushed state repos issues thoughts budgetRemaining)
         (fromThoughts uuid now state repos issues thoughts
                       budgetRemaining candidates).
Proof using Type.
  intros Hc. unfold fromThoughts.
  apply fold_left_inv; [exact Hc|]. intros acc thought Hth Hacc.
  apply fold_left_inv; [exact Hacc|]. intros acc' suggestion Hs Hacc'.
  destruct (parseSuggestedAction suggestion repos issues) as [action|] eqn:E;
    [|exact Hacc'].
  cbv beta zeta.
  destruct (Z.gtb_spec (Cost.estimatedTokens (estimateCost action))
                       budgetRemaining); [exact Hacc'|].
  apply push_candidate_ok; [exact Hacc'| |lia].
  left. eauto.
Qed.

Lemma fromRepos_ok (candidates : list Decision.t) :
  Forall (pushed state repos issues thoughts budgetRemaining) candidates ->
  Forall (pushed state repos issues thoughts budgetRemaining)
         (fromRepos uuid now state repos budgetRemaining candidates).
Proof using Type.
  intros Hc. unfold fromRepos.
  apply fold_left_inv; [exact Hc|]. intros acc repo Hr Hacc.
  cbv beta. destruct (existsb _ _); [exact Hacc|]. cbv zeta.
  match goal with |- context [?a >? ?b] => destruct (Z.gtb_spec a b) end;
    [exact Hacc|].
  apply (push_candidate_ok acc (StudyRepo _ _ None)); [exact Hacc| |lia].
  right; left. eauto.
Qed.

Lemma fromPheromones_ok (candidates : list Decision.t) :
  Forall (pushed state repos issues thoughts budgetRemaining) candidates ->
  Forall (pushed state repos issues thoughts budgetRemaining)
         (fromPheromones uuid now state channel budgetRemaining
                         candidates).
Proof using Type.
  intros Hc. unfold fromPheromones.
  destruct (_ && _); [|exact Hc]. cbv zeta.
  match goal with |- context [?a <=? ?b] => destruct (Z.leb_spec a b) end;
    [|exact Hc].
  apply (push_candidate_ok candidates (ShareTechnique _ None));
    [exact Hc| |lia].
  right; right; left. reflexivity.
Qed.

Lemma fallbackExplore_ok (candidates : list Decision.t) :
  Forall (pushed state repos issues thoughts budgetRemaining) candidates ->
  Forall (pushed state repos issues thoughts budgetRemaining)
         (fallbackExplore uuid now state budgetRemaining candidates).
Proof using Type.
  intros Hc. unfold fallbackExplore. cbv zeta.
  match goal with |- context [?a <=? ?b] => destruct (Z.leb_spec a b) end;
    [|exact Hc].
  apply (push_candidate_ok candidates (ExploreTopic _));
    [exact Hc| |lia].
  right; right; right. reflexivity.
Qed.

End Sources.

Lemma collectCandidates_ok uuid now state channel repos issues thoughts :
  Forall (pushed state repos issues thoughts
                 (Agent.tokenBudget state - Agent.tokensUsed state))
         (collectCandidates uuid now state channel repos issues thoughts).
Proof.
  unfold collectCandidates.
  apply fallbackExplore_ok, fromPheromones_ok, fromRepos_ok, fromThoughts_ok.
  constructor.
Qed.

(** Every decision of the pool is a pushed candidate with its score. *)
Lemma generate_inv uuid now state channel repos issues thoughts d :
  In d (generateCandidateDecisions uuid now state channel repos issues thoughts)
  <-> exists c,
      In c (collectCandidates uuid now state channel repos issues thoughts)
      /\ d = scoreCandidate state channel c.
Proof.
  unfold generateCandidateDecisions.
  rewrite sort_by_priority_In, in_map_iff.
  split; intros (c & H1 & H2); exists c; auto.
Qed.

Lemma generate_pushed uuid now state channel repos issues thoughts d :
  In d (generateCandidateDecisions uuid now state channel repos issues thoughts)
  ->
  origin state repos issues thoughts (Decision.action d)
  /\ Decision.cost d = estimateCost (Decision.action d)
  /\ Cost.estimatedTokens (Decision.cost d)
     <= Agent.tokenBudget state - Agent.tokensUsed state
  /\ Decision.priority d = scoreDecision d state channel
  /\ Decision.status d = pending
  /\ Decision.agentId d = Agent.id state.
Proof.
  intros (c & Hc & ->)%generate_inv.
  pose proof (collectCandidates_ok uuid now state channel repos issues thoughts)
    as Hall.
  rewrite List.Forall_forall in Hall.
  destruct (Hall c Hc) as (Ho & Hcost & Hb & _ & Hst & Hid).
  unfold scoreCandidate. simpl. auto 10.
Qed.

(** ** The budget filter *)

Lemma pushed_within_budget state repos issues thoughts budgetRemaining l :
  Forall (pushed state repos issues thoughts budgetRemaining) l ->
  Forall (within_budget budgetRemaining) l.
Proof.
  apply List.Forall_impl. intros d (_ & _ & H & _). exact H.
Qed.

(** C7. Every decision of the pool that [generateCandidateDecisions]
    returns has estimated tokens at most the remaining budget
    [tokenBudget - tokensUsed] of the agent, and so have the candidates
    each of the four sources contributes. *)
Theorem candidates_within_budget
    uuid now state channel repos issues thoughts :
  let budgetRemaining := Agent.tokenBudget state - Agent.tokensUsed state in
  Forall (within_budget budgetRemaining)
         (generateCandidateDecisions uuid now state channel repos issues
                                     thoughts)
  /\ Forall (within_budget budgetRemaining)
            (fromThoughts uuid now state repos issues thoughts
                          budgetRemaining [])
  /\ Forall (within_budget budgetRemaining)
            (fromRepos uuid now state repos budgetRemaining [])
  /\ Forall (within_budget budgetRemaining)
            (fromPheromones uuid now state channel budgetRemaining [])
  /\ Forall (within_budget budgetRemaining)
            (fallbackExplore uuid now state budgetRemaining []).
Proof.
  intros budgetRemaining. split; [|repeat split].
  - apply List.Forall_forall. intros d Hd.
    apply generate_pushed in Hd as (_ & _ & H & _). exact H.
  - eapply pushed_within_budget, fromThoughts_ok. constructor.
  - eapply pushed_within_budget,
      (fromRepos_ok uuid now state repos issues thoughts). constructor.
  - eapply pushed_within_budget,
      (fromPheromones_ok uuid now state channel repos issues thoughts).
    constructor.
  - eapply pushed_within_budget,
      (fallbackExplore_ok uuid now state repos issues thoughts). constructor.
Qed.

(** ** The kinds of action in the pool *)

(** [parseSuggestedAction] yields no [contribute_pr] and no
    [write_code]. *)
Lemma parseSuggestedAction_types suggestion repos issues action :
  parseSuggestedAction suggestion repos issues = Some action ->
  In (action_type action)
     [fix_issue; study_repo; share_technique; explore_topic; refactor;
      document].
Proof.
  unfold parseSuggestedAction.
  repeat match goal with
         | |- context [if ?b then _ else _] => destruct b
         | |- context [match ?x with _ => _ end] => destruct x
         end;
    intros [= <-]; simpl; tauto.
Qed.

(** It yields [fix_issue] only in its first branch. *)
Lemma parseSuggestedAction_fix_issue suggestion repos issues action :
  parseSuggestedAction suggestion repos issues = Some action ->
  action_type action = fix_issue ->
  Js.startsWith (Js.toLowerCase suggestion) "fix_issue"
  || Js.includes (Js.toLowerCase suggestion) "fix issue" = true.
Proof.
  unfold parseSuggestedAction.
  destruct (_ || _); [reflexivity|].
  repeat match goal with
         | |- context [if ?b then _ else _] => destruct b
         | |- context [match ?x with _ => _ end] => destruct x
         end;
    intros [= <-]; simpl; discriminate.
Qed.

Lemma origin_types state repos issues thoughts action :
  origin state repos issues thoughts action ->
  In (action_type action)
     [fix_issue; study_repo; share_technique; explore_topic; refactor;
      document].
Proof.
  intros [(th & s & _ & _ & H)|[(r & _ & ->)|[->| ->]]]; simpl; try tauto.
  exact (parseSuggestedAction_types _ _ _ _ H).
Qed.

(** No decision of the pool is a [contribute_pr] or a [write_code]. *)
Lemma pool_types uuid now state channel repos issues thoughts :
  Forall (fun d => In (Decision.type d)
                      [fix_issue; study_repo; share_technique; explore_topic;
                       refactor; document])
         (generateCandidateDecisions uuid now state channel repos issues
                                     thoughts).
Proof.
  apply List.Forall_forall. intros d Hd.
  apply generate_pushed in Hd as (Ho & _).
  exact (origin_types _ _ _ _ _ Ho).
Qed.

(** A suggestion that mentions a contribution is redirected to
    [study_repo]. *)
Example redirect_contribute :
  parseSuggestedAction "contribute a patch to octo/widget" [ex_repo] [ex_issue]
  = Some (StudyRepo "octo" "widget" None).
Proof. reflexivity. Qed.

(** A suggestion that contains [fix_issue] after its start is redirected
    too. *)
Example redirect_fix_issue_inside :
  parseSuggestedAction "please fix_issue #7" [ex_repo] [ex_issue]
  = Some (StudyRepo "octo" "widget" None).
Proof. reflexivity. Qed.

(** C1, at the failing input.  With one known issue and the suggestion
    [fix_issue:#7], the first branch of [parseSuggestedAction] answers
    before the redirection is reached, and the pool holds a [fix_issue]
    decision. *)
Theorem fix_issue_is_offered :
  map Decision.action
      (generateCandidateDecisions ex_uuid 0 (ex_agent 0) ex_channel []
                                  [ex_issue] [ex_thought ["fix_issue:#7"]])
  = [ExploreTopic "Explorer"; FixIssue "octo" "widget" 7].
Proof. vm_compute. reflexivity. Qed.

(** ** The fallback candidate *)

Lemma estimateCost_tokens (action : AgentAction) :
  Cost.estimatedTokens (estimateCost action)
  = TOKEN_ESTIMATES (action_type action).
Proof. now destruct action. Qed.

(** No action is estimated below 800 tokens, the estimate of
    [explore_topic]. *)
Lemma estimateCost_at_least_800 (action : AgentAction) :
  800 <= Cost.estimatedTokens (estimateCost action).
Proof. destruct action; vm_compute; discriminate. Qed.

Lemma fallbackExplore_In uuid now state budgetRemaining candidates :
  800 <= budgetRemaining ->
  exists c,
    In c (fallbackExplore uuid now state budgetRemaining candidates)
    /\ Decision.action c = ExploreTopic (Agent.specialization state).
Proof.
  intros Hb. unfold fallbackExplore. cbv zeta.
  match goal with |- context [?a <=? ?b] => destruct (Z.leb_spec a b) end;
    [|rewrite estimateCost_tokens in *; simpl in *; lia].
  eexists. split; [apply in_or_app; right; left; reflexivity|reflexivity].
Qed.

(** C2 as stated fails: with a budget of 50000 tokens of which 49500 are
    used, the remaining budget is positive, and the pool is empty. *)
Lemma positive_budget_empty_pool :
  0 < Agent.tokenBudget (ex_agent 49500) - Agent.tokensUsed (ex_agent 49500)
  /\ generateCandidateDecisions ex_uuid 0 (ex_agent 49500) ex_channel
       [ex_repo] [ex_issue] [ex_thought ["explore_topic: consensus"]]
     = [].
Proof. split; [reflexivity|vm_compute; reflexivity]. Qed.

(** C2, amended.  Whenever the remaining budget is at least 800 tokens,
    the estimate of [explore_topic], the pool holds an [explore_topic]
    candidate on the specialization of the agent, and so is not empty;
    whenever the remaining budget is below 800, the pool is empty.  In
    particular, for [tokenBudget = 50000] and [tokensUsed = 49500]
    neither [explore_topic] (800) nor [study_repo] (3000) survives. *)
Theorem fallback_explore_topic uuid now state channel repos issues thoughts :
  let budgetRemaining := Agent.tokenBudget state - Agent.tokensUsed state in
  let pool :=
    generateCandidateDecisions uuid now state channel repos issues thoughts in
  (800 <= budgetRemaining ->
   pool <> []
   /\ exists d, In d pool
                /\ Decision.action d = ExploreTopic (Agent.specialization state)
                /\ Decision.cost d = Cost.mk 800 5000 low
                /\ Decision.status d = pending)
  /\ (budgetRemaining < 800 -> pool = [])
  /\ (Agent.tokenBudget state = 50000 -> Agent.tokensUsed state = 49500 ->
      pool = []).
Proof.
  intros budgetRemaining pool.
  assert (Hlow : budgetRemaining < 800 -> pool = []).
  { intros Hb. destruct pool as [|d l] eqn:E; [reflexivity|]. exfalso.
    assert (Hd : In d pool) by (rewrite E; now left).
    apply generate_pushed in Hd as (_ & Hc & Hle & _).
    pose proof (estimateCost_at_least_800 (Decision.action d)) as Hmin.
    rewrite <- Hc in Hmin. unfold budgetRemaining in Hb. lia. }
  split; [|split].
  - intros Hb.
    assert (Hex : exists d, In d pool
                /\ Decision.action d = ExploreTopic (Agent.specialization state)
                /\ Decision.cost d = Cost.mk 800 5000 low
                /\ Decision.status d = pending).
    { destruct (fallbackExplore_In uuid now state budgetRemaining
                  (fromPheromones uuid now state channel budgetRemaining
                     (fromRepos uuid now state repos budgetRemaining
                        (fromThoughts uuid now state repos issues thoughts
                           budgetRemaining [])))) as (c & Hc & Ha);
        [exact Hb|].
      exists (scoreCandidate state channel c).
      split; [apply generate_inv; exists c; split; [exact Hc|reflexivity]|].
      pose proof (collectCandidates_ok uuid now state channel repos issues
                    thoughts) as Hall.
      rewrite List.Forall_forall in Hall.
      destruct (Hall c Hc) as (_ & Hcost & _ & _ & Hst & _).
      simpl. rewrite Hcost, Ha. auto. }
    split; [|exact Hex].
    destruct Hex as (d & Hd & _). intros E. rewrite E in Hd. destruct Hd.
  - exact Hlow.
  - intros Hbud Hused. apply Hlow. unfold budgetRemaining. lia.
Qed.

Lemma fallback_explore_topic_witness :
  (exists d,
      In d (generateCandidateDecisions ex_uuid 0 (ex_agent 49000) ex_channel
              [ex_repo] [ex_issue] [])
      /\ Decision.action d = ExploreTopic "Explorer")
  /\ generateCandidateDecisions ex_uuid 0 (ex_agent 49500) ex_channel
       [ex_repo] [ex_issue] [] = [].
Proof.
  split.
  - destruct (fallback_explore_topic ex_uuid 0 (ex_agent 49000) ex_channel
                [ex_repo] [ex_issue] []) as (H & _ & _).
    destruct H as (_ & d & Hd & Ha & _); [simpl; lia|].
    exists d. split; [exact Hd|exact Ha].
  - destruct (fallback_explore_topic ex_uuid 0 (ex_agent 49500) ex_channel
                [ex_repo] [ex_issue] []) as (_ & H & H').
    apply H'; reflexivity.
Defined.

(** ** Selection *)

(** [selectDecision] returns one of the candidates. *)
Lemma draw_weighted_In roll candidates weights c :
  draw_weighted roll candidates weights = Some c -> In c candidates.
Proof.
  revert roll weights.
  induction candidates as [|d ds IH]; intros roll [|w ws]; simpl;
    try discriminate.
  destruct (Qle_bool _ _); [intros [= ->]; now left|].
  intros H. right. eapply IH, H.
Qed.

Lemma selectDecision_In exp random candidates temperature d :
  selectDecision exp random candidates temperature = Some d ->
  In d candidates.
Proof.
  unfold selectDecision. destruct candidates as [|first rest]; [discriminate|].
  destruct (Qeq_bool temperature 0); [intros [= ->]; now left|].
  destruct (draw_weighted _ _ _) as [c|] eqn:E; intros [= <-].
  - eapply draw_weighted_In, E.
  - now left.
Qed.

(** C5 as stated fails: on a list that is not sorted, [selectDecision]
    with temperature 0 returns the first candidate although a later one
    has a greater priority. *)
Lemma greedy_is_first_not_argmax :
  selectDecision (fun _ => 1%Q) 0%Q
                 [ex_decision "a" 0.1%Q; ex_decision "b" 0.9%Q] 0%Q
  = Some (ex_decision "a" 0.1%Q)
  /\ In (ex_decision "b" 0.9%Q) [ex_decision "a" 0.1%Q; ex_decision "b" 0.9%Q]
  /\ (Decision.priority (ex_decision "a" 0.1%Q)
      < Decision.priority (ex_decision "b" 0.9%Q))%Q.
Proof.
  split; [reflexivity|]. split; [right; now left|reflexivity].
Qed.

(** C5, amended.  For every non-empty candidate list, [selectDecision]
    with temperature 0 returns the first candidate; when the list is in
    non-increasing order of priority, as the pool that
    [generateCandidateDecisions] returns is, the priority of that
    candidate is maximal over the list, and it is the first occurrence
    of the maximal priority. *)
Theorem selectDecision_greedy exp random (candidates : list Decision.t) :
  candidates <> [] ->
  exists first rest,
    candidates = first :: rest
    /\ selectDecision exp random candidates 0%Q = Some first
    /\ (by_priority candidates ->
        forall c, In c candidates ->
                  (Decision.priority c <= Decision.priority first)%Q)
    /\ (forall uuid now state channel repos issues thoughts,
          by_priority (generateCandidateDecisions uuid now state channel
                                                  repos issues thoughts)).
Proof.
  intros Hne. destruct candidates as [|first rest]; [contradiction|].
  exists first, rest. split; [reflexivity|]. split; [reflexivity|]. split.
  - intros Hs c [<-|Hc]; [apply Qle_refl|].
    inversion Hs as [|? ? _ Hall]; subst.
    rewrite List.Forall_forall in Hall. now apply Hall.
  - intros. apply sort_by_priority_sorted.
Qed.

Lemma selectDecision_greedy_witness :
  selectDecision (fun _ => 1%Q) 0%Q
                 [ex_decision "b" 0.9%Q; ex_decision "a" 0.1%Q] 0%Q
  = Some (ex_decision "b" 0.9%Q)
  /\ (Decision.priority (ex_decision "a" 0.1%Q)
      <= Decision.priority (ex_decision "b" 0.9%Q))%Q.
Proof.
  destruct (selectDecision_greedy (fun _ => 1%Q) 0%Q
              [ex_decision "b" 0.9%Q; ex_decision "a" 0.1%Q])
    as (first & rest & Hl & Hsel & Hmax & _); [discriminate|].
  injection Hl as <- <-.
  split; [exact Hsel|].
  apply Hmax; [|right; now left].
  repeat constructor. vm_compute. discriminate.
Defined.

(** ** Switching *)

(** C6 as stated fails: with no current decision, and with the budget
    exhausted, a successful last result and a draw of 0.5 make
    [shouldSwitch] return false. *)
Lemma shouldSwitch_result_first :
  Agent.currentDecision (ex_agent 50000) = None
  /\ Agent.tokensUsed (ex_agent 50000) >= Agent.tokenBudget (ex_agent 50000)
  /\ shouldSwitch 0.5%Q (ex_agent 50000)
                  (Some (Result.mk true "done" [] 100))
     = false.
Proof. split; [reflexivity|]. split; [discriminate|reflexivity]. Qed.

(** C6, amended.  When there is a last result, [shouldSwitch] returns
    true exactly when the draw is below 0.3 after a success and below
    0.7 after a failure, whatever the current decision and the budget;
    when there is no last result, it returns true if the agent has no
    current decision or its budget is exhausted
    ([tokensUsed >= tokenBudget]), and false otherwise. *)
Theorem shouldSwitch_cases (random : Q) (state : Agent.t)
    (lastResult : option Result.t) :
  (forall r, lastResult = Some r -> Result.success r = true ->
             (shouldSwitch random state lastResult = true
              <-> (random < 0.3)%Q))
  /\ (forall r, lastResult = Some r -> Result.success r = false ->
                (shouldSwitch random state lastResult = true
                 <-> (random < 0.7)%Q))
  /\ (lastResult = None ->
      (shouldSwitch random state lastResult = true
       <-> Agent.currentDecision state = None
           \/ Agent.tokensUsed state >= Agent.tokenBudget state)).
Proof.
  split; [|split].
  - intros r -> Hs. unfold shouldSwitch. rewrite Hs. apply Qltb_lt.
  - intros r -> Hs. unfold shouldSwitch. rewrite Hs. simpl. apply Qltb_lt.
  - intros ->. unfold shouldSwitch.
    destruct (Agent.currentDecision state) as [d|].
    + destruct (Z.geb_spec (Agent.tokensUsed state) (Agent.tokenBudget state)).
      * split; [intros _; right; lia|reflexivity].
      * split; [discriminate|intros [H'|H']; [discriminate|lia]].
    + split; [now left|reflexivity].
Qed.

Lemma shouldSwitch_cases_witness :
  (shouldSwitch 0.2%Q (ex_agent 0) (Some (Result.mk true "done" [] 100)) = true
   <-> (0.2 < 0.3)%Q)
  /\ (shouldSwitch 0.5%Q (ex_agent 0) (Some (Result.mk false "failed" [] 100))
      = true <-> (0.5 < 0.7)%Q)
  /\ (shouldSwitch 0.9%Q (ex_agent 0) None = true
      <-> Agent.currentDecision (ex_agent 0) = None
          \/ Agent.tokensUsed (ex_agent 0) >= Agent.tokenBudget (ex_agent 0)).
Proof.
  split; [|split].
  - destruct (shouldSwitch_cases 0.2%Q (ex_agent 0)
                (Some (Result.mk true "done" [] 100))) as (H & _).
    apply (H (Result.mk true "done" [] 100)); reflexivity.
  - destruct (shouldSwitch_cases 0.5%Q (ex_agent 0)
                (Some (Result.mk false "failed" [] 100))) as (_ & H & _).
    apply (H (Result.mk false "failed" [] 100)); reflexivity.
  - destruct (shouldSwitch_cases 0.9%Q (ex_agent 0) None) as (_ & _ & H).
    apply H; reflexivity.
Defined.

(** ** Scoring *)

Lemma or_elseQ_priorities (type : ActionType) :
  or_elseQ (ACTION_PRIORITIES type) 0.5 = ACTION_PRIORITIES type.
Proof. now destruct type. Qed.

Lemma personalFit_spec (type : ActionType) (p : Personality.t) :
  ((if ActionType_eqb type study_repo || ActionType_eqb type explore_topic
    then Personality.curiosity p * 0.10
    else if ActionType_eqb type fix_issue || ActionType_eqb type contribute_pr
    then Personality.boldness p * 0.10
    else if ActionType_eqb type share_technique
    then Personality.sociability p * 0.10
    else if ActionType_eqb type refactor || ActionType_eqb type document
    then Personality.diligence p * 0.10
    else 0) == spec_relevant_trait type p * 0.10)%Q.
Proof. destruct type; simpl; ring. Qed.

(** The value of [scoreDecision], term by term. *)
Lemma scoreDecision_spec_score d state channel :
  (scoreDecision d state channel
   == spec_score (Decision.type d)
                 (Cost.riskLevel (Decision.cost d))
                 (Cost.estimatedTokens (Decision.cost d))
                 (Agent.tokenBudget state) (Agent.tokensUsed state)
                 (map Decision.type (slice_last 10 (Agent.decisions state)))
                 (Channel.phaseTransitionOccurred channel)
                 (Agent.personality state))%Q.
Proof.
  unfold scoreDecision, spec_score, Decision.type.
  cbv zeta. rewrite or_elseQ_priorities, personalFit_spec.
  set (type := action_type (Decision.action d)).
  assert (Hph : negb (ActionType_eqb type explore_topic)
                = bool_decide (type <> explore_topic)).
  { destruct type; reflexivity. }
  rewrite Hph.
  destruct (Channel.phaseTransitionOccurred channel && _);
    repeat match goal with
           | |- context [@bool_decide ?P ?D] =>
               destruct (@bool_decide_reflect P D)
           end;
    try ring; exfalso;
    match goal with
    | H : _ ∈ list_to_set _ |- _ =>
        apply elem_of_list_to_set in H; contradiction
    | H : ~ (_ ∈ list_to_set _) |- _ =>
        apply H, elem_of_list_to_set; assumption
    end.
Qed.

(** C4. [scoreDecision] draws nothing and reads, of its arguments, only
    the kind and the cost of the action, the token budget and the tokens
    used, the kinds of the last 10 decisions, the phase transition and
    the personality: two calls that agree on these return the same
    number, and so do two calls on identical arguments.  Where its two
    quotients are defined, that is, for a positive token budget and a
    positive remaining budget, its value is the weighted sum of six
    signals: the base priority of the action kind times 0.20, plus the
    cost efficiency [max(0, 1 - estimatedTokens / remainingBudget)]
    times 0.25, plus 0.15 exactly when the kind is not among the last 10
    decisions of the agent, minus the risk multiplier (0, 0.1 or 0.2 by
    risk level) times [1 - remainingBudget / tokenBudget] times 0.20,
    plus 0.10 exactly when the phase transition occurred and the kind is
    not [explore_topic], plus the relevant personality trait times
    0.10. *)
Theorem scoreDecision_weighted_sum (d : Decision.t) (state : Agent.t)
    (channel : Channel.t) :
  0 < Agent.tokenBudget state ->
  0 < Agent.tokenBudget state - Agent.tokensUsed state ->
  (scoreDecision d state channel
   == spec_score (Decision.type d)
                 (Cost.riskLevel (Decision.cost d))
                 (Cost.estimatedTokens (Decision.cost d))
                 (Agent.tokenBudget state) (Agent.tokensUsed state)
                 (map Decision.type (slice_last 10 (Agent.decisions state)))
                 (Channel.phaseTransitionOccurred channel)
                 (Agent.personality state))%Q
  /\ (forall d' state' channel',
        Decision.type d' = Decision.type d ->
        Decision.cost d' = Decision.cost d ->
        Agent.tokenBudget state' = Agent.tokenBudget state ->
        Agent.tokensUsed state' = Agent.tokensUsed state ->
        map Decision.type (slice_last 10 (Agent.decisions state'))
        = map Decision.type (slice_last 10 (Agent.decisions state)) ->
        Agent.personality state' = Agent.personality state ->
        Channel.phaseTransitionOccurred channel'
        = Channel.phaseTransitionOccurred channel ->
        scoreDecision d' state' channel' = scoreDecision d state channel)
  /\ (forall r, riskMultiplier r = match r with
                                   | low => 0%Q
                                   | medium => 0.1%Q
                                   | high => 0.2%Q
                                   end).
Proof.
  intros _ _. split; [|split].
  - apply scoreDecision_spec_score.
  - intros d' state' channel' Ht Hc Hb Hu Hr Hp Hph.
    unfold scoreDecision. cbv zeta.
    change (action_type (Decision.action d')) with (Decision.type d').
    change (action_type (Decision.action d)) with (Decision.type d).
    rewrite Ht, Hc, Hb, Hu, Hr, Hp, Hph. reflexivity.
  - intros []; reflexivity.
Qed.

Lemma scoreDecision_weighted_sum_witness :
  (scoreDecision (ex_decision "a" 0%Q) (ex_agent 0) ex_channel == 0.636)%Q
  /\ scoreDecision (ex_decision "b" 0.7%Q) (ex_agent 0) ex_channel
     = scoreDecision (ex_decision "a" 0%Q) (ex_agent 0) ex_channel.
Proof.
  destruct (scoreDecision_weighted_sum (ex_decision "a" 0%Q) (ex_agent 0)
              ex_channel) as (Hsum & Hsame & _);
    [reflexivity|reflexivity|].
  split.
  - rewrite Hsum. vm_compute. reflexivity.
  - apply Hsame; reflexivity.
Defined.

(** ** Collaboration *)

Lemma groupByRepo_snoc (agents : list Agent.t) (a : Agent.t) :
  groupByRepo (agents ++ [a]) = groupStep (groupByRepo agents) a.
Proof. unfold groupByRepo. now rewrite fold_left_app. Qed.

Lemma repoKey_nonempty (action : AgentAction) (k : string) :
  repoKey action = Some k -> Js.nonempty k = true.
Proof.
  destruct action as [o ? ?|o ? ?| |o ? ?|o ? ?| |o ? ?|]; simpl;
    try discriminate; intros [= <-]; now destruct o.
Qed.

Lemma map_get_In (k : string) (m : RepoAgents) (v : list string) :
  map_get k m = Some v -> In (k, v) m.
Proof.
  induction m as [|[k' v'] m IH]; simpl; [discriminate|].
  destruct (String.eqb_spec k' k) as [->|Hne].
  - intros [= ->]. now left.
  - intros H. right. now apply IH.
Qed.

Lemma map_get_None (k : string) (m : RepoAgents) :
  map_get k m = None -> ~ In k (map fst m).
Proof.
  induction m as [|[k' v'] m IH]; simpl; [tauto|].
  destruct (String.eqb_spec k' k) as [->|Hne]; [discriminate|].
  intros H [Hk|Hk]; [contradiction|]. now apply IH.
Qed.

Lemma map_set_keys (k : string) (v : list string) (m : RepoAgents) :
  map fst (map_set k v m)
  = if existsb (String.eqb k) (map fst m) then map fst m
    else map fst m ++ [k].
Proof.
  induction m as [|[k' v'] m IH]; simpl; [reflexivity|].
  rewrite (String.eqb_sym k k').
  destruct (String.eqb_spec k' k) as [->|Hne]; simpl; [reflexivity|].
  rewrite IH. now destruct (existsb _ _).
Qed.

Lemma map_set_In (k : string) (v : list string) (m : RepoAgents) k' v' :
  NoDup (map fst m) ->
  In (k', v') (map_set k v m)
  <-> (k' = k /\ v' = v) \/ (k' <> k /\ In (k', v') m).
Proof.
  induction m as [|[k0 v0] m IH]; simpl; intros Hnd.
  - split; [intros [[= <- <-]|[]]; auto|intros [[-> ->]|[_ []]]; auto].
  - inversion Hnd as [|? ? Hnotin Hnd']; subst.
    destruct (String.eqb_spec k0 k) as [->|Hne]; simpl.
    + split.
      * intros [[= <- <-]|H]; [auto|].
        right. split; [|auto]. intros ->. apply Hnotin.
        apply list_elem_of_In. now apply (in_map fst) in H.
      * intros [[-> ->]|[Hk [[= <- _]|H]]]; auto; contradiction.
    + rewrite (IH Hnd'). split.
      * intros [[= <- <-]|[H|H]]; auto. right. tauto.
      * intros [H|[Hk [H|H]]]; auto.
Qed.

Lemma ids_on_snoc (r : string) (agents : list Agent.t) (a : Agent.t) :
  ids_on r (agents ++ [a])
  = ids_on r agents ++ (if acts_on r a then [Agent.id a] else []).
Proof.
  unfold ids_on. rewrite List.filter_app, List.map_app. simpl.
  now destruct (acts_on r a).
Qed.

Lemma groupStep_grouped (agents : list Agent.t) (m : RepoAgents)
    (a : Agent.t) :
  grouped agents m -> grouped (agents ++ [a]) (groupStep m a).
Proof.
  intros (Hnd & Hval & Hkeys).
  assert (Hsame : (forall k, acts_on k a = false) ->
                  grouped (agents ++ [a]) m).
  { intros Hno. split; [exact Hnd|]. split.
    - intros k v Hin. rewrite ids_on_snoc, Hno, app_nil_r. now apply Hval.
    - intros k. rewrite ids_on_snoc, Hno, app_nil_r. apply Hkeys. }
  unfold groupStep.
  destruct (Agent.currentDecision a) as [d|] eqn:Hd;
    [|apply Hsame; intros k; unfold acts_on; now rewrite Hd].
  destruct (repoKey (Decision.action d)) as [key|] eqn:Hk;
    [|apply Hsame; intros k; unfold acts_on; now rewrite Hd, Hk].
  rewrite (repoKey_nonempty _ _ Hk). cbv zeta.
  assert (Hact : forall k, acts_on k a = String.eqb key k).
  { intros k. unfold acts_on. now rewrite Hd, Hk. }
  assert (Hexisting : match map_get key m with Some e => e | None => [] end
                      = ids_on key agents).
  { destruct (map_get key m) as [e|] eqn:Hg.
    - apply map_get_In in Hg. now apply Hval in Hg.
    - apply map_get_None in Hg.
      destruct (ids_on key agents) as [|x l] eqn:E; [reflexivity|].
      exfalso. apply Hg, Hkeys. rewrite E. discriminate. }
  rewrite Hexisting.
  split; [|split].
  - rewrite map_set_keys. destruct (existsb _ _) eqn:Hex; [exact Hnd|].
    apply NoDup_app. split; [exact Hnd|]. split.
    + intros x Hx Hx'. apply list_elem_of_In in Hx, Hx'.
      destruct Hx' as [<-|[]].
      assert (Ht : existsb (String.eqb key) (map fst m) = true).
      { apply existsb_exists. exists key. split; [exact Hx|].
        apply String.eqb_refl. }
      congruence.
    + apply NoDup_singleton.
  - intros k v Hin. apply map_set_In in Hin; [|exact Hnd].
    rewrite ids_on_snoc, Hact.
    destruct Hin as [[-> ->]|[Hne Hin]].
    + rewrite String.eqb_refl. split; [reflexivity|].
      now destruct (ids_on key agents).
    + destruct (String.eqb_spec key k) as [<-|_]; [contradiction|].
      rewrite app_nil_r. now apply Hval.
  - intros k Hne. rewrite map_set_keys.
    rewrite ids_on_snoc, Hact in Hne.
    destruct (String.eqb_spec key k) as [Heq|Hkk].
    + rewrite <- Heq. clear Hne.
      destruct (existsb _ _) eqn:Hex.
      * apply existsb_exists in Hex as (x & Hx & Hx').
        apply String.eqb_eq in Hx'. now subst x.
      * apply in_or_app. right. now left.
    + rewrite app_nil_r in Hne. apply Hkeys in Hne.
      destruct (existsb _ _); [exact Hne|]. apply in_or_app. now left.
Qed.

Lemma groupByRepo_grouped (agents : list Agent.t) :
  grouped agents (groupByRepo agents).
Proof.
  induction agents as [|a agents IH] using rev_ind.
  - split; [constructor|]. split; [intros k v []|].
    intros k H. now contradiction H.
  - rewrite groupByRepo_snoc. now apply groupStep_grouped.
Qed.

Lemma executing_on_acts_on (agents : list Agent.t) (r : string) :
  in_flight agents ->
  List.filter (executing_on r) agents = List.filter (acts_on r) agents.
Proof.
  intros Hfl. apply filter_ext_in. intros a Ha.
  unfold executing_on, acts_on.
  destruct (Agent.currentDecision a) as [d|] eqn:Hd; [|reflexivity].
  now rewrite (Hfl a d Ha Hd).
Qed.

(** The grouping holds exactly the non-empty groups. *)
Lemma groupByRepo_exact (agents : list Agent.t) (r : string)
    (ids : list string) :
  In (r, ids) (groupByRepo agents) <-> ids = ids_on r agents /\ ids <> [].
Proof.
  destruct (groupByRepo_grouped agents) as (Hnd & Hval & Hkeys).
  split; [apply Hval|]. intros (-> & Hne).
  apply Hkeys in Hne. apply in_map_iff in Hne as ([k v] & Hk & Hin).
  simpl in Hk. subst k. now destruct (Hval _ _ Hin) as (<- & _).
Qed.

(** The first trigger: when some repository has two agents acting on it,
    the project names the first such repository of the grouping and the
    agents acting on it. *)
Lemma detect_shared_repo uuid now agents channel memories :
  (exists r, (2 <= length (ids_on r agents))%nat) ->
  exists r p,
    detectCollaborativeOpportunity uuid now agents channel memories = Some p
    /\ Project.status p = Project.proposed
    /\ Project.repos p = [r]
    /\ Project.participants p = ids_on r agents
    /\ (2 <= length (Project.participants p))%nat.
Proof.
  intros (r & Hr).
  destruct (groupByRepo_grouped agents) as (Hnd & Hval & Hkeys).
  unfold detectCollaborativeOpportunity.
  destruct (find _ (groupByRepo agents)) as [[repo agentIds]|] eqn:Hf.
  - apply find_some in Hf as (Hin & Hlen). apply Nat.leb_le in Hlen.
    apply Hval in Hin as (-> & _).
    exists repo. eexists. split; [reflexivity|]. simpl. auto.
  - exfalso.
    assert (Hk : In r (map fst (groupByRepo agents))).
    { apply Hkeys. intros E. rewrite E in Hr. simpl in Hr. lia. }
    apply in_map_iff in Hk as ([k v] & <- & Hin).
    pose proof (find_none _ _ Hf _ Hin) as Hlen.
    change ((2 <=? length v)%nat = false) in Hlen.
    apply Hval in Hin as (-> & _). simpl in Hr.
    apply Nat.leb_gt in Hlen. lia.
Qed.

(** The agents the code groups need not be executing: a completed and a
    pending decision on [octo/widget] are grouped, and a project is
    proposed, although no agent holds an executing decision on it. *)
Lemma collaboration_without_executing :
  List.filter (executing_on "octo/widget") ex_idle_pair = []
  /\ In ("octo/widget", ["agent-1"; "agent-2"]) (groupByRepo ex_idle_pair)
  /\ exists p,
       detectCollaborativeOpportunity ex_uuid 0 ex_idle_pair ex_channel []
       = Some p
       /\ Project.status p = Project.proposed
       /\ Project.participants p = ["agent-1"; "agent-2"]
       /\ Project.repos p = ["octo/widget"].
Proof.
  split; [reflexivity|]. split; [vm_compute; now left|].
  eexists. split; [reflexivity|]. simpl. auto.
Qed.

(** C10. [detectCollaborativeOpportunity] groups exactly the agents that
    hold a current decision, whatever its status, by the owner/repo its
    action references: the grouping holds, for each repository, the ids
    of the agents whose current decision references it, in the order of
    the agents, and no empty group.  When some repository is referenced
    by the current decisions of at least 2 agents it returns a project
    with status [proposed] whose participants are the ids of the agents
    whose current decision references one such repository and whose
    repos list is that repository alone.  When every current decision is
    an executing one, these agents are the agents executing a decision
    on the repository.  For two agents whose current decisions are
    [study_repo] decisions on [octo/widget] the project lists both agent
    ids and the repository [octo/widget]. *)
Theorem collaboration_on_shared_repo uuid now agents channel memories :
  (forall r ids,
      In (r, ids) (groupByRepo agents)
      <-> ids = map Agent.id (List.filter (acts_on r) agents)
          /\ ids <> [])
  /\ ((exists r, (2 <= length (List.filter (acts_on r) agents))%nat) ->
      exists r p,
        detectCollaborativeOpportunity uuid now agents channel memories
        = Some p
        /\ Project.status p = Project.proposed
        /\ Project.repos p = [r]
        /\ Project.participants p
           = map Agent.id (List.filter (acts_on r) agents)
        /\ (2 <= length (Project.participants p))%nat)
  /\ (in_flight agents ->
      forall r,
        List.filter (acts_on r) agents
        = List.filter (executing_on r) agents)
  /\ (forall a1 a2 d1 d2 topic1 topic2,
        agents = [a1; a2] ->
        Agent.currentDecision a1 = Some d1 ->
        Agent.currentDecision a2 = Some d2 ->
        Decision.action d1 = StudyRepo "octo" "widget" topic1 ->
        Decision.action d2 = StudyRepo "octo" "widget" topic2 ->
        exists p,
          detectCollaborativeOpportunity uuid now agents channel memories
          = Some p
          /\ Project.status p = Project.proposed
          /\ Project.participants p = [Agent.id a1; Agent.id a2]
          /\ Project.repos p = ["octo/widget"]).
Proof.
  split; [|split; [|split]].
  - intros r ids. apply groupByRepo_exact.
  - intros (r & Hr).
    destruct (detect_shared_repo uuid now agents channel memories)
      as (r' & p & Hp & Hst & Hrepos & Hpart & Hlen).
    { exists r. unfold ids_on. now rewrite length_map. }
    exists r', p. auto.
  - intros Hfl r. symmetry. now apply executing_on_acts_on.
  - intros a1 a2 d1 d2 topic1 topic2 -> H1 H2 Ha1 Ha2.
    unfold detectCollaborativeOpportunity, groupByRepo, groupStep. simpl.
    rewrite H1, H2, Ha1, Ha2. simpl. eexists. split; [reflexivity|].
    simpl. auto.
Qed.

Lemma collaboration_on_shared_repo_witness :
  exists p,
    detectCollaborativeOpportunity ex_uuid 0
      [ex_executing "agent-1" (StudyRepo "octo" "widget" None);
       ex_executing "agent-2" (StudyRepo "octo" "widget" None)]
      ex_channel []
    = Some p
    /\ Project.status p = Project.proposed
    /\ Project.participants p = ["agent-1"; "agent-2"]
    /\ Project.repos p = ["octo/widget"].
Proof.
  destruct (collaboration_on_shared_repo ex_uuid 0
              [ex_executing "agent-1" (StudyRepo "octo" "widget" None);
               ex_executing "agent-2" (StudyRepo "octo" "widget" None)]
              ex_channel [])
    as (_ & Hgen & _ & Hscen).
  destruct Hgen as (r & p & Hp & Hst & Hrepos & Hpart & Hlen).
  { exists "octo/widget". vm_compute. lia. }
  destruct (Hscen _ _ _ _ None None eq_refl eq_refl eq_refl eq_refl eq_refl)
    as (p' & Hp' & Hst' & Hpart' & Hrepos').
  exists p'. auto.
Defined.

(* ===================================================================== *)
(** * The range of strength and confidence *)
(* ===================================================================== *)

Lemma Qle_bool_false (x y : Q) : Qle_bool x y = false -> (y < x)%Q.
Proof. intros H. apply Qltb_lt. unfold Qltb. now rewrite H. Qed.

(** Case analysis on every [Math.max] and [Math.min]. *)
Ltac minmax :=
  unfold clamp01, Math_max, Math_min in *;
  repeat match goal with
         | |- context [Qle_bool ?a ?b] =>
             let E := fresh "E" in
             destruct (Qle_bool a b) eqn:E;
             [apply Qle_bool_iff in E|apply Qle_bool_false in E]
         | H : context [Qle_bool ?a ?b] |- _ =>
             let E := fresh "E" in
             destruct (Qle_bool a b) eqn:E;
             [apply Qle_bool_iff in E|apply Qle_bool_false in E]
         end.

(** ** Absorption *)

Lemma absorb_one_in_range this p rnd n this' p' took n' :
  Pheromone.in_range p ->
  absorb_one this p rnd n = Some (this', p', took, n') ->
  Pheromone.in_range p'.
Proof.
  intros Hp H.
  apply absorb_one_cases in H as [(_ & -> & _)|(_ & _ & Hs & _ & _ & _ & ->)];
    [exact Hp|].
  destruct Hp as ((Hs0 & Hs1) & Hc). split; [|exact Hc].
  simpl. minmax; split; lra.
Qed.

Lemma absorb_loop_in_range (ps : list Pheromone.t) :
  forall this rnd n this' ps' absorbed n',
    Forall Pheromone.in_range ps ->
    absorb_loop this ps rnd n = Some (this', ps', absorbed, n') ->
    Forall Pheromone.in_range ps' /\ Forall Pheromone.in_range absorbed.
Proof.
  induction ps as [|p ps IH]; simpl;
    intros this rnd n this' ps' absorbed n' Hall H.
  - apply ret_Some in H as [[= <- <- <-] _]. split; constructor.
  - apply bind_Some in H as ([[this1 p1] took] & n1 & H1 & H).
    apply bind_Some in H as ([[this2 ps2] abs2] & n2 & H2 & H).
    apply ret_Some in H as [[= <- <- <-] _].
    inversion Hall as [|? ? Hp Hps]; subst.
    apply (absorb_one_in_range _ _ _ _ _ _ _ _ Hp) in H1.
    destruct (IH _ _ _ _ _ _ _ Hps H2) as (Hps2 & Habs2).
    split; [now constructor|].
    destruct took; [now constructor|exact Habs2].
Qed.

(** ** Exploration *)

Lemma pick_In {A} (r : Q) (l : list A) (x : A) :
  pick r l = Some x -> In x l.
Proof.
  unfold pick. destruct (_ <? _); [discriminate|]. apply nth_error_In.
Qed.







Lemma explore_cross_confidence discoverRepos insights this target absorbed
    rnd n this' content domain connections confidence n' :
  Forall Pheromone.in_range absorbed ->
  explore_cross discoverRepos insights this target absorbed rnd n
  = Some (this', content, domain, connections, confidence, n') ->
  (0 <= confidence <= 1)%Q.
Proof.
  intros Hall H. unfold explore_cross in H.
  apply bind_Some in H as (r & n1 & _ & H).
  apply bind_Some in H as (source & n2 & Hsrc & H).
  apply lift_Some in Hsrc as [Hsrc _]. apply pick_In in Hsrc.
  rewrite List.Forall_forall in Hall.
  destruct (Hall source Hsrc) as (_ & Hc0 & Hc1).
  cbv zeta in H.
  apply bind_Some in H as ([this1 content1] & n3 & _ & H).
  apply ret_Some in H as [[= _ _ _ _ <-] _].
  minmax; split; lra.
Qed.

Lemma explore_independent_confidence discoverRepos discoveryTopics discoveries
    this target rnd n this' content domain connections confidence n' :
  (forall k, (0 <= rnd k < 1)%Q) ->
  explore_independent discoverRepos discoveryTopics discoveries this target
                      rnd n
  = Some (this', content, domain, connections, confidence, n') ->
  (0 <= confidence <= 1)%Q.
Proof.
  intros Hrnd H. unfold explore_independent in H.
  apply bind_Some in H as (r1 & n1 & _ & H).
  apply bind_Some in H as (topic & n2 & _ & H).
  apply bind_Some in H as (r2 & n3 & Hr2 & H).
  apply random_Some in Hr2 as [-> ->].
  cbv zeta in H.
  destruct (discoverRepos topic 5 (Some 10)) as [|repo repos].
  - apply bind_Some in H as (c & n4 & _ & H).
    apply bind_Some in H as (r3 & n5 & Hr3 & H).
    apply random_Some in Hr3 as [-> ->].
    apply ret_Some in H as [[= _ _ _ _ <-] _].
    pose proof (Hrnd n4). split; lra.
  - apply bind_Some in H as (r3 & n4 & _ & H).
    apply bind_Some in H as (repo' & n5 & _ & H).
    apply ret_Some in H as [[= _ _ _ _ <-] _].
    pose proof (Hrnd n2). split; lra.
Qed.

Lemma explore_in_range uuid now hash discoverRepos discoveryTopics insights
    discoveries this absorbed rnd n this' p n' :
  Forall Pheromone.in_range absorbed ->
  (forall k, (0 <= rnd k < 1)%Q) ->
  explore uuid now hash discoverRepos discoveryTopics insights discoveries
          this absorbed rnd n
  = Some (this', Some p, n') ->
  Pheromone.in_range p.
Proof.
  intros Hall Hrnd H. unfold explore in H. cbv zeta in H.
  apply bind_Some in H as (r & n1 & _ & H).
  destruct (Qltb _ r); [apply ret_Some in H as [[= _ ?] _]; discriminate|].
  apply bind_Some in H as (cross & n2 & _ & H).
  apply bind_Some in H
    as ([[[[this1 content] domain] connections] confidence] & n3 & Hbr & H).
  apply ret_Some in H as [[= _ <-] _].
  assert (Hc : (0 <= confidence <= 1)%Q).
  { destruct cross.
    - eapply explore_cross_confidence; eauto.
    - eapply explore_independent_confidence; eauto. }
  unfold Pheromone.in_range. simpl. split; [split; lra|exact Hc].
Qed.

(** ** Engineering pheromones *)

Lemma clamp01_range (x : Q) : (0 <= clamp01 x <= 1)%Q.
Proof. minmax; split; lra. Qed.

Lemma clamp01_ge (lo x : Q) :
  (0 <= lo <= 1)%Q -> (lo <= x)%Q -> (lo <= clamp01 x)%Q.
Proof. intros H1 H2. minmax; lra. Qed.

Lemma perturb_range rnd n x n' :
  perturb rnd n = Some (x, n') -> (0 <= x <= 1)%Q.
Proof.
  unfold perturb. intros H.
  apply bind_Some in H as (r & n1 & _ & H).
  apply ret_Some in H as [<- _]. apply clamp01_range.
Qed.

Lemma generatePersonality_generated index rnd n specialization p n' :
  generatePersonality index rnd n = Some (specialization, p, n') ->
  generated p.
Proof.
  unfold generatePersonality. cbv zeta. intros H.
  apply bind_Some in H as (c & n1 & Hc%perturb_range & H).
  apply bind_Some in H as (d & n2 & Hd%perturb_range & H).
  apply bind_Some in H as (b & n3 & Hb%perturb_range & H).
  apply bind_Some in H as (s & n4 & Hs%perturb_range & H).
  apply ret_Some in H as [[= _ <-] _].
  unfold generated, PERSONALITY_PRESETS.
  destruct (index mod 3)%nat as [|[|?]]; simpl;
    repeat split; try apply clamp01_range; apply clamp01_ge; lra.
Qed.

Lemma ratio_range (a b : Z) :
  0 <= a <= b -> 0 < b -> (0 <= inject_Z a / inject_Z b <= 1)%Q.
Proof.
  intros Hab Hb.
  assert (Hb' : (0 < inject_Z b)%Q) by (unfold Qlt; simpl; lia).
  assert (Ha0 : (0 <= inject_Z a)%Q) by (unfold Qle; simpl; lia).
  assert (Hab' : (inject_Z a <= inject_Z b)%Q) by (unfold Qle; simpl; lia).
  split.
  - apply Qle_shift_div_l; [exact Hb'|lra].
  - apply Qle_shift_div_r; [exact Hb'|lra].
Qed.

(** The score of a candidate lies in [[0,1]] when its cost is the
    estimate of its action and fits the remaining budget, for an agent
    with a generated personality that has spent no negative amount. *)
Lemma scoreDecision_range d state channel :
  Decision.cost d = estimateCost (Decision.action d) ->
  Cost.estimatedTokens (Decision.cost d)
  <= Agent.tokenBudget state - Agent.tokensUsed state ->
  0 <= Agent.tokensUsed state ->
  generated (Agent.personality state) ->
  (0 <= scoreDecision d state channel <= 1)%Q.
Proof.
  intros Hcost Hfit Hused (Hcur & Hdil & Hbold & Hsoc).
  rewrite scoreDecision_spec_score.
  pose proof (estimateCost_at_least_800 (Decision.action d)) as Hmin.
  rewrite <- Hcost in Hmin.
  unfold spec_score. cbv zeta.
  pose proof (ratio_range (Cost.estimatedTokens (Decision.cost d))
                (Agent.tokenBudget state - Agent.tokensUsed state)
                ltac:(lia) ltac:(lia)) as Hx.
  pose proof (ratio_range (Agent.tokenBudget state - Agent.tokensUsed state)
                (Agent.tokenBudget state)
                ltac:(lia) ltac:(lia)) as Hy.
  set (x := (inject_Z (Cost.estimatedTokens (Decision.cost d))
             / inject_Z (Agent.tokenBudget state - Agent.tokensUsed state))%Q)
    in *.
  set (y := (inject_Z (Agent.tokenBudget state - Agent.tokensUsed state)
             / inject_Z (Agent.tokenBudget state))%Q) in *.
  assert (Hce : (0 <= Math_max 0 (1 - x) <= 1)%Q) by (minmax; split; lra).
  set (ce := Math_max 0 (1 - x)) in *.
  rewrite Hcost. unfold Decision.type.
  destruct (bool_decide _); destruct (Channel.phaseTransitionOccurred channel);
    destruct (Decision.action d); simpl; split; lra.
Qed.

(** C8. Every pheromone the agent operations create or mutate has
    strength and confidence in [[0,1]]:
    - a pass of [absorbPheromones] over a channel whose pheromones are in
      range leaves them, and those it returns, in range;
    - the pheromone [explore] emits is in range, when the absorbed
      pheromones are and [Math.random()] draws from [[0,1)];
    - the pheromone [createEngineeringPheromone] emits for a decision
      that carries the priority of a decision of the pool is in range,
      for an agent whose personality is one [generatePersonality]
      returns and whose spent tokens are not negative. *)
Theorem pheromones_in_range :
  (forall this channel rnd n,
      Forall Pheromone.in_range (Channel.pheromones channel) ->
      exists this' channel' absorbed n',
        absorbPheromones this channel rnd n
        = Some (this', channel', absorbed, n')
        /\ Forall Pheromone.in_range (Channel.pheromones channel')
        /\ Forall Pheromone.in_range absorbed)
  /\ (forall uuid now hash discoverRepos discoveryTopics insights discoveries
             this absorbed rnd n this' p n',
        Forall Pheromone.in_range absorbed ->
        (forall k, (0 <= rnd k < 1)%Q) ->
        explore uuid now hash discoverRepos discoveryTopics insights
                discoveries this absorbed rnd n
        = Some (this', Some p, n') ->
        Pheromone.in_range p)
  /\ (forall uuid now hash index rnd n specialization personality n'
             state channel repos issues thoughts d this d' result,
        generatePersonality index rnd n
        = Some (specialization, personality, n') ->
        Agent.personality state = personality ->
        0 <= Agent.tokensUsed state ->
        In d (generateCandidateDecisions uuid now state channel repos issues
                                         thoughts) ->
        Decision.priority d' = Decision.priority d ->
        Pheromone.in_range
          (snd (createEngineeringPheromone uuid now hash this d' result))).
Proof.
  split; [|split].
  - intros this channel rnd n Hall.
    destruct (absorbPheromones_total this channel rnd n)
      as (this' & channel' & absorbed & n' & H).
    exists this', channel', absorbed, n'. split; [exact H|].
    unfold absorbPheromones in H.
    apply bind_Some in H as ([[this1 ps1] abs1] & n1 & H1 & H).
    apply ret_Some in H as [[= <- <- <-] _]. simpl.
    eapply absorb_loop_in_range; eauto.
  - intros. eapply explore_in_range; eauto.
  - intros uuid now hash index rnd n specialization personality n'
           state channel repos issues thoughts d this d' result
           Hgen Hpers Hused Hd Hprio.
    apply generatePersonality_generated in Hgen. rewrite <- Hpers in Hgen.
    apply generate_pushed in Hd as (_ & Hcost & Hfit & Hscore & _).
    pose proof (scoreDecision_range d state channel Hcost Hfit Hused Hgen)
      as Hr.
    rewrite <- Hscore, <- Hprio in Hr.
    unfold Pheromone.in_range. simpl. split; [split; lra|exact Hr].
Qed.

(* ===================================================================== *)
(** * Instances on concrete inputs *)
(* ===================================================================== *)

Lemma checkSync_transition_witness :
  Agent.synchronized
    (checkSync (ex_absorber {["p1"; "p2"]}) ex_channel) = false
  /\ Agent.synchronized
       (checkSync (ex_absorber {["p1"; "p2"; "p3"]}) ex_channel) = true
  /\ Agent.energy
       (checkSync (ex_absorber {["p1"; "p2"; "p3"]}) ex_channel) = 1%Q.
Proof.
  split.
  - destruct (checkSync_transition (ex_absorber {["p1"; "p2"]}) ex_channel)
      as (_ & _ & _ & H); [reflexivity|].
    destruct H as (H2 & _); [reflexivity|reflexivity|reflexivity|].
    apply H2. vm_compute. reflexivity.
  - destruct (checkSync_transition (ex_absorber {["p1"; "p2"; "p3"]})
                ex_channel) as (_ & _ & _ & H); [reflexivity|].
    destruct H as (_ & H3); [reflexivity|reflexivity|reflexivity|].
    apply H3. vm_compute. reflexivity.
Defined.

Lemma absorb_idempotent_witness :
  absorb_one (ex_absorber {["p1"]}) (ex_pheromone "p1" "agent-2" 0.9%Q)
             (fun _ => 0%Q) 0%nat
  = Some (ex_absorber {["p1"]}, ex_pheromone "p1" "agent-2" 0.9%Q, false,
          0%nat).
Proof.
  apply (absorb_idempotent (ex_absorber {["p1"]})
           (ex_pheromone "p1" "agent-2" 0.9%Q) (fun _ => 0%Q) 0%nat).
  vm_compute. reflexivity.
Defined.

Lemma pheromones_in_range_witness :
  (exists this' channel' absorbed n',
      absorbPheromones (ex_absorber ∅)
        (Channel.set_pheromones [ex_pheromone "p1" "agent-2" 0.95%Q] ex_channel)
        (fun _ => 0%Q) 0%nat
      = Some (this', channel', absorbed, n')
      /\ Forall Pheromone.in_range (Channel.pheromones channel')
      /\ absorbed <> [])
  /\ (exists this' p n',
        explore ex_uuid 0 (fun s => s) (fun _ _ _ => [ex_repo]) ["rust"]
                (fun _ => Some ["insight"]) (fun _ => Some ["discovery"])
                ex_swarm_agent [ex_pheromone "p1" "agent-2" 0.95%Q]
                (fun _ => 0.25%Q) 0%nat
        = Some (this', Some p, n')
        /\ Pheromone.in_range p)
  /\ (exists d,
        In d (generateCandidateDecisions ex_uuid 0 (ex_agent 0) ex_channel
                [ex_repo] [] [])
        /\ Pheromone.in_range
             (snd (createEngineeringPheromone ex_uuid 0 (fun s => s)
                     (ex_agent 0) d ex_result))).
Proof.
  destruct pheromones_in_range as (Habsorb & Hexplore & Hengineering).
  split; [|split].
  - destruct (Habsorb (ex_absorber ∅)
                (Channel.set_pheromones [ex_pheromone "p1" "agent-2" 0.95%Q]
                                        ex_channel)
                (fun _ => 0%Q) 0%nat)
      as (this' & channel' & absorbed & n' & E & Hch & _).
    { repeat constructor; simpl; lra. }
    exists this', channel', absorbed, n'. split; [exact E|].
    split; [exact Hch|].
    intros ->. vm_compute in E. discriminate.
  - destruct (explore ex_uuid 0 (fun s => s) (fun _ _ _ => [ex_repo]) ["rust"]
                (fun _ => Some ["insight"]) (fun _ => Some ["discovery"])
                ex_swarm_agent [ex_pheromone "p1" "agent-2" 0.95%Q]
                (fun _ => 0.25%Q) 0%nat)
      as [[[this' [p|]] n']|] eqn:E;
      [|vm_compute in E; discriminate|vm_compute in E; discriminate].
    exists this', p, n'. split; [reflexivity|].
    eapply Hexplore; [| |exact E].
    + repeat constructor; simpl; lra.
    + intros k. split; lra.
  - destruct (generateCandidateDecisions ex_uuid 0 (ex_agent 0) ex_channel
                [ex_repo] [] []) as [|d l] eqn:E;
      [vm_compute in E; discriminate|].
    exists d. split; [now left|].
    eapply (Hengineering ex_uuid 0 (fun s => s) 0%nat (fun _ => 0.25%Q) 0%nat
              "Explorer" ex_personality 4%nat (ex_agent 0) ex_channel
              [ex_repo] [] [] d).
    + vm_compute. reflexivity.
    + reflexivity.
    + simpl. lia.
    + rewrite E. now left.
    + reflexivity.
Defined.

(* ===================================================================== *)
(** * Further properties of the decision engine *)
(* ===================================================================== *)

(** ** What [parseSuggestedAction] can return *)

Ltac parse_cases :=
  repeat match goal with
         | |- context [if ?b then _ else _] => destruct b eqn:?
         | |- context [match ?x with _ => _ end] => destruct x eqn:?
         end.

Lemma find_In {A} (f : A -> bool) (l : list A) (x : A) :
  find f l = Some x -> In x l.
Proof. intros H. now apply find_some in H. Qed.

(** X1. A suggestion that asks to fix an issue yields a [fix_issue] on
    one of the known issues, or nothing when no issue is known; it never
    reaches the redirection to [study_repo].  Conversely every
    [fix_issue] action comes from such a suggestion and targets a known
    issue. *)
Theorem parse_fix_issue_known (suggestion : string) (repos : list Repo.t)
    (issues : list Issue.t) :
  (asks_fix suggestion = true ->
   (issues = [] -> parseSuggestedAction suggestion repos issues = None)
   /\ (issues <> [] ->
       exists issue, In issue issues
                     /\ parseSuggestedAction suggestion repos issues
                        = Some (fix_of issue)))
  /\ (forall owner repo number,
        parseSuggestedAction suggestion repos issues
        = Some (FixIssue owner repo number) ->
        asks_fix suggestion = true
        /\ exists issue, In issue issues
                         /\ FixIssue owner repo number = fix_of issue).
Proof.
  unfold asks_fix, fix_of. split.
  - intros Hfix. unfold parseSuggestedAction. rewrite Hfix. split.
    + intros ->. now destruct (Js.match_issue suggestion).
    + intros Hne. destruct issues as [|i0 issues']; [contradiction|].
      destruct (Js.match_issue suggestion) as [digits|].
      * destruct (find _ (i0 :: issues')) as [i|] eqn:Hf.
        -- exists i. split; [eapply find_In, Hf|reflexivity].
        -- exists i0. split; [now left|reflexivity].
      * exists i0. split; [now left|reflexivity].
  - intros owner repo number. unfold parseSuggestedAction.
    destruct (_ || _) eqn:Hfix.
    + intros H. split; [reflexivity|].
      destruct issues as [|i0 issues'].
      * destruct (Js.match_issue suggestion); discriminate.
      * destruct (Js.match_issue suggestion) as [digits|].
        -- destruct (find _ (i0 :: issues')) as [i|] eqn:Hf;
             injection H as <- <- <-.
           ++ exists i. split; [eapply find_In, Hf|reflexivity].
           ++ exists i0. split; [now left|reflexivity].
        -- injection H as <- <- <-.
           exists i0. split; [now left|reflexivity].
    + parse_cases; discriminate.
Qed.

Lemma parse_fix_issue_known_witness :
  parseSuggestedAction "Fix issue #9 first" [ex_repo] [ex_issue]
  = Some (FixIssue "octo" "widget" 7)
  /\ parseSuggestedAction "Fix issue #9 first" [ex_repo] [] = None.
Proof.
  split.
  - destruct (parse_fix_issue_known "Fix issue #9 first" [ex_repo] [ex_issue])
      as (H & _).
    destruct H as (_ & H); [reflexivity|].
    destruct H as (issue & [<-|[]] & ->); [discriminate|reflexivity].
  - destruct (parse_fix_issue_known "Fix issue #9 first" [ex_repo] [])
      as (H & _).
    destruct H as (H & _); [reflexivity|]. now apply H.
Defined.

(** X2. [parseSuggestedAction] invents no repository: the owner and repo
    of a [study_repo] action are those the text names or those of a known
    repository, and a [refactor] or [document] action carries the owner
    and repo the text names and the suggestion as its target.  So with
    no repository known and none named, no such action is returned. *)
Theorem parse_names_known_repos (suggestion : string) (repos : list Repo.t)
    (issues : list Issue.t) (action : AgentAction) :
  parseSuggestedAction suggestion repos issues = Some action ->
  match action with
  | StudyRepo owner repo topic =>
      topic = None
      /\ (Js.match_repo suggestion = Some (owner, repo)
          \/ exists k, In k repos /\ owner = Repo.owner k
                       /\ repo = Repo.repo k)
  | Refactor owner repo target | Document owner repo target =>
      Js.match_repo suggestion = Some (owner, repo) /\ target = suggestion
  | FixIssue _ _ _ => issues <> []
  | ShareTechnique technique sourceRepo =>
      technique <> EmptyString /\ sourceRepo = None
  | ExploreTopic topic => topic <> EmptyString
  | WriteCode _ _ | ContributePr _ _ _ => False
  end.
Proof.
  assert (Hor : forall a b, b <> EmptyString -> Js.or_else a b <> EmptyString).
  { intros a b Hb. unfold Js.or_else. now destruct a. }
  unfold parseSuggestedAction.
  parse_cases; intros [= <-]; subst;
    repeat match goal with
           | H : match ?x with _ => _ end = Some _ |- _ =>
               destruct x as [[? ?]|] eqn:?; [|discriminate H]
           | H : find _ _ = Some _ |- _ => apply find_some in H; destruct H
           | H : _ && _ = true |- _ => apply andb_true_iff in H; destruct H
           | H : String.eqb _ _ = true |- _ => apply String.eqb_eq in H
           end;
    subst;
    try discriminate;
    try (apply Hor; discriminate);
    try (split; [apply Hor; discriminate|reflexivity]);
    try (split; reflexivity);
    try (split; [reflexivity|];
         first [ left; reflexivity
               | right; eexists; split; [eassumption|split; reflexivity]
               | right; eexists; split; [now left|split; reflexivity] ]).
Qed.

Lemma parse_names_known_repos_witness :
  Js.match_repo "refactor the parser of octo/widget" = Some ("octo", "widget").
Proof.
  exact (proj1 (parse_names_known_repos
                  "refactor the parser of octo/widget" [] []
                  (Refactor "octo" "widget"
                            "refactor the parser of octo/widget")
                  eq_refl)).
Defined.

(** ** The owner/repo pattern *)

Lemma span_all (f : ascii -> bool) (s : string) :
  all_chars f s = true -> Js.span f s = (s, EmptyString).
Proof.
  induction s as [|c s IH]; simpl; [reflexivity|].
  intros [Hc Hs]%andb_true_iff. rewrite Hc, (IH Hs). reflexivity.
Qed.

Lemma span_app_stop (f : ascii -> bool) (a : string) (c : ascii)
    (rest : string) :
  all_chars f a = true -> f c = false ->
  Js.span f (a ++ String c rest) = (a, String c rest).
Proof.
  intros Ha Hc. induction a as [|x a IH].
  - change (EmptyString ++ String c rest)%string with (String c rest).
    simpl. now rewrite Hc.
  - change (String x a ++ String c rest)%string
      with (String x (a ++ String c rest)).
    simpl in *. apply andb_true_iff in Ha as [Hx Ha].
    rewrite Hx, (IH Ha). reflexivity.
Qed.

Lemma span_fst_all (f : ascii -> bool) (s : string) :
  all_chars f (fst (Js.span f s)) = true.
Proof.
  induction s as [|c s IH]; simpl; [reflexivity|].
  destruct (Js.span f s) as [a b]. simpl in IH.
  destruct (f c) eqn:Hc; simpl; [now rewrite Hc, IH|reflexivity].
Qed.

Lemma span_append (f : ascii -> bool) (s : string) :
  (fst (Js.span f s) ++ snd (Js.span f s))%string = s.
Proof.
  induction s as [|c s IH]; simpl; [reflexivity|].
  destruct (Js.span f s) as [a b]. simpl in IH.
  destruct (f c); simpl; [rewrite <- IH|]; reflexivity.
Qed.

Lemma match_repo_here_name (o r : string) (rest : string) :
  name_of Js.owner_char o -> name_of Js.repo_char r ->
  Js.match_repo_here (o ++ "/" ++ r) = Some (o, r).
Proof.
  intros (Ho1 & Ho2) (Hr1 & Hr2). unfold Js.match_repo_here.
  change (o ++ "/" ++ r)%string with (o ++ String "/" r)%string.
  rewrite (span_app_stop Js.owner_char o "/" r Ho2 eq_refl).
  rewrite (span_all Js.repo_char r Hr2). simpl. now rewrite Ho1, Hr1.
Qed.

Lemma match_repo_here_sound (s o r : string) :
  Js.match_repo_here s = Some (o, r) ->
  name_of Js.owner_char o /\ name_of Js.repo_char r
  /\ exists rest, s = (o ++ "/" ++ r ++ rest)%string.
Proof.
  unfold Js.match_repo_here.
  pose proof (span_fst_all Js.owner_char s) as Ho.
  pose proof (span_append Js.owner_char s) as Hs.
  destruct (Js.span Js.owner_char s) as [o' rest]. simpl in Ho, Hs.
  destruct rest as [|c r']; [discriminate|].
  destruct (Js.nonempty o') eqn:Hne; [|discriminate]. simpl.
  destruct (Ascii.eqb_spec c "/") as [->|]; [|discriminate]. simpl.
  pose proof (span_fst_all Js.repo_char r') as Hr.
  pose proof (span_append Js.repo_char r') as Hr'.
  destruct (Js.nonempty (fst (Js.span Js.repo_char r'))) eqn:Hne';
    [|discriminate].
  intros [= <- <-]. repeat split; try assumption.
  exists (snd (Js.span Js.repo_char r')).
  rewrite <- Hs, Hr'. reflexivity.
Qed.

Lemma match_repo_sound (s o r : string) :
  Js.match_repo s = Some (o, r) ->
  name_of Js.owner_char o /\ name_of Js.repo_char r
  /\ exists before rest, s = (before ++ o ++ "/" ++ r ++ rest)%string.
Proof.
  induction s as [|c s IH].
  - simpl. discriminate.
  - cbn [Js.match_repo].
    destruct (Js.match_repo_here (String c s)) as [[o' r']|] eqn:E.
    + intros [= -> ->]. apply match_repo_here_sound in E
        as (Ho & Hr & rest & E).
      repeat split; try apply Ho; try apply Hr.
      exists EmptyString, rest. exact E.
    + intros H. apply IH in H as (Ho & Hr & before & rest & ->).
      repeat split; try apply Ho; try apply Hr.
      exists (String c before), rest. reflexivity.
Qed.

Lemma match_repo_name (o r : string) :
  name_of Js.owner_char o -> name_of Js.repo_char r ->
  Js.match_repo (o ++ "/" ++ r) = Some (o, r).
Proof.
  intros Ho Hr.
  pose proof (match_repo_here_name o r EmptyString Ho Hr) as H.
  destruct (o ++ "/" ++ r)%string; cbn [Js.match_repo]; now rewrite H.
Qed.

(** X3. The owner/repo pattern inverts the [owner/repo] notation: on the
    full name of a repository whose owner and repo are well-formed names
    it yields that owner and that repo.  Whatever it yields from a text
    are two well-formed names that the text holds, joined by a slash. *)
Theorem match_repo_fullName :
  (forall repo : Repo.t,
      name_of Js.owner_char (Repo.owner repo) ->
      name_of Js.repo_char (Repo.repo repo) ->
      Js.match_repo (Repo.fullName repo)
      = Some (Repo.owner repo, Repo.repo repo))
  /\ (forall s o r,
        Js.match_repo s = Some (o, r) ->
        name_of Js.owner_char o /\ name_of Js.repo_char r
        /\ exists before rest, s = (before ++ o ++ "/" ++ r ++ rest)%string).
Proof.
  split.
  - intros repo Ho Hr. unfold Repo.fullName. now apply match_repo_name.
  - apply match_repo_sound.
Qed.

Lemma match_repo_fullName_witness :
  Js.match_repo (Repo.fullName ex_repo) = Some ("octo", "widget").
Proof.
  apply (proj1 match_repo_fullName ex_repo); split; reflexivity.
Defined.

(** ** The candidates as lists of actions *)

Lemma affordable_app (b : Z) (l1 l2 : list AgentAction) :
  affordable b (l1 ++ l2) = affordable b l1 ++ affordable b l2.
Proof. apply List.filter_app. Qed.

Section Collected.

Variable uuid : nat -> string.
Variable now : Z.
Variable state : Agent.t.
Variable channel : Channel.t.
Variable repos : list Repo.t.
Variable issues : list Issue.t.
Variable budgetRemaining : Z.

Lemma numbered_length actions candidates :
  numbered uuid now state actions candidates ->
  length candidates = length actions.
Proof using Type. intros ->. now rewrite length_imap. Qed.

Lemma numbered_push actions candidates action :
  numbered uuid now state actions candidates ->
  numbered uuid now state (actions ++ [action])
           (push_candidate uuid now state candidates action
                           (estimateCost action)).
Proof using Type.
  intros H. unfold push_candidate.
  rewrite (numbered_length _ _ H). unfold numbered in *.
  rewrite imap_app. simpl. rewrite H, Nat.add_0_r. reflexivity.
Qed.

Lemma numbered_push_if actions candidates action :
  numbered uuid now state actions candidates ->
  numbered uuid now state
    (actions ++ affordable budgetRemaining [action])
           (if Cost.estimatedTokens (estimateCost action) <=? budgetRemaining
            then push_candidate uuid now state candidates action
                                (estimateCost action)
            else candidates).
Proof using Type.
  intros H. unfold affordable. simpl.
  destruct (_ <=? _); [now apply numbered_push|now rewrite app_nil_r].
Qed.

Lemma suggestions_numbered (suggestions : list string) :
  forall actions candidates,
    numbered uuid now state actions candidates ->
    numbered uuid now state
      (actions ++ affordable budgetRemaining (parsed repos issues suggestions))
      (fold_left (fun candidates suggestion =>
         match parseSuggestedAction suggestion repos issues with
         | None => candidates
         | Some action =>
             let cost := estimateCost action in
             if Cost.estimatedTokens cost >? budgetRemaining then candidates
             else push_candidate uuid now state candidates action cost
         end) suggestions candidates).
Proof using Type.
  induction suggestions as [|s l IH]; intros actions candidates H.
  - simpl. unfold affordable. simpl. now rewrite app_nil_r.
  - cbn [fold_left]. unfold parsed. cbn [flat_map].
    fold (parsed repos issues l).
    rewrite affordable_app, app_assoc. apply IH.
    destruct (parseSuggestedAction s repos issues) as [a|].
    + cbv zeta. rewrite Z.gtb_ltb, Z.ltb_antisym, negb_if.
      now apply numbered_push_if.
    + unfold affordable. simpl. now rewrite app_nil_r.
Qed.

Lemma fromThoughts_numbered (thoughts : list Thought.t) actions candidates :
  numbered uuid now state actions candidates ->
  numbered uuid now state
    (actions
     ++ affordable budgetRemaining (parsed repos issues (suggested thoughts)))
    (fromThoughts uuid now state repos issues thoughts budgetRemaining
                  candidates).
Proof using Type.
  unfold fromThoughts, suggested.
  revert actions candidates.
  induction (slice_last 5 thoughts) as [|t ts IH]; intros actions candidates H.
  - simpl. unfold affordable. simpl. now rewrite app_nil_r.
  - cbn [fold_left flat_map]. unfold parsed. rewrite flat_map_app.
    fold (parsed repos issues (Thought.suggestedActions t)).
    fold (parsed repos issues (flat_map Thought.suggestedActions ts)).
    rewrite affordable_app, app_assoc. apply IH.
    now apply suggestions_numbered.
Qed.

Lemma fromRepos_numbered actions candidates :
  numbered uuid now state actions candidates ->
  numbered uuid now state
    (actions
     ++ affordable budgetRemaining (map study_of (unstudied state repos)))
    (fromRepos uuid now state repos budgetRemaining candidates).
Proof using Type.
  unfold fromRepos, unstudied.
  revert actions candidates.
  induction (slice_first 3 repos) as [|r rs IH]; intros actions candidates H.
  - simpl. unfold affordable. simpl. now rewrite app_nil_r.
  - cbn [fold_left List.filter].
    destruct (existsb _ _); cbn [negb].
    + now apply IH.
    + cbn [map]. change (?x :: ?l) with ([x] ++ l).
      rewrite affordable_app, app_assoc. apply IH.
      cbv zeta. rewrite Z.gtb_ltb, Z.ltb_antisym, negb_if.
      now apply (numbered_push_if _ _ (study_of r)).
Qed.

Lemma fromPheromones_numbered actions candidates :
  numbered uuid now state actions candidates ->
  numbered uuid now state
    (actions
     ++ affordable budgetRemaining
          (if shares state channel
           then [ShareTechnique
                   ("Cross-domain synthesis from "
                    ++ Agent.specialization state)%string None]
           else []))
    (fromPheromones uuid now state channel budgetRemaining candidates).
Proof using Type.
  intros H. unfold fromPheromones, shares.
  destruct (_ && _).
  - cbv zeta. now apply numbered_push_if.
  - unfold affordable. simpl. now rewrite app_nil_r.
Qed.

Lemma fallbackExplore_numbered actions candidates :
  numbered uuid now state actions candidates ->
  numbered uuid now state
    (actions
     ++ affordable budgetRemaining [ExploreTopic (Agent.specialization state)])
    (fallbackExplore uuid now state budgetRemaining candidates).
Proof using Type.
  intros H. unfold fallbackExplore. cbv zeta. now apply numbered_push_if.
Qed.

End Collected.

Lemma collect_numbered uuid now state channel repos issues thoughts :
  numbered uuid now state (offered state channel repos issues thoughts)
           (collectCandidates uuid now state channel repos issues thoughts).
Proof.
  unfold collectCandidates, offered. cbv zeta.
  rewrite !affordable_app, !app_assoc.
  apply fallbackExplore_numbered, fromPheromones_numbered,
    fromRepos_numbered.
  apply (fromThoughts_numbered _ _ _ _ _ _ thoughts []). reflexivity.
Qed.

(** ** The pool as a stable sort of the scored candidates *)

Lemma ties_insert (q : Q) (d : Decision.t) (l : list Decision.t) :
  ties q (insert_by_priority d l) = ties q (d :: l).
Proof.
  induction l as [|e l IH]; [reflexivity|].
  cbn [insert_by_priority].
  destruct (Qle_bool (Decision.priority e) (Decision.priority d)) eqn:E;
    [reflexivity|].
  apply Qle_bool_false in E. unfold ties in *. cbn [List.filter] in *.
  rewrite IH.
  destruct (Qeq_bool (Decision.priority d) q) eqn:Ed; [|reflexivity].
  apply Qeq_bool_iff in Ed.
  destruct (Qeq_bool (Decision.priority e) q) eqn:Ee; [|reflexivity].
  apply Qeq_bool_iff in Ee. lra.
Qed.

Lemma ties_sort (q : Q) (l : list Decision.t) :
  ties q (sort_by_priority l) = ties q l.
Proof.
  induction l as [|d l IH]; [reflexivity|].
  unfold sort_by_priority in *. cbn [fold_right].
  rewrite ties_insert. unfold ties in *. cbn [List.filter].
  now rewrite IH.
Qed.

Lemma map_imap {A B C} (g : B -> C) (l : list A) :
  forall f : nat -> A -> B,
    map g (imap f l) = imap (fun k a => g (f k a)) l.
Proof.
  induction l as [|a l IH]; intros f; [reflexivity|].
  cbn [imap map]. now rewrite IH.
Qed.

Lemma generate_scored uuid now state channel repos issues thoughts :
  generateCandidateDecisions uuid now state channel repos issues thoughts
  = sort_by_priority
      (imap (fun k a =>
               scoreCandidate state channel (fresh_decision uuid now state k a))
            (offered state channel repos issues thoughts)).
Proof.
  unfold generateCandidateDecisions. cbv zeta.
  rewrite (collect_numbered uuid now state channel repos issues thoughts).
  now rewrite map_imap.
Qed.

(** X4. The pool is the stable sort by decreasing priority of the scored
    candidates, which are, in this order, the affordable actions among
    those parsed from the suggestions of the last five thoughts, the
    study of each repository among the first three that is not yet
    studied, the shared technique and the exploration of the agent's
    specialization; the [k]-th of them carries the [k]-th identifier.
    Candidates of equal priority keep that order. *)
Theorem pool_is_sorted_offer uuid now state channel repos issues thoughts :
  let pool :=
    generateCandidateDecisions uuid now state channel repos issues thoughts in
  let scored :=
    imap (fun k a =>
            scoreCandidate state channel (fresh_decision uuid now state k a))
         (offered state channel repos issues thoughts) in
  collectCandidates uuid now state channel repos issues thoughts
  = imap (fresh_decision uuid now state)
         (offered state channel repos issues thoughts)
  /\ Permutation pool scored
  /\ by_priority pool
  /\ forall q, ties q pool = ties q scored.
Proof.
  cbv zeta. rewrite generate_scored. repeat split.
  - apply collect_numbered.
  - apply sort_by_priority_perm.
  - apply sort_by_priority_sorted.
  - intros q. apply ties_sort.
Qed.

Lemma affordable_length (b : Z) (l : list AgentAction) :
  (length (affordable b l) <= length l)%nat.
Proof. apply List.filter_length_le. Qed.

Lemma parsed_length repos issues (l : list string) :
  (length (parsed repos issues l) <= length l)%nat.
Proof.
  induction l as [|s l IH]; [reflexivity|].
  unfold parsed in *. cbn [flat_map]. rewrite length_app.
  destruct (parseSuggestedAction s repos issues); simpl; lia.
Qed.

Lemma unstudied_length state repos :
  (length (unstudied state repos) <= Nat.min 3 (length repos))%nat.
Proof.
  unfold unstudied, slice_first.
  etransitivity; [apply List.filter_length_le|].
  now rewrite length_firstn.
Qed.

(** X5. The pool holds at most one candidate for each suggestion of the
    last five thoughts, one for each of the first three repositories,
    the shared technique and the exploration fallback. *)
Theorem pool_size_bound uuid now state channel repos issues thoughts :
  (length (generateCandidateDecisions uuid now state channel repos issues
                                      thoughts)
   <= length (suggested thoughts) + Nat.min 3 (length repos) + 2)%nat.
Proof.
  rewrite generate_scored.
  rewrite (Permutation_length (sort_by_priority_perm _)), length_imap.
  unfold offered. etransitivity; [apply affordable_length|].
  rewrite !length_app, length_map.
  pose proof (parsed_length repos issues (suggested thoughts)).
  pose proof (unstudied_length state repos).
  destruct (shares state channel); cbn [length]; lia.
Qed.

(** ** The repository source *)

Lemma actions_numbered uuid now state actions candidates :
  numbered uuid now state actions candidates ->
  map Decision.action candidates = actions.
Proof.
  intros ->. rewrite map_imap. unfold fresh_decision. simpl.
  induction actions as [|a l IH] using rev_ind; [reflexivity|].
  rewrite imap_app. simpl. now rewrite IH.
Qed.

Lemma affordable_study (b : Z) (l : list Repo.t) :
  affordable b (map study_of l) = if 3000 <=? b then map study_of l else [].
Proof.
  induction l as [|r l IH]; [now destruct (3000 <=? b)|].
  unfold affordable in *. cbn [map List.filter]. rewrite IH.
  change (Cost.estimatedTokens (estimateCost (study_of r))) with 3000.
  now destruct (3000 <=? b).
Qed.

(** X6. The repository source offers, in their order, the study of each
    repository among the first three whose full name is not among the
    repositories the agent studied, when the remaining budget is at
    least 3000 tokens, and nothing otherwise. *)
Theorem study_candidates uuid now state repos budgetRemaining :
  map Decision.action (fromRepos uuid now state repos budgetRemaining [])
  = (if 3000 <=? budgetRemaining
     then map study_of (unstudied state repos) else [])
  /\ (forall r, In r (unstudied state repos) <->
                In r (slice_first 3 repos)
                /\ ~ In (Repo.fullName r) (Agent.reposStudied state)).
Proof.
  split.
  - rewrite <- affordable_study.
    apply (actions_numbered uuid now state).
    apply (fromRepos_numbered uuid now state repos budgetRemaining [] []).
    reflexivity.
  - intros r. unfold unstudied. rewrite List.filter_In, negb_true_iff.
    apply and_iff_compat_l. rewrite <- not_true_iff_false, existsb_exists.
    split.
    + intros H Hin. apply H. exists (Repo.fullName r).
      split; [exact Hin|apply String.eqb_refl].
    + intros H (x & Hin & Hx). apply String.eqb_eq in Hx. now subst x.
Qed.

(** ** Risk *)

(** X7. The estimate of an action reads its tokens and its time from
    the two tables; its risk is high for [contribute_pr] only and medium
    for [write_code] and [fix_issue] only.  No decision of the pool is of
    high risk, and the decisions of medium risk are the [fix_issue]
    ones. *)
Theorem estimateCost_risk :
  (forall action,
      estimateCost action
      = Cost.mk (TOKEN_ESTIMATES (action_type action))
                (TIME_ESTIMATES (action_type action))
                (match action_type action with
                 | contribute_pr => high
                 | write_code | fix_issue => medium
                 | _ => low
                 end))
  /\ (forall uuid now state channel repos issues thoughts d,
        In d (generateCandidateDecisions uuid now state channel repos issues
                                         thoughts) ->
        Cost.riskLevel (Decision.cost d) <> high
        /\ (Cost.riskLevel (Decision.cost d) = medium
            <-> Decision.type d = fix_issue)).
Proof.
  split.
  - now intros [].
  - intros uuid now state channel repos issues thoughts d Hd.
    pose proof (pool_types uuid now state channel repos issues thoughts) as Ht.
    rewrite List.Forall_forall in Ht. specialize (Ht d Hd).
    apply generate_pushed in Hd as (_ & Hc & _).
    rewrite Hc. unfold Decision.type in *.
    destruct (Decision.action d); simpl in Ht |- *;
      intuition (discriminate || reflexivity).
Qed.

(** ** Selection *)

Lemma selectDecision_None exp random candidates temperature :
  selectDecision exp random candidates temperature = None
  <-> candidates = [].
Proof.
  unfold selectDecision. destruct candidates as [|first rest]; [easy|].
  destruct (Qeq_bool temperature 0); [easy|].
  cbv zeta. now destruct (draw_weighted _ _ _).
Qed.

Lemma total_from (ws : list Q) :
  forall a, (fold_left Qplus ws a == a + total ws)%Q.
Proof.
  unfold total. induction ws as [|w ws IH]; intros a; simpl; [ring|].
  rewrite (IH (a + w)%Q), (IH (0 + w)%Q). ring.
Qed.

Lemma total_cons (w : Q) (ws : list Q) : (total (w :: ws) == w + total ws)%Q.
Proof. unfold total at 1. simpl. rewrite total_from. ring. Qed.

Lemma total_nonneg (ws : list Q) :
  Forall (fun w => (0 <= w)%Q) ws -> (0 <= total ws)%Q.
Proof.
  induction 1 as [|w ws Hw _ IH]; [unfold total; simpl; lra|].
  rewrite total_cons. lra.
Qed.

Lemma firstn_nonneg (i : nat) (ws : list Q) :
  Forall (fun w => (0 <= w)%Q) ws ->
  Forall (fun w => (0 <= w)%Q) (firstn i ws).
Proof.
  intros H. revert i.
  induction H as [|w ws Hw _ IH]; intros [|i]; simpl; auto.
Qed.

Lemma draw_weighted_interval (f : Decision.t -> Q)
    (candidates : list Decision.t) :
  forall roll i c,
    Forall (fun w => (0 <= w)%Q) (map f candidates) ->
    nth_error candidates i = Some c ->
    i = 0%nat \/ (cumulative (map f candidates) i < roll)%Q ->
    (roll <= cumulative (map f candidates) (S i))%Q ->
    draw_weighted roll candidates (map f candidates) = Some c.
Proof.
  unfold cumulative.
  induction candidates as [|c0 cs IH]; intros roll i c Hw Hi Hlo Hhi.
  - now destruct i.
  - cbn [map draw_weighted]. inversion Hw as [|w ws Hw0 Hws]; subst.
    destruct i as [|i].
    + injection Hi as <-. cbn [map firstn] in Hhi.
      rewrite total_cons in Hhi. unfold total in Hhi. simpl in Hhi.
      destruct (Qle_bool (roll - f c0) 0) eqn:E; [reflexivity|].
      apply Qle_bool_false in E. lra.
    + destruct Hlo as [|Hlo]; [discriminate|].
      cbn [map firstn] in Hlo, Hhi. rewrite total_cons in Hlo, Hhi.
      pose proof (total_nonneg _ (firstn_nonneg i _ Hws)) as Hn.
      destruct (Qle_bool (roll - f c0) 0) eqn:E.
      * apply Qle_bool_iff in E. lra.
      * apply (IH _ i); [exact Hws|exact Hi|right; lra|lra].
Qed.

Lemma draw_weighted_total (candidates : list Decision.t) :
  forall (weights : list Q) roll,
    candidates <> [] -> length weights = length candidates ->
    (roll <= total weights)%Q ->
    exists c, draw_weighted roll candidates weights = Some c.
Proof.
  induction candidates as [|c0 cs IH]; intros weights roll Hne Hlen Hroll;
    [contradiction|].
  destruct weights as [|w ws]; [discriminate|].
  cbn [draw_weighted]. rewrite total_cons in Hroll.
  destruct (Qle_bool (roll - w) 0) eqn:E; [eauto|].
  apply Qle_bool_false in E.
  destruct cs as [|c1 cs'].
  - destruct ws; [|discriminate]. unfold total in Hroll. simpl in Hroll. lra.
  - apply IH; [discriminate|simpl in *; lia|lra].
Qed.

(** X8. The weighted draw of [selectDecision], for a temperature other
    than 0 and non-negative values of [Math.exp]: the candidate of index
    [i] is returned when the roll, the draw times the sum of the weights,
    exceeds the sum of the first [i] weights and not the sum of the first
    [i + 1].  For a draw of at most 1 the loop always returns, so the
    final [return candidates[0]] is not reached. *)
Theorem softmax_interval exp random first rest temperature :
  Qeq_bool temperature 0 = false ->
  (forall x, 0 <= exp x)%Q ->
  let weights := softmax_weights exp first rest temperature in
  let roll := (random * total weights)%Q in
  (forall i c,
      nth_error (first :: rest) i = Some c ->
      i = 0%nat \/ (cumulative weights i < roll)%Q ->
      (roll <= cumulative weights (S i))%Q ->
      selectDecision exp random (first :: rest) temperature = Some c)
  /\ ((random <= 1)%Q ->
      exists c,
        draw_weighted roll (first :: rest) weights = Some c
        /\ selectDecision exp random (first :: rest) temperature = Some c).
Proof.
  intros Ht Hexp weights roll.
  assert (Hsel : selectDecision exp random (first :: rest) temperature
                 = match draw_weighted roll (first :: rest) weights with
                   | Some c => Some c
                   | None => Some first
                   end).
  { unfold selectDecision. now rewrite Ht. }
  assert (Hw : Forall (fun w => (0 <= w)%Q) weights).
  { apply List.Forall_forall. intros w Hin.
    unfold weights, softmax_weights in Hin.
    apply in_map_iff in Hin as (c & <- & _). apply Hexp. }
  split.
  - intros i c Hi Hlo Hhi. rewrite Hsel.
    unfold weights, softmax_weights in *.
    now rewrite (draw_weighted_interval _ _ roll i c Hw Hi Hlo Hhi).
  - intros Hr.
    destruct (draw_weighted_total (first :: rest) weights roll) as [c Hc].
    + discriminate.
    + unfold weights, softmax_weights. now rewrite length_map.
    + pose proof (total_nonneg _ Hw). unfold roll. nra.
    + exists c. split; [exact Hc|]. now rewrite Hsel, Hc.
Qed.

Lemma softmax_interval_witness :
  selectDecision (fun _ => 1%Q) 0.6%Q
                 [ex_decision "a" 0.9%Q; ex_decision "b" 0.1%Q] 0.3%Q
  = Some (ex_decision "b" 0.1%Q).
Proof.
  apply (proj1 (softmax_interval (fun _ => 1%Q) 0.6%Q (ex_decision "a" 0.9%Q)
                  [ex_decision "b" 0.1%Q] 0.3%Q eq_refl
                  ltac:(intros; discriminate)) 1%nat);
    [reflexivity|right; reflexivity|discriminate].
Defined.

Lemma Math_max_list_ge (xs : list Q) :
  forall x, (x <= Math_max_list x xs)%Q
            /\ Forall (fun y => (y <= Math_max_list x xs)%Q) xs.
Proof.
  unfold Math_max_list.
  induction xs as [|y xs IH]; intros x; simpl; [split; [lra|constructor]|].
  destruct (IH (Math_max x y)) as [H1 H2].
  assert (x <= Math_max x y /\ y <= Math_max x y)%Q as [Hx Hy]
    by (minmax; lra).
  split; [lra|]. constructor; [lra|exact H2].
Qed.

Lemma Math_max_list_In (xs : list Q) :
  forall x, In (Math_max_list x xs) (x :: xs).
Proof.
  unfold Math_max_list.
  induction xs as [|y xs IH]; intros x; simpl; [now left|].
  destruct (IH (Math_max x y)) as [H|H]; [|now right; right].
  rewrite <- H. unfold Math_max. destruct (Qle_bool x y); auto.
Qed.

(** X9. For a positive temperature no exponent passed to [Math.exp] is
    positive, and the exponent of some candidate is 0: the largest
    priority is the priority of a candidate and bounds the others. *)
Theorem softmax_exponents first rest temperature :
  (0 < temperature)%Q ->
  (forall c, In c (first :: rest) ->
             ((Decision.priority c - maxPriority first rest) / temperature
              <= 0)%Q)
  /\ (exists c, In c (first :: rest)
                /\ ((Decision.priority c - maxPriority first rest)
                    / temperature == 0)%Q).
Proof.
  intros Ht. unfold maxPriority.
  destruct (Math_max_list_ge (map Decision.priority rest)
              (Decision.priority first)) as [H1 H2].
  pose proof (Math_max_list_In (map Decision.priority rest)
                (Decision.priority first)) as Hin.
  set (m := Math_max_list _ _) in *.
  split.
  - intros c Hc.
    assert (Decision.priority c <= m)%Q as Hle.
    { destruct Hc as [<-|Hc]; [exact H1|].
      rewrite List.Forall_forall in H2. apply H2. now apply in_map. }
    unfold Qdiv. assert (0 < / temperature)%Q by now apply Qinv_lt_0_compat.
    nra.
  - assert (exists c, In c (first :: rest) /\ Decision.priority c = m)
      as (c & Hc & E).
    { destruct Hin as [E|Hin]; [exists first; split; [now left|exact E]|].
      apply in_map_iff in Hin as (c & E & Hc).
      exists c. split; [now right|exact E]. }
    exists c. split; [exact Hc|]. rewrite E. unfold Qdiv. ring.
Qed.

Lemma softmax_exponents_witness :
  exists c,
    In c [ex_decision "a" 0.1%Q; ex_decision "b" 0.9%Q]
    /\ ((Decision.priority c
         - maxPriority (ex_decision "a" 0.1%Q) [ex_decision "b" 0.9%Q])
        / 0.3 == 0)%Q.
Proof.
  apply (softmax_exponents (ex_decision "a" 0.1%Q) [ex_decision "b" 0.9%Q]
           0.3%Q).
  reflexivity.
Defined.

(** ** The second trigger of collaboration *)

Lemma set_fold_In (l : list string) :
  forall acc x,
    In x (fold_left (fun acc x => if existsb (String.eqb x) acc then acc
                                  else acc ++ [x]) l acc)
    <-> In x acc \/ In x l.
Proof.
  induction l as [|y l IH]; intros acc x; cbn [fold_left].
  - simpl. tauto.
  - rewrite IH. destruct (existsb (String.eqb y) acc) eqn:E.
    + apply existsb_exists in E as (z & Hz & Hyz).
      apply String.eqb_eq in Hyz. subst z. simpl.
      split; [tauto|]. intros [H|[<-|H]]; tauto.
    + rewrite in_app_iff. simpl. tauto.
Qed.

Lemma set_of_list_In (l : list string) (x : string) :
  In x (set_of_list l) <-> In x l.
Proof. unfold set_of_list. rewrite set_fold_In. simpl. tauto. Qed.

Lemma set_fold_NoDup (l : list string) :
  forall acc,
    List.NoDup acc ->
    List.NoDup (fold_left (fun acc x => if existsb (String.eqb x) acc then acc
                                        else acc ++ [x]) l acc).
Proof.
  induction l as [|y l IH]; intros acc Hacc; cbn [fold_left]; [exact Hacc|].
  apply IH. destruct (existsb (String.eqb y) acc) eqn:E; [exact Hacc|].
  apply List.NoDup_app.
  - exact Hacc.
  - constructor; [easy|constructor].
  - intros x Hx [<-|[]].
    apply not_true_iff_false in E. apply E, existsb_exists.
    exists y. split; [exact Hx|apply String.eqb_refl].
Qed.

Lemma set_of_list_NoDup (l : list string) : List.NoDup (set_of_list l).
Proof. apply set_fold_NoDup. constructor. Qed.

(** The set has two elements exactly when the list has two different
    ones. *)
Lemma set_of_list_two (l : list string) :
  (2 <= length (set_of_list l))%nat
  <-> exists x y, In x l /\ In y l /\ x <> y.
Proof.
  pose proof (set_of_list_NoDup l) as Hnd.
  pose proof (set_of_list_In l) as Hin.
  destruct (set_of_list l) as [|x [|y s]].
  - simpl. split; [lia|]. intros (x & _ & Hx & _). now apply Hin in Hx.
  - simpl. split; [lia|]. intros (a & b & Ha & Hb & Hab).
    apply Hin in Ha, Hb. simpl in Ha, Hb.
    destruct Ha as [<-|[]], Hb as [<-|[]]. contradiction.
  - split; [|simpl; lia]. intros _. exists x, y.
    repeat split; try (apply Hin; simpl; tauto).
    intros ->. inversion Hnd as [|? ? Hx _]. apply Hx. now left.
Qed.

Lemma no_shared_find (agents : list Agent.t) :
  find (fun '(_, agentIds) => (2 <=? length agentIds)%nat)
       (groupByRepo agents) = None
  <-> no_shared_repo agents.
Proof.
  unfold no_shared_repo. split.
  - intros Hf r.
    destruct (ids_on r agents) as [|i l] eqn:E; [simpl; lia|].
    assert (Hin : In (r, ids_on r agents) (groupByRepo agents)).
    { apply groupByRepo_exact. split; [reflexivity|]. now rewrite E. }
    pose proof (find_none _ _ Hf _ Hin) as Hlen.
    change ((2 <=? length (ids_on r agents))%nat = false) in Hlen.
    apply Nat.leb_gt in Hlen. now rewrite E in Hlen.
  - intros H.
    destruct (find _ (groupByRepo agents)) as [[r ids]|] eqn:Hf;
      [|reflexivity].
    apply find_some in Hf as (Hin & Hlen). apply Nat.leb_le in Hlen.
    apply groupByRepo_exact in Hin as (-> & _).
    specialize (H r). lia.
Qed.

Lemma complementary_guard (agents : list Agent.t) :
  (3 <=? length (syncedAgents agents))%nat
  && (2 <=? length (set_of_list (map Agent.specialization
                                     (syncedAgents agents))))%nat = true
  <-> complementary agents.
Proof.
  unfold complementary.
  rewrite andb_true_iff, !Nat.leb_le, set_of_list_two.
  apply and_iff_compat_l. split.
  - intros (x & y & Hx & Hy & Hxy).
    apply in_map_iff in Hx as (a & <- & Ha).
    apply in_map_iff in Hy as (b & <- & Hb). eauto.
  - intros (a & b & Ha & Hb & Hab).
    exists (Agent.specialization a), (Agent.specialization b).
    repeat split; [now apply in_map|now apply in_map|exact Hab].
Qed.

(** X10. [detectCollaborativeOpportunity] returns nothing exactly when
    no repository is shared by the current decisions of two agents and
    the agents are not complementary, that is, fewer than three are
    synchronized or all synchronized ones have one specialization.  When
    no repository is shared and the agents are complementary, it
    proposes a project without repository whose participants are all the
    synchronized agents, in their order. *)
Theorem collaboration_of_synced uuid now agents channel memories :
  (detectCollaborativeOpportunity uuid now agents channel memories = None
   <-> no_shared_repo agents /\ ~ complementary agents)
  /\ (no_shared_repo agents -> complementary agents ->
      exists p,
        detectCollaborativeOpportunity uuid now agents channel memories
        = Some p
        /\ Project.participants p = map Agent.id (syncedAgents agents)
        /\ Project.repos p = []
        /\ Project.status p = Project.proposed
        /\ Project.createdAt p = now).
Proof.
  pose proof (no_shared_find agents) as Hfind.
  pose proof (complementary_guard agents) as Hguard.
  unfold detectCollaborativeOpportunity. fold (syncedAgents agents).
  unfold syncedAgents in Hguard |- *.
  destruct (find _ (groupByRepo agents)) as [[r ids]|].
  - split.
    + split; [discriminate|]. intros [H _]. apply Hfind in H. discriminate.
    + intros H. apply Hfind in H. discriminate.
  - cbv zeta.
    destruct (_ && _).
    + split.
      * split; [discriminate|]. intros [_ H]. exfalso. now apply H, Hguard.
      * intros _ _. eexists. split; [reflexivity|]. simpl. auto.
    + split.
      * split; [|reflexivity]. intros _. split; [now apply Hfind|].
        intros H. apply Hguard in H. discriminate.
      * intros _ H. apply Hguard in H. discriminate.
Qed.

Lemma collaboration_of_synced_witness :
  exists p,
    detectCollaborativeOpportunity ex_uuid 0
      [ex_synced "agent-1" "Explorer"; ex_synced "agent-2" "Builder";
       ex_synced "agent-3" "Explorer"] ex_channel []
    = Some p
    /\ Project.participants p = ["agent-1"; "agent-2"; "agent-3"]
    /\ Project.repos p = [].
Proof.
  destruct (proj2 (collaboration_of_synced ex_uuid 0
                     [ex_synced "agent-1" "Explorer";
                      ex_synced "agent-2" "Builder";
                      ex_synced "agent-3" "Explorer"] ex_channel []))
    as (p & Hp & Hpart & Hrepos & _).
  - intros r. vm_compute. lia.
  - split; [vm_compute; lia|].
    exists (ex_synced "agent-1" "Explorer"), (ex_synced "agent-2" "Builder").
    repeat split; [vm_compute; tauto|vm_compute; tauto|discriminate].
  - exists p. auto.
Defined.

(** ** The score and the cost *)

Lemma cost_efficiency_mono (t t' r : Z) :
  0 < r -> t <= t' ->
  (Math_max 0 (1 - inject_Z t' / inject_Z r)
   <= Math_max 0 (1 - inject_Z t / inject_Z r))%Q.
Proof.
  intros Hr Ht.
  assert (inject_Z t / inject_Z r <= inject_Z t' / inject_Z r)%Q as H.
  { unfold Qdiv. apply Qmult_le_compat_r.
    - now rewrite <- Zle_Qle.
    - apply Qlt_le_weak, Qinv_lt_0_compat.
      change 0%Q with (inject_Z 0). now rewrite <- Zlt_Qlt. }
  revert H. generalize (inject_Z t / inject_Z r)%Q.
  generalize (inject_Z t' / inject_Z r)%Q. intros a b H.
  minmax; lra.
Qed.

(** X11. With a positive remaining budget, of two decisions of the same
    kind of action and the same risk the one with the smaller token
    estimate never scores lower. *)
Theorem scoreDecision_cheaper (d d' : Decision.t) (state : Agent.t)
    (channel : Channel.t) :
  0 < Agent.tokenBudget state - Agent.tokensUsed state ->
  Decision.type d = Decision.type d' ->
  Cost.riskLevel (Decision.cost d) = Cost.riskLevel (Decision.cost d') ->
  Cost.estimatedTokens (Decision.cost d)
  <= Cost.estimatedTokens (Decision.cost d') ->
  (scoreDecision d' state channel <= scoreDecision d state channel)%Q.
Proof.
  intros Hr Ht Hrisk Htok.
  rewrite !scoreDecision_spec_score. unfold spec_score.
  rewrite <- Ht, <- Hrisk.
  pose proof (cost_efficiency_mono _ _ _ Hr Htok) as H.
  revert H.
  generalize (Math_max 0
    (1 - inject_Z (Cost.estimatedTokens (Decision.cost d'))
         / inject_Z (Agent.tokenBudget state - Agent.tokensUsed state))).
  generalize (Math_max 0
    (1 - inject_Z (Cost.estimatedTokens (Decision.cost d))
         / inject_Z (Agent.tokenBudget state - Agent.tokensUsed state))).
  intros a b H. lra.
Qed.

Lemma scoreDecision_cheaper_witness :
  (scoreDecision
     (Decision.mk "b" "agent-1" (ExploreTopic "Explorer") 0%Q
                  (Cost.mk 1600 5000 low) pending None 0 None)
     (ex_agent 0) ex_channel
   <= scoreDecision (ex_decision "a" 0%Q) (ex_agent 0) ex_channel)%Q.
Proof.
  apply scoreDecision_cheaper; [reflexivity|reflexivity|reflexivity|].
  simpl. lia.
Defined.

(** ** The decision an engineering step selects *)

Lemma slice_last_slice_last {A} (l : list A) :
  slice_last 5 (slice_last 10 l) = slice_last 5 l.
Proof.
  unfold slice_last. rewrite skipn_skipn, length_skipn. f_equal. lia.
Qed.

Lemma affordable_nil (b : Z) (l : list AgentAction) :
  b < 800 -> affordable b l = [].
Proof.
  intros Hb. unfold affordable. induction l as [|a l IH]; [reflexivity|].
  cbn [List.filter]. pose proof (estimateCost_at_least_800 a).
  destruct (Z.leb_spec (Cost.estimatedTokens (estimateCost a)) b); [lia|].
  exact IH.
Qed.

Lemma offered_nil state channel repos issues thoughts :
  offered state channel repos issues thoughts = []
  <-> Agent.tokenBudget state - Agent.tokensUsed state < 800.
Proof.
  unfold offered. split.
  - intros H. rewrite !affordable_app in H.
    apply app_eq_nil in H as [_ H]. apply app_eq_nil in H as [_ H].
    apply app_eq_nil in H as [_ H]. unfold affordable in H.
    cbn [List.filter] in H.
    change (Cost.estimatedTokens (estimateCost (ExploreTopic _)))
      with 800 in H.
    destruct (Z.leb_spec 800
                (Agent.tokenBudget state - Agent.tokensUsed state));
      [discriminate|assumption].
  - apply affordable_nil.
Qed.

Lemma pool_nil uuid now state channel repos issues thoughts :
  generateCandidateDecisions uuid now state channel repos issues thoughts = []
  <-> Agent.tokenBudget state - Agent.tokensUsed state < 800.
Proof.
  rewrite <- (offered_nil state channel repos issues thoughts).
  rewrite generate_scored. split.
  - intros H.
    pose proof (Permutation_length (sort_by_priority_perm
      (imap (fun k a => scoreCandidate state channel
                          (fresh_decision uuid now state k a))
            (offered state channel repos issues thoughts)))) as Hlen.
    rewrite H, length_imap in Hlen.
    now destruct (offered state channel repos issues thoughts).
  - intros ->. reflexivity.
Qed.

(** X26. The selection of an engineering step.  The pool generated from
    the last ten thoughts is the pool generated from all of them, since
    only the last five are read.  [selectDecision] returns nothing from
    the pool exactly when the remaining budget is below 800 tokens; the
    decision it returns otherwise is a pending decision of the agent
    whose estimated tokens fit the remaining budget, whose priority is
    its score, and whose risk is not high. *)
Theorem engineering_selection uuid now exp random temperature
    (state : Agent.t) (channel : Channel.t) (repos : list Repo.t)
    (issues : list Issue.t) (thoughts : list Thought.t) :
  let pool :=
    generateCandidateDecisions uuid now state channel repos issues
                               (slice_last 10 thoughts) in
  pool = generateCandidateDecisions uuid now state channel repos issues
                                    thoughts
  /\ (selectDecision exp random pool temperature = None
      <-> Agent.tokenBudget state - Agent.tokensUsed state < 800)
  /\ (forall d,
        selectDecision exp random pool temperature = Some d ->
        Decision.status d = pending
        /\ Decision.agentId d = Agent.id state
        /\ Cost.estimatedTokens (Decision.cost d)
           <= Agent.tokenBudget state - Agent.tokensUsed state
        /\ Decision.priority d = scoreDecision d state channel
        /\ Cost.riskLevel (Decision.cost d) <> high).
Proof.
  cbv zeta.
  assert (E : generateCandidateDecisions uuid now state channel repos issues
                (slice_last 10 thoughts)
              = generateCandidateDecisions uuid now state channel repos
                  issues thoughts).
  { unfold generateCandidateDecisions, collectCandidates, fromThoughts.
    now rewrite slice_last_slice_last. }
  rewrite E. split; [reflexivity|]. split.
  - rewrite <- (pool_nil uuid now state channel repos issues thoughts).
    apply selectDecision_None.
  - intros d Hd. apply selectDecision_In in Hd.
    pose proof (pool_types uuid now state channel repos issues thoughts) as Ht.
    rewrite List.Forall_forall in Ht. specialize (Ht d Hd).
    apply generate_pushed in Hd as (_ & Hc & Hb & Hp & Hs & Ha).
    repeat split; try assumption.
    rewrite Hc. unfold Decision.type in Ht.
    destruct (Decision.action d); simpl in Ht |- *;
      intuition discriminate.
Qed.

(* ===================================================================== *)
(** * Further properties of the agent state machine *)
(* ===================================================================== *)

(** ** Personalities *)

Lemma clamp_preset (x r : Q) :
  (0 <= x <= 0.9)%Q -> (0 <= r < 1)%Q ->
  (clamp01 (x + clamp01 ((r - 0.5) * 0.1)) == perturbed x r)%Q
  /\ (x <= clamp01 (x + clamp01 ((r - 0.5) * 0.1)) < x + 0.05)%Q.
Proof. intros Hx Hr. unfold perturbed. minmax; repeat split; lra. Qed.

(** X12. [generatePersonality] takes four draws and returns the name of
    the preset [index % 3] with its traits perturbed upwards only: each
    trait is the preset's plus [max(0, (r - 0.5) * 0.1)] for its draw
    [r], hence at least the preset's and less than 0.05 above it.  The
    presets repeat with period 3. *)
Theorem generatePersonality_perturbs (index : nat) (rnd : nat -> Q)
    (n : nat) :
  (forall k, (0 <= rnd k < 1)%Q) ->
  let preset := snd (PERSONALITY_PRESETS index) in
  exists p,
    generatePersonality index rnd n
    = Some (fst (PERSONALITY_PRESETS index), p, (4 + n)%nat)
    /\ (Personality.curiosity p
        == perturbed (Personality.curiosity preset) (rnd n))%Q
    /\ (Personality.diligence p
        == perturbed (Personality.diligence preset) (rnd (1 + n)%nat))%Q
    /\ (Personality.boldness p
        == perturbed (Personality.boldness preset) (rnd (2 + n)%nat))%Q
    /\ (Personality.sociability p
        == perturbed (Personality.sociability preset) (rnd (3 + n)%nat))%Q
    /\ (Personality.curiosity preset <= Personality.curiosity p
        < Personality.curiosity preset + 0.05)%Q
    /\ PERSONALITY_PRESETS (index + 3) = PERSONALITY_PRESETS index.
Proof.
  intros Hrnd preset. eexists. split; [reflexivity|].
  cbn [Personality.curiosity Personality.diligence Personality.boldness
       Personality.sociability].
  assert (Hp : (0 <= Personality.curiosity preset <= 0.9
                /\ 0 <= Personality.diligence preset <= 0.9
                /\ 0 <= Personality.boldness preset <= 0.9
                /\ 0 <= Personality.sociability preset <= 0.9)%Q).
  { unfold preset, PERSONALITY_PRESETS.
    destruct (index mod 3)%nat as [|[|]]; simpl; repeat split; lra. }
  destruct Hp as (Hc & Hd & Hb & Hs).
  destruct (clamp_preset _ _ Hc (Hrnd n)) as [Ec Rc].
  destruct (clamp_preset _ _ Hd (Hrnd (1 + n)%nat)) as [Ed _].
  destruct (clamp_preset _ _ Hb (Hrnd (2 + n)%nat)) as [Eb _].
  destruct (clamp_preset _ _ Hs (Hrnd (3 + n)%nat)) as [Es _].
  repeat split; try assumption; try apply Rc.
  unfold PERSONALITY_PRESETS.
  replace (index + 3)%nat with (index + 1 * 3)%nat by lia.
  now rewrite Nat.Div0.mod_add.
Qed.

Lemma generatePersonality_perturbs_witness :
  exists p,
    generatePersonality 1 (fun _ => 0.25%Q) 0%nat
    = Some ("Synthesizer", p, 4%nat)
    /\ (Personality.curiosity p == 0.7)%Q.
Proof.
  destruct (generatePersonality_perturbs 1 (fun _ => 0.25%Q) 0%nat)
    as (p & Hp & Hc & _).
  - intros k. split; [discriminate|reflexivity].
  - exists p. split; [exact Hp|]. rewrite Hc. reflexivity.
Defined.

(** ** Synchronization *)

Lemma checkSync_cases (this : Agent.t) (channel : Channel.t) :
  checkSync this channel = this
  \/ (Agent.synchronized this = false
      /\ checkSync this channel
         = Agent.set_base
             (Base.set_energy 1%Q
                (Base.set_synchronized true (Agent.base this))) this).
Proof.
  unfold checkSync. destruct (Agent.synchronized this); [now left|].
  destruct (_ && _ && _); [now right|now left].
Qed.

Lemma Agent_eta (this : Agent.t) :
  this
  = Agent.set_base
      (Base.set_energy (Agent.energy this)
         (Base.set_synchronized (Agent.synchronized this) (Agent.base this)))
      this.
Proof. now destruct this as [[] ]. Qed.

(** X13. [checkSync] is idempotent, and a synchronized agent stays as it
    is whatever the channel becomes.  It changes the synchronized flag
    and the energy only, and never lowers an energy of at most 1. *)
Theorem checkSync_settles (this : Agent.t) (channel : Channel.t) :
  checkSync (checkSync this channel) channel = checkSync this channel
  /\ (forall channel',
         Agent.synchronized (checkSync this channel) = true ->
         checkSync (checkSync this channel) channel'
         = checkSync this channel)
  /\ checkSync this channel
     = Agent.set_base
         (Base.set_energy (Agent.energy (checkSync this channel))
            (Base.set_synchronized
               (Agent.synchronized (checkSync this channel))
               (Agent.base this))) this
  /\ ((Agent.energy this <= 1)%Q ->
      (Agent.energy this <= Agent.energy (checkSync this channel))%Q).
Proof.
  destruct (checkSync_cases this channel) as [E|[Hs E]]; rewrite E.
  - split; [exact E|split; [|split]].
    + intros channel' H. now apply checkSync_synchronized.
    + apply Agent_eta.
    + intros _. lra.
  - split; [|split; [|split]].
    + now apply checkSync_synchronized.
    + intros channel' H. now apply checkSync_synchronized.
    + reflexivity.
    + intros He. exact He.
Qed.

(** ** The bookkeeping of absorption *)

Lemma absorb_one_step (this : Agent.t) (p : Pheromone.t) rnd n
    this' p' took n' :
  absorb_one this p rnd n = Some (this', p', took, n') ->
  (took = false /\ this' = this /\ p' = p /\ (n <= n' <= S n)%nat)
  \/ (took = true /\ p' = boosted p /\ n' = S n
      /\ Pheromone.agentId p <> Agent.id this
      /\ (Pheromone.id p ∉ Agent.absorbed this)
      /\ (0.2 < Pheromone.strength p)%Q
      /\ this'
         = Agent.set_base
             (Base.set_energy (boost_energy (Agent.energy this))
                (Base.set_absorbed (Agent.absorbed this ∪ {[Pheromone.id p]})
                   (Agent.base this))) this).
Proof.
  unfold absorb_one.
  destruct (String.eqb_spec (Pheromone.agentId p) (Agent.id this));
    [intros [= <- <- <- <-]; left; repeat split; lia|].
  destruct (bool_decide _) eqn:Habs;
    [intros [= <- <- <- <-]; left; repeat split; lia|].
  destruct (Qltb 0.2 _) eqn:Hs;
    [|intros [= <- <- <- <-]; left; repeat split; lia].
  unfold Rand.bind, Rand.random.
  destruct (Qltb (rnd n) _); intros [= <- <- <- <-];
    [right|left; repeat split; lia].
  apply bool_decide_eq_false in Habs. apply Qltb_lt in Hs.
  repeat split; assumption.
Qed.

Lemma forget_absorbed (this : Agent.t) (e : Q) (a : gset string) :
  forget_absorption
    (Agent.set_base
       (Base.set_energy e (Base.set_absorbed a (Agent.base this))) this)
  = forget_absorption this.
Proof. reflexivity. Qed.

Lemma forget_absorption_eq (this this' : Agent.t) :
  forget_absorption this' = forget_absorption this ->
  this'
  = Agent.set_base
      (Base.set_energy (Agent.energy this')
         (Base.set_absorbed (Agent.absorbed this') (Agent.base this))) this.
Proof.
  destruct this as [[] ], this' as [[] ].
  unfold forget_absorption. simpl. intros [= -> -> -> -> -> -> -> -> -> ->
    -> -> -> -> -> -> -> -> -> -> ->]. reflexivity.
Qed.

Lemma absorb_loop_spec (ps : list Pheromone.t) :
  forall this rnd n this' ps' absorbed n',
    absorb_loop this ps rnd n = Some (this', ps', absorbed, n') ->
    Agent.absorbed this'
    = Agent.absorbed this ∪ list_to_set (map Pheromone.id absorbed)
    /\ Agent.energy this'
       = Nat.iter (length absorbed) boost_energy (Agent.energy this)
    /\ forget_absorption this' = forget_absorption this
    /\ Forall2 (fun p p' => p' = p \/ p' = boosted p /\ In p' absorbed) ps ps'
    /\ Forall (fun p' =>
                 In p' ps'
                 /\ Pheromone.agentId p' <> Agent.id this
                 /\ (Pheromone.id p' ∉ Agent.absorbed this)
                 /\ exists p, In p ps /\ p' = boosted p
                              /\ (0.2 < Pheromone.strength p)%Q) absorbed
    /\ List.NoDup (map Pheromone.id absorbed)
    /\ (n + length absorbed <= n' <= n + length ps)%nat.
Proof.
  induction ps as [|p ps IH]; cbn [absorb_loop];
    intros this rnd n this' ps' absorbed n' H.
  - apply ret_Some in H as [[= <- <- <-] <-]. simpl.
    repeat split; try constructor; try lia.
    now rewrite union_empty_r_L.
  - apply bind_Some in H as ([[this1 p1] took] & n1 & H1 & H).
    apply bind_Some in H as ([[this2 ps2] abs2] & n2 & H2 & H).
    apply ret_Some in H as [[= <- <- <-] <-].
    apply IH in H2 as (Ha & He & Hf & Hps & Habs & Hnd & Hn).
    assert (Hmono : Forall2 (fun p p' => p' = p \/ p' = boosted p
                                         /\ In p' (p1 :: abs2)) ps ps2).
    { eapply Forall2_impl; [exact Hps|]. simpl. intros x y [|[]]; auto. }
    apply absorb_one_step in H1
      as [(-> & -> & -> & Hn1)
         |(-> & -> & -> & Hown & Hnew & Hs & ->)].
    + repeat split; try assumption; try (simpl; lia).
      * constructor; [now left|exact Hps].
      * eapply List.Forall_impl; [|exact Habs].
        intros q (Hq1 & Hq2 & Hq3 & q0 & Hq4 & Hq5).
        repeat split; try assumption; [now right|].
        exists q0. split; [now right|exact Hq5].
    + cbn [Agent.absorbed Agent.energy Agent.id Agent.set_base Agent.base
           Base.absorbed Base.energy Base.set_energy Base.set_absorbed
           Base.id] in *.
      fold (Agent.absorbed this) in *. fold (Agent.energy this) in *.
      fold (Agent.id this) in *.
      split; [|split; [|split; [|split; [|split; [|split]]]]].
      * rewrite Ha. cbn [map list_to_set]. now rewrite union_assoc_L.
      * rewrite He. cbn [length]. now rewrite Nat.iter_succ_r.
      * exact Hf.
      * constructor; [right; split; [reflexivity|now left]|exact Hmono].
      * constructor.
        -- repeat split; [now left|exact Hown|exact Hnew|].
           exists p. repeat split; [now left|exact Hs].
        -- eapply List.Forall_impl; [|exact Habs].
           intros q (Hq1 & Hq2 & Hq3 & q0 & Hq4 & Hq5).
           repeat split; try assumption; [now right| |].
           ++ intros Hin. apply Hq3, elem_of_union. now left.
           ++ exists q0. split; [now right|exact Hq5].
      * cbn [map]. constructor; [|exact Hnd].
        intros Hin. apply in_map_iff in Hin as (q & Hq & Hin).
        rewrite List.Forall_forall in Habs.
        destruct (Habs q Hin) as (_ & _ & Hq3 & _).
        apply Hq3, elem_of_union. right. apply elem_of_singleton.
        exact Hq.
      * cbn [length]. lia.
Qed.

Lemma boost_energy_iter (k : nat) (e : Q) :
  (e <= 1)%Q ->
  (e <= Nat.iter k boost_energy e <= 1)%Q.
Proof.
  intros He. induction k as [|k IH]; [simpl; lra|].
  rewrite Nat.iter_succ. set (x := Nat.iter k boost_energy e) in *.
  unfold boost_energy. minmax; lra.
Qed.

(** X14. What [absorbPheromones] does to the agent: it adds to the
    absorbed set the ids of the pheromones it returns, which are new and
    distinct, so that the set grows by their number; it raises the
    energy by 0.05, capped at 1, once for each of them; it changes
    nothing else; and it draws at least once for each pheromone returned
    and at most once for each pheromone of the channel. *)
Theorem absorb_agent_bookkeeping (this : Agent.t) (channel : Channel.t)
    (rnd : nat -> Q) (n : nat) this' channel' absorbed n' :
  absorbPheromones this channel rnd n = Some (this', channel', absorbed, n') ->
  Agent.absorbed this'
  = Agent.absorbed this ∪ list_to_set (map Pheromone.id absorbed)
  /\ size (Agent.absorbed this')
     = (size (Agent.absorbed this) + length absorbed)%nat
  /\ Agent.energy this'
     = Nat.iter (length absorbed) boost_energy (Agent.energy this)
  /\ ((Agent.energy this <= 1)%Q ->
      (Agent.energy this <= Agent.energy this' <= 1)%Q)
  /\ this'
     = Agent.set_base
         (Base.set_energy (Agent.energy this')
            (Base.set_absorbed (Agent.absorbed this') (Agent.base this)))
         this
  /\ (n + length absorbed <= n'
      <= n + length (Channel.pheromones channel))%nat.
Proof.
  unfold absorbPheromones. intros H.
  apply bind_Some in H as ([[this1 ps1] abs1] & n1 & H1 & H).
  apply ret_Some in H as [[= <- <- <-] <-].
  apply absorb_loop_spec in H1 as (Ha & He & Hf & _ & Habs & Hnd & Hn).
  split; [exact Ha|]. split; [|split; [exact He|split; [|split]]].
  - rewrite Ha, size_union.
    + rewrite size_list_to_set, length_map; [reflexivity|].
      now apply NoDup_ListNoDup.
    + apply elem_of_disjoint. intros x Hx Hin.
      apply elem_of_list_to_set, list_elem_of_In, in_map_iff in Hin
        as (q & <- & Hq).
      rewrite List.Forall_forall in Habs.
      now destruct (Habs q Hq) as (_ & _ & Hq3 & _).
  - intros Hle. rewrite He. now apply boost_energy_iter.
  - now apply forget_absorption_eq.
  - exact Hn.
Qed.

Lemma absorb_agent_bookkeeping_witness :
  exists this' channel' absorbed n',
    absorbPheromones (ex_absorber ∅)
      (Channel.set_pheromones [ex_pheromone "p1" "agent-2" 0.95%Q] ex_channel)
      (fun _ => 0%Q) 0%nat
    = Some (this', channel', absorbed, n')
    /\ size (Agent.absorbed this') = (0 + length absorbed)%nat
    /\ absorbed <> [].
Proof.
  destruct (absorbPheromones (ex_absorber ∅)
              (Channel.set_pheromones [ex_pheromone "p1" "agent-2" 0.95%Q]
                                      ex_channel)
              (fun _ => 0%Q) 0%nat)
    as [[[[this' channel'] absorbed] n']|] eqn:E;
    [|vm_compute in E; discriminate].
  exists this', channel', absorbed, n'. split; [reflexivity|].
  split; [apply (absorb_agent_bookkeeping _ _ _ _ _ _ _ _ E)|].
  intros ->. vm_compute in E. discriminate.
Defined.

(** X15. What [absorbPheromones] does to the channel: it changes the
    list of pheromones only, keeps their number and their order, and
    leaves each pheromone as it is or raises its strength by 0.1, capped
    at 1.  The pheromones raised are the ones returned: each was emitted
    by another agent, was not absorbed before, was of strength above
    0.2, and is returned in its state after the call; no id is returned
    twice. *)
Theorem absorb_channel_bookkeeping (this : Agent.t) (channel : Channel.t)
    (rnd : nat -> Q) (n : nat) this' channel' absorbed n' :
  absorbPheromones this channel rnd n = Some (this', channel', absorbed, n') ->
  channel' = Channel.set_pheromones (Channel.pheromones channel') channel
  /\ Forall2 (fun p p' => p' = p \/ p' = boosted p /\ In p' absorbed)
             (Channel.pheromones channel) (Channel.pheromones channel')
  /\ Forall (fun p' =>
               In p' (Channel.pheromones channel')
               /\ Pheromone.agentId p' <> Agent.id this
               /\ (Pheromone.id p' ∉ Agent.absorbed this)
               /\ exists p, In p (Channel.pheromones channel)
                            /\ p' = boosted p
                            /\ (0.2 < Pheromone.strength p)%Q) absorbed
  /\ List.NoDup (map Pheromone.id absorbed).
Proof.
  unfold absorbPheromones. intros H.
  apply bind_Some in H as ([[this1 ps1] abs1] & n1 & H1 & H).
  apply ret_Some in H as [[= <- <- <-] <-].
  apply absorb_loop_spec in H1 as (_ & _ & _ & Hps & Habs & Hnd & _).
  repeat split; assumption.
Qed.

Lemma absorb_channel_bookkeeping_witness :
  exists this' channel' absorbed n',
    absorbPheromones (ex_absorber ∅)
      (Channel.set_pheromones
         [ex_pheromone "p1" "agent-2" 0.95%Q;
          ex_pheromone "p1" "agent-2" 0.95%Q] ex_channel)
      (fun _ => 0%Q) 0%nat
    = Some (this', channel', absorbed, n')
    /\ List.NoDup (map Pheromone.id absorbed)
    /\ length absorbed = 1%nat.
Proof.
  destruct (absorbPheromones (ex_absorber ∅)
              (Channel.set_pheromones
                 [ex_pheromone "p1" "agent-2" 0.95%Q;
                  ex_pheromone "p1" "agent-2" 0.95%Q] ex_channel)
              (fun _ => 0%Q) 0%nat)
    as [[[[this' channel'] absorbed] n']|] eqn:E;
    [|vm_compute in E; discriminate].
  exists this', channel', absorbed, n'. split; [reflexivity|].
  split; [apply (absorb_channel_bookkeeping _ _ _ _ _ _ _ _ E)|].
  vm_compute in E. now injection E as <- <- <- <-.
Defined.

(** ** Movement *)

Lemma attract_total (this : Agent.t) (ps : list Pheromone.t) :
  forall v rnd n,
  exists v' n',
    attract this ps v rnd n = Some (v', n')
    /\ (n <= n' <= n + 2 * length ps)%nat.
Proof.
  induction ps as [|p ps IH]; intros v rnd n; cbn [attract].
  - exists v, n. split; [reflexivity|simpl; lia].
  - destruct (String.eqb _ _);
      [destruct (IH v rnd n) as (v' & n' & E & Hn); exists v', n';
       split; [exact E|cbn [length]; lia]|].
    destruct (bool_decide _);
      [destruct (IH v rnd n) as (v' & n' & E & Hn); exists v', n';
       split; [exact E|cbn [length]; lia]|].
    destruct (Qltb 0.5 _);
      [|destruct (IH v rnd n) as (v' & n' & E & Hn); exists v', n';
        split; [exact E|cbn [length]; lia]].
    unfold Rand.bind, Rand.random.
    match goal with
    | |- context [attract this ps ?w rnd ?m] =>
        destruct (IH w rnd m) as (v' & n' & E & Hn)
    end.
    exists v', n'. split; [exact E|cbn [length]; lia].
Qed.


(** X16. [move] always completes and leaves the agent inside the box
    [50..950] by [50..750], whatever its position, its velocity and the
    channel were; it changes the position and the velocity only.  A
    synchronized agent moves without a draw; another one draws twice,
    and twice more for each pheromone of the channel at most. *)
Theorem move_keeps_bounds (this : Agent.t) (channel : Channel.t)
    (rnd : nat -> Q) (n : nat) :
  exists this' n',
    move this channel rnd n = Some (this', n')
    /\ (50 <= fst (Base.position (Agent.base this')) <= 950)%Q
    /\ (50 <= snd (Base.position (Agent.base this')) <= 750)%Q
    /\ this'
       = Agent.set_base
           (set_position (Base.position (Agent.base this'))
              (set_velocity (Base.velocity (Agent.base this'))
                 (Agent.base this))) this
    /\ (if Agent.synchronized this then n' = n
        else (n + 2 <= n'
              <= n + 2 + 2 * length (Channel.pheromones channel))%nat).
Proof.
  unfold move, Agent.synchronized.
  destruct (Base.synchronized (Agent.base this)).
  - eexists _, _. split; [reflexivity|]. cbn.
    repeat split; minmax; lra.
  - unfold Rand.bind at 1. unfold Rand.bind at 1. unfold Rand.random at 1.
    unfold Rand.bind at 1. unfold Rand.random at 1.
    match goal with
    | |- context [attract this ?ps ?w rnd ?m] =>
        destruct (attract_total this ps w rnd m) as ([dx dy] & n' & E & Hn)
    end.
    rewrite E. eexists _, _. split; [reflexivity|]. cbn.
    repeat split; try (minmax; lra); lia.
Qed.

(** X17. The motion of a synchronized agent depends neither on the
    channel nor on the draws, and the collective center is its resting
    point: an agent at [(500, 400)] with no velocity stays there. *)
Theorem move_synchronized (this : Agent.t) (channel : Channel.t)
    (rnd : nat -> Q) (n : nat) :
  Agent.synchronized this = true ->
  (forall channel' rnd',
      move this channel' rnd' n = move this channel rnd n)
  /\ ((fst (Base.position (Agent.base this)) == 500)%Q ->
      (snd (Base.position (Agent.base this)) == 400)%Q ->
      (fst (Base.velocity (Agent.base this)) == 0)%Q ->
      (snd (Base.velocity (Agent.base this)) == 0)%Q ->
      exists this',
        move this channel rnd n = Some (this', n)
        /\ (fst (Base.position (Agent.base this')) == 500)%Q
        /\ (snd (Base.position (Agent.base this')) == 400)%Q
        /\ (fst (Base.velocity (Agent.base this')) == 0)%Q
        /\ (snd (Base.velocity (Agent.base this')) == 0)%Q).
Proof.
  unfold move, Agent.synchronized. intros ->. split; [reflexivity|].
  intros Hx Hy Hdx Hdy. eexists. split; [reflexivity|]. cbn.
  repeat split; minmax; lra.
Qed.

Lemma move_synchronized_witness :
  exists this',
    move (ex_synced "agent-1" "Explorer") ex_channel (fun _ => 0%Q) 0%nat
    = Some (this', 0%nat)
    /\ (fst (Base.position (Agent.base this')) == 500)%Q
    /\ (snd (Base.position (Agent.base this')) == 400)%Q.
Proof.
  destruct (proj2 (move_synchronized (ex_synced "agent-1" "Explorer")
                     ex_channel (fun _ => 0%Q) 0%nat eq_refl))
    as (this' & E & Hx & Hy & _); try reflexivity.
  exists this'. auto.
Defined.

(** ** What exploration changes *)

Lemma explore_cross_explored discoverRepos insights this target absorbed
    rnd n this' content domain connections confidence n' :
  explore_cross discoverRepos insights this target absorbed rnd n
  = Some (this', content, domain, connections, confidence, n') ->
  explored this this' absorbed domain connections confidence.
Proof.
  intros H. unfold explore_cross in H.
  apply bind_Some in H as (r & n1 & _ & H).
  apply bind_Some in H as (source & n2 & Hsrc & H).
  apply lift_Some in Hsrc as [Hsrc _]. apply pick_In in Hsrc.
  cbv zeta in H.
  apply bind_Some in H as ([this2 content2] & n3 & H2 & H).
  apply ret_Some in H as [[= <- _ <- <- <-] _].
  right. exists source, this2. repeat split; try assumption; try reflexivity.
  destruct (discoverRepos _ 3 None) as [|repo repos].
  - apply bind_Some in H2 as (c & n4 & _ & H2).
    apply ret_Some in H2 as [[= <- _] _]. now left.
  - apply ret_Some in H2 as [[= <- _] _]. right. now exists repo.
Qed.

Lemma explore_independent_explored discoverRepos discoveryTopics discoveries
    this absorbed rnd n this' content domain connections confidence n' :
  explore_independent discoverRepos discoveryTopics discoveries this
    (Agent.explorationTarget (SwarmAgent.state this)) rnd n
  = Some (this', content, domain, connections, confidence, n') ->
  explored this this' absorbed domain connections confidence.
Proof.
  intros H. unfold explore_independent in H.
  apply bind_Some in H as (r1 & n1 & _ & H).
  apply bind_Some in H as (topic & n2 & _ & H).
  apply bind_Some in H as (r2 & n3 & _ & H).
  cbv zeta in H. left.
  destruct (discoverRepos topic 5 (Some 10)) as [|repo repos].
  - apply bind_Some in H as (c & n4 & _ & H).
    apply bind_Some in H as (r3 & n5 & _ & H).
    apply ret_Some in H as [[= <- _ <- <- _] _].
    repeat split. now left.
  - apply bind_Some in H as (r3 & n4 & _ & H).
    apply bind_Some in H as (repo' & n5 & _ & H).
    apply ret_Some in H as [[= <- _ <- <- _] _].
    repeat split. right. now exists repo'.
Qed.

(** The outcomes of [explore]. *)
Lemma explore_inv uuid now hash discoverRepos discoveryTopics insights
    discoveries this absorbed rnd n this' o n' :
  explore uuid now hash discoverRepos discoveryTopics insights discoveries
          this absorbed rnd n
  = Some (this', o, n') ->
  (o = None /\ this' = exploring this /\ n' = S n)
  \/ (exists this1 content domain connections confidence,
         explored (exploring this) this1 absorbed domain connections
                  confidence
         /\ let id := Agent.id (SwarmAgent.state this1) in
            let p :=
              Pheromone.mk (uuid 0%nat) id content domain confidence
                (0.5 + confidence * 0.3)%Q connections now
                (hash (content ++ id ++ show_Z now)%string) None in
            o = Some p
            /\ this' = SwarmAgent.set_state
                         (record_discovery p (SwarmAgent.state this1)) this1).
Proof.
  intros H. unfold explore in H. cbv zeta in H. fold (exploring this) in H.
  apply bind_Some in H as (r & n1 & Hr & H).
  apply random_Some in Hr as [-> ->].
  destruct (Qltb _ (rnd n)).
  { apply ret_Some in H as [[= <- <-] <-]. now left. }
  right.
  apply bind_Some in H as (cross & n2 & _ & H).
  apply bind_Some in H
    as ([[[[this1 content] domain] connections] confidence] & n3 & Hbr & H).
  apply ret_Some in H as [[= <- <-] _].
  exists this1, content, domain, connections, confidence.
  split; [|cbv zeta; split; reflexivity].
  destruct cross.
  - eapply explore_cross_explored, Hbr.
  - eapply explore_independent_explored, Hbr.
Qed.

Lemma forget_remembered (this this' : SwarmAgent.t) :
  remembered this this' -> forget_exploration this' = forget_exploration this.
Proof.
  intros [->|(repo & ->)]; [reflexivity|].
  unfold remember_repo. now destruct (existsb _ _).
Qed.

Lemma forget_explored this0 this1 absorbed domain connections confidence :
  explored this0 this1 absorbed domain connections confidence ->
  forget_exploration this1 = forget_exploration this0.
Proof.
  intros [(_ & _ & H)|(source & this2 & _ & _ & _ & _ & H & ->)].
  - now apply forget_remembered.
  - rewrite <- (forget_remembered _ _ H).
    now destruct (Qltb 0.6 _).
Qed.

Lemma explore_forgets uuid now hash discoverRepos discoveryTopics insights
    discoveries this absorbed rnd n this' o n' :
  explore uuid now hash discoverRepos discoveryTopics insights discoveries
          this absorbed rnd n
  = Some (this', o, n') ->
  forget_exploration this' = forget_exploration this.
Proof.
  intros H. apply explore_inv in H.
  destruct H as [(_ & -> & _)
                |(this1 & content & domain & connections & confidence
                  & Hex & _ & ->)]; [reflexivity|].
  apply forget_explored in Hex.
  change (forget_exploration (exploring this))
    with (forget_exploration this) in Hex.
  rewrite <- Hex. reflexivity.
Qed.

(** X18. [explore] sets the current action to "exploring github" and
    otherwise changes only the knowledge, the count of discoveries, the
    exploration target and the discovered repositories: tokens, energy,
    absorbed set, synchronization and identity are as before.  When it
    returns nothing it has drawn once and changed nothing else; when it
    returns a pheromone, that pheromone is the agent's own, carries the
    first identifier and the current time, has strength
    [0.5 + confidence * 0.3], and is appended to the knowledge, the
    count of discoveries growing by one. *)
Theorem explore_frame uuid now hash discoverRepos discoveryTopics insights
    discoveries this absorbed rnd n this' o n' :
  explore uuid now hash discoverRepos discoveryTopics insights discoveries
          this absorbed rnd n
  = Some (this', o, n') ->
  forget_exploration this' = forget_exploration this
  /\ Agent.currentAction (SwarmAgent.state this') = "exploring github"
  /\ Agent.tokensUsed (SwarmAgent.state this')
     = Agent.tokensUsed (SwarmAgent.state this)
  /\ Agent.absorbed (SwarmAgent.state this')
     = Agent.absorbed (SwarmAgent.state this)
  /\ Agent.energy (SwarmAgent.state this')
     = Agent.energy (SwarmAgent.state this)
  /\ Agent.synchronized (SwarmAgent.state this')
     = Agent.synchronized (SwarmAgent.state this)
  /\ match o with
     | None => this' = exploring this /\ n' = S n
     | Some p =>
         Base.knowledge (Agent.base (SwarmAgent.state this'))
         = Base.knowledge (Agent.base (SwarmAgent.state this)) ++ [p]
         /\ Base.discoveries (Agent.base (SwarmAgent.state this'))
            = Base.discoveries (Agent.base (SwarmAgent.state this)) + 1
         /\ Pheromone.agentId p = Agent.id (SwarmAgent.state this)
         /\ Pheromone.id p = uuid 0%nat
         /\ Pheromone.timestamp p = now
         /\ Pheromone.strength p = (0.5 + Pheromone.confidence p * 0.3)%Q
         /\ Pheromone.engineering p = None
     end.
Proof.
  intros H. apply explore_inv in H.
  assert (Hf : forget_exploration this' = forget_exploration this
               /\ Agent.currentAction (SwarmAgent.state this')
                  = "exploring github"
               /\ match o with
                  | None => this' = exploring this /\ n' = S n
                  | Some p =>
                      Base.knowledge (Agent.base (SwarmAgent.state this'))
                      = Base.knowledge (Agent.base (SwarmAgent.state this))
                        ++ [p]
                      /\ Base.discoveries
                           (Agent.base (SwarmAgent.state this'))
                         = Base.discoveries
                             (Agent.base (SwarmAgent.state this)) + 1
                      /\ Pheromone.agentId p = Agent.id (SwarmAgent.state this)
                      /\ Pheromone.id p = uuid 0%nat
                      /\ Pheromone.timestamp p = now
                      /\ Pheromone.strength p
                         = (0.5 + Pheromone.confidence p * 0.3)%Q
                      /\ Pheromone.engineering p = None
                  end).
  { destruct H as [(-> & -> & ->)
                  |(this1 & content & domain & connections & confidence
                    & Hex & Ho & ->)].
    - repeat split; reflexivity.
    - subst o. pose proof (forget_explored _ _ _ _ _ _ Hex) as Hf.
      change (forget_exploration (exploring this))
        with (forget_exploration this) in Hf.
      split; [rewrite <- Hf; reflexivity|].
      assert (Hsame :
        Agent.currentAction (SwarmAgent.state this1) = "exploring github"
        /\ Base.knowledge (Agent.base (SwarmAgent.state this1))
           = Base.knowledge (Agent.base (SwarmAgent.state this))
        /\ Base.discoveries (Agent.base (SwarmAgent.state this1))
           = Base.discoveries (Agent.base (SwarmAgent.state this))
        /\ Agent.id (SwarmAgent.state this1)
           = Agent.id (SwarmAgent.state this)).
      { assert (Hrem : forall a b, remembered a b ->
                  Agent.currentAction (SwarmAgent.state b)
                  = Agent.currentAction (SwarmAgent.state a)
                  /\ Base.knowledge (Agent.base (SwarmAgent.state b))
                     = Base.knowledge (Agent.base (SwarmAgent.state a))
                  /\ Base.discoveries (Agent.base (SwarmAgent.state b))
                     = Base.discoveries (Agent.base (SwarmAgent.state a))
                  /\ Agent.id (SwarmAgent.state b)
                     = Agent.id (SwarmAgent.state a)).
        { intros a b [->|(repo & ->)]; [auto|].
          unfold remember_repo. destruct (existsb _ _); auto. }
        destruct Hex as [(_ & _ & Hr)
                        |(source & this2 & _ & _ & _ & _ & Hr & ->)];
          apply Hrem in Hr as (H1 & H2 & H3 & H4).
        - auto.
        - destruct (Qltb 0.6 _); auto. }
      destruct Hsame as (H1 & H2 & H3 & H4). cbn.
      rewrite H2, H3, H4. repeat split; try reflexivity. exact H1. }
  destruct Hf as (Hf & Hact & Ho).
  split; [exact Hf|]. split; [exact Hact|].
  split; [exact (f_equal (fun a => Agent.tokensUsed (SwarmAgent.state a)) Hf)|].
  split; [exact (f_equal (fun a => Agent.absorbed (SwarmAgent.state a)) Hf)|].
  split; [exact (f_equal (fun a => Agent.energy (SwarmAgent.state a)) Hf)|].
  split; [|exact Ho].
  exact (f_equal (fun a => Agent.synchronized (SwarmAgent.state a)) Hf).
Qed.

Lemma explore_frame_witness :
  exists this' p n',
    explore ex_uuid 0 (fun s => s) (fun _ _ _ => [ex_repo]) ["rust"]
            (fun _ => Some ["insight"]) (fun _ => Some ["discovery"])
            ex_swarm_agent [ex_pheromone "p1" "agent-2" 0.95%Q]
            (fun _ => 0.25%Q) 0%nat
    = Some (this', Some p, n')
    /\ Agent.tokensUsed (SwarmAgent.state this') = 0
    /\ Pheromone.agentId p = "agent-1".
Proof.
  destruct (explore ex_uuid 0 (fun s => s) (fun _ _ _ => [ex_repo]) ["rust"]
              (fun _ => Some ["insight"]) (fun _ => Some ["discovery"])
              ex_swarm_agent [ex_pheromone "p1" "agent-2" 0.95%Q]
              (fun _ => 0.25%Q) 0%nat)
    as [[[this' [p|]] n']|] eqn:E;
    [|vm_compute in E; discriminate|vm_compute in E; discriminate].
  exists this', p, n'. split; [reflexivity|].
  destruct (explore_frame _ _ _ _ _ _ _ _ _ _ _ _ _ _ E)
    as (_ & _ & Ht & _ & _ & _ & _ & _ & Hp & _).
  split; [exact Ht|exact Hp].
Defined.

(** X19. The pheromone [explore] returns either has no connection and
    the domain the agent was exploring, the exploration target being
    kept, or is connected to exactly one of the absorbed pheromones,
    whose domain it takes and whose confidence it raises by 0.1, capped
    at 1; the agent then turns to that domain when the strength of the
    absorbed pheromone exceeds 0.6, and keeps its target otherwise. *)
Theorem explore_connections uuid now hash discoverRepos discoveryTopics
    insights discoveries this absorbed rnd n this' p n' :
  explore uuid now hash discoverRepos discoveryTopics insights discoveries
          this absorbed rnd n
  = Some (this', Some p, n') ->
  let target := Agent.explorationTarget (SwarmAgent.state this) in
  (Pheromone.connections p = []
   /\ Pheromone.domain p = target
   /\ Agent.explorationTarget (SwarmAgent.state this') = target)
  \/ (exists source,
         In source absorbed
         /\ Pheromone.connections p = [Pheromone.id source]
         /\ Pheromone.domain p = Pheromone.domain source
         /\ Pheromone.confidence p
            = Math_min 1 (Pheromone.confidence source + 0.1)%Q
         /\ Agent.explorationTarget (SwarmAgent.state this')
            = if Qltb 0.6 (Pheromone.strength source)
              then Pheromone.domain source else target).
Proof.
  intros H target. apply explore_inv in H.
  destruct H as [(Ho & _)
                |(this1 & content & domain & connections & confidence
                  & Hex & Ho & ->)]; [discriminate|].
  injection Ho as ->.
  assert (Hrem : forall a b, remembered a b ->
            Agent.explorationTarget (SwarmAgent.state b)
            = Agent.explorationTarget (SwarmAgent.state a)).
  { intros a b [->|(repo & ->)]; [reflexivity|].
    unfold remember_repo. now destruct (existsb _ _). }
  destruct Hex as [(-> & -> & Hr)
                  |(source & this2 & Hin & -> & -> & -> & Hr & ->)];
    apply Hrem in Hr.
  - left. split; [reflexivity|split; [reflexivity|exact Hr]].
  - right. exists source.
    split; [exact Hin|]. do 3 (split; [reflexivity|]).
    destruct (Qltb 0.6 _); [reflexivity|exact Hr].
Qed.

Lemma explore_connections_witness :
  exists this' p n',
    explore ex_uuid 0 (fun s => s) (fun _ _ _ => [ex_repo]) ["rust"]
            (fun _ => Some ["insight"]) (fun _ => Some ["discovery"])
            ex_swarm_agent [ex_pheromone "p1" "agent-2" 0.95%Q]
            (fun _ => 0.25%Q) 0%nat
    = Some (this', Some p, n')
    /\ Pheromone.connections p = ["p1"].
Proof.
  destruct (explore ex_uuid 0 (fun s => s) (fun _ _ _ => [ex_repo]) ["rust"]
              (fun _ => Some ["insight"]) (fun _ => Some ["discovery"])
              ex_swarm_agent [ex_pheromone "p1" "agent-2" 0.95%Q]
              (fun _ => 0.25%Q) 0%nat)
    as [[[this' [p|]] n']|] eqn:E;
    [|vm_compute in E; discriminate|vm_compute in E; discriminate].
  exists this', p, n'. split; [reflexivity|].
  pose proof (explore_connections _ _ _ _ _ _ _ _ _ _ _ _ _ _ E) as H.
  cbv zeta in H.
  destruct H as [(Hc & _)|(source & [<-|[]] & Hc & _)]; [|exact Hc].
  vm_compute in E. injection E as _ <- _. discriminate.
Defined.

Lemma remember_repo_repos (repo : Repo.t) (this : SwarmAgent.t) :
  let known r := (Repo.owner r, Repo.repo r) in
  (In (known repo) (map known (SwarmAgent.discoveredRepos this))
   /\ remember_repo repo this = this)
  \/ (~ In (known repo) (map known (SwarmAgent.discoveredRepos this))
      /\ SwarmAgent.discoveredRepos (remember_repo repo this)
         = SwarmAgent.discoveredRepos this ++ [repo]).
Proof.
  intros known. unfold remember_repo.
  destruct (existsb _ _) eqn:E.
  - left. split; [|reflexivity].
    apply existsb_exists in E as (r & Hr & Heq).
    apply andb_true_iff in Heq as [Ho Hn].
    apply String.eqb_eq in Ho, Hn. apply in_map_iff.
    exists r. split; [|exact Hr]. unfold known. now rewrite Ho, Hn.
  - right. split; [|reflexivity].
    intros Hin. apply in_map_iff in Hin as (r & Heq & Hr).
    injection Heq as Ho Hn.
    apply not_true_iff_false in E. apply E, existsb_exists.
    exists r. split; [exact Hr|].
    now rewrite Ho, Hn, !String.eqb_refl.
Qed.

Lemma remembered_repos (this this' : SwarmAgent.t) :
  remembered this this' ->
  let known r := (Repo.owner r, Repo.repo r) in
  SwarmAgent.discoveredRepos this' = SwarmAgent.discoveredRepos this
  \/ exists repo,
       SwarmAgent.discoveredRepos this'
       = SwarmAgent.discoveredRepos this ++ [repo]
       /\ ~ In (known repo) (map known (SwarmAgent.discoveredRepos this)).
Proof.
  intros [->|(repo & ->)] known; [now left|].
  destruct (remember_repo_repos repo this) as [[_ ->]|[Hn E]];
    [now left|right]. now exists repo.
Qed.

(** X20. [explore] keeps the discovered repositories or appends one
    whose owner and name no discovered repository has, so that a list
    without two repositories of the same owner and name stays so.  It
    changes neither the discovered issues nor the engineering switch. *)
Theorem explore_discovered_repos uuid now hash discoverRepos discoveryTopics
    insights discoveries this absorbed rnd n this' o n' :
  explore uuid now hash discoverRepos discoveryTopics insights discoveries
          this absorbed rnd n
  = Some (this', o, n') ->
  let known r := (Repo.owner r, Repo.repo r) in
  (SwarmAgent.discoveredRepos this' = SwarmAgent.discoveredRepos this
   \/ exists repo,
        SwarmAgent.discoveredRepos this'
        = SwarmAgent.discoveredRepos this ++ [repo]
        /\ ~ In (known repo) (map known (SwarmAgent.discoveredRepos this)))
  /\ (distinct_repos (SwarmAgent.discoveredRepos this) ->
      distinct_repos (SwarmAgent.discoveredRepos this'))
  /\ SwarmAgent.discoveredIssues this' = SwarmAgent.discoveredIssues this
  /\ SwarmAgent.engineeringEnabled this' = SwarmAgent.engineeringEnabled this.
Proof.
  intros H known.
  pose proof (explore_forgets _ _ _ _ _ _ _ _ _ _ _ _ _ _ H) as Hf.
  assert (Hrepos :
    SwarmAgent.discoveredRepos this' = SwarmAgent.discoveredRepos this
    \/ exists repo,
         SwarmAgent.discoveredRepos this'
         = SwarmAgent.discoveredRepos this ++ [repo]
         /\ ~ In (known repo) (map known (SwarmAgent.discoveredRepos this))).
  { apply explore_inv in H.
    destruct H as [(_ & -> & _)
                  |(this1 & content & domain & connections & confidence
                    & Hex & _ & ->)]; [now left|].
    cbn.
    destruct Hex as [(_ & _ & Hr)
                    |(source & this2 & _ & _ & _ & _ & Hr & ->)].
    - apply (remembered_repos _ _ Hr).
    - destruct (Qltb 0.6 _); apply (remembered_repos _ _ Hr). }
  split; [exact Hrepos|]. split.
  - unfold distinct_repos. intros Hnd.
    destruct Hrepos as [->|(repo & -> & Hnew)]; [exact Hnd|].
    rewrite map_app. apply List.NoDup_app; [exact Hnd| |].
    + constructor; [easy|constructor].
    + intros x Hx [<-|[]]. now apply Hnew.
  - split.
    + exact (f_equal SwarmAgent.discoveredIssues Hf).
    + exact (f_equal SwarmAgent.engineeringEnabled Hf).
Qed.

Lemma explore_discovered_repos_witness :
  exists this' p n',
    explore ex_uuid 0 (fun s => s) (fun _ _ _ => [ex_repo]) ["rust"]
            (fun _ => Some ["insight"]) (fun _ => Some ["discovery"])
            ex_swarm_agent [ex_pheromone "p1" "agent-2" 0.95%Q]
            (fun _ => 0.25%Q) 0%nat
    = Some (this', p, n')
    /\ distinct_repos (SwarmAgent.discoveredRepos this').
Proof.
  destruct (explore ex_uuid 0 (fun s => s) (fun _ _ _ => [ex_repo]) ["rust"]
              (fun _ => Some ["insight"]) (fun _ => Some ["discovery"])
              ex_swarm_agent [ex_pheromone "p1" "agent-2" 0.95%Q]
              (fun _ => 0.25%Q) 0%nat)
    as [[[this' p] n']|] eqn:E; [|vm_compute in E; discriminate].
  exists this', p, n'. split; [reflexivity|].
  apply (explore_discovered_repos _ _ _ _ _ _ _ _ _ _ _ _ _ _ E).
  constructor.
Defined.

(** ** The engineering pheromone *)

Lemma kind_eqb_eq (a b : Artifact.Kind) :
  Artifact.kind_eqb a b = true <-> a = b.
Proof. destruct a, b; simpl; split; congruence. Qed.

Lemma has_artifact_existsb (k : Artifact.Kind) (result : Result.t) :
  existsb (fun a => Artifact.kind_eqb (Artifact.type a) k)
          (Result.artifacts result) = true
  <-> has_artifact k result.
Proof.
  unfold has_artifact. rewrite existsb_exists, List.Exists_exists.
  split; intros (a & Ha & Hk); exists a; split; try assumption;
    now apply kind_eqb_eq.
Qed.

Lemma substring_length (s : string) :
  forall m n, (String.length (substring m n s) <= n)%nat.
Proof.
  induction s as [|c s IH]; intros [|m] [|n]; simpl; try lia.
  - specialize (IH 0%nat n). lia.
  - apply (IH m 0%nat).
  - apply (IH m (S n)).
Qed.

(** X21. The engineering pheromone is of type [pr] when the result
    holds a [pr_url] artifact, else [code] when it holds a
    [code_change], else [technique] when it holds a [technique], and
    [knowledge] otherwise.  It keeps one artifact for each artifact of
    the result, references the repository of the action if it has one,
    and holds one snippet of at most 200 characters for each
    [code_change] artifact.  The pheromone is the agent's own, has the
    priority of the decision as confidence, and is appended to the
    knowledge, the count of discoveries growing by one. *)
Theorem engineering_pheromone_shape uuid now hash (this : Agent.t)
    (decision : Decision.t) (result : Result.t) :
  let this' := fst (createEngineeringPheromone uuid now hash this decision
                                               result) in
  let p := snd (createEngineeringPheromone uuid now hash this decision
                                           result) in
  exists e,
    Pheromone.engineering p = Some e
    /\ (Pheromone.pheromoneType e = Pheromone.pr
        <-> has_artifact Artifact.pr_url result)
    /\ (Pheromone.pheromoneType e = Pheromone.code
        <-> ~ has_artifact Artifact.pr_url result
            /\ has_artifact Artifact.code_change result)
    /\ (Pheromone.pheromoneType e = Pheromone.technique
        <-> ~ has_artifact Artifact.pr_url result
            /\ ~ has_artifact Artifact.code_change result
            /\ has_artifact Artifact.technique result)
    /\ map Artifact.type (Pheromone.artifacts e)
       = map Artifact.type (Result.artifacts result)
    /\ Pheromone.githubRefs e
       = match repoKey (Decision.action decision) with
         | Some k => [k]
         | None => []
         end
    /\ length (Pheromone.codeSnippets e)
       = length (List.filter
                   (fun a => Artifact.kind_eqb (Artifact.type a)
                                               Artifact.code_change)
                   (Result.artifacts result))
    /\ Forall (fun s => (String.length s <= 200)%nat)
              (Pheromone.codeSnippets e)
    /\ Pheromone.agentId p = Agent.id this
    /\ Pheromone.confidence p = Decision.priority decision
    /\ Pheromone.connections p = []
    /\ this' = record_discovery p this
    /\ Base.knowledge (Agent.base this')
       = Base.knowledge (Agent.base this) ++ [p]
    /\ Agent.tokensUsed this' = Agent.tokensUsed this.
Proof.
  cbv zeta. unfold createEngineeringPheromone. cbv zeta.
  eexists. split; [reflexivity|].
  cbn [Pheromone.pheromoneType Pheromone.artifacts Pheromone.githubRefs
       Pheromone.codeSnippets fst snd Pheromone.agentId
       Pheromone.confidence Pheromone.connections].
  pose proof (has_artifact_existsb Artifact.pr_url result) as Hpr.
  pose proof (has_artifact_existsb Artifact.code_change result) as Hcode.
  pose proof (has_artifact_existsb Artifact.technique result) as Htech.
  split; [|split; [|split]].
  - destruct (existsb _ _); [tauto|].
    split; [|intros H; apply Hpr in H; discriminate].
    destruct (existsb _ _); [discriminate|].
    destruct (existsb _ _); discriminate.
  - destruct (existsb _ _).
    + split; [discriminate|]. intros [H _]. exfalso. now apply H, Hpr.
    + assert (Hn : ~ has_artifact Artifact.pr_url result)
        by (intros H; apply Hpr in H; discriminate).
      destruct (existsb _ _); [tauto|].
      split; [|intros [_ H]; apply Hcode in H; discriminate].
      destruct (existsb _ _); discriminate.
  - destruct (existsb _ _).
    + split; [discriminate|]. intros [H _]. exfalso. now apply H, Hpr.
    + assert (Hn : ~ has_artifact Artifact.pr_url result)
        by (intros H; apply Hpr in H; discriminate).
      destruct (existsb _ _).
      * split; [discriminate|]. intros (_ & H & _). exfalso.
        now apply H, Hcode.
      * assert (Hn' : ~ has_artifact Artifact.code_change result)
          by (intros H; apply Hcode in H; discriminate).
        destruct (existsb _ _); [tauto|].
        split; [discriminate|]. intros (_ & _ & H).
        apply Htech in H. discriminate.
  - repeat split.
    + rewrite map_map. reflexivity.
    + now rewrite length_map.
    + apply List.Forall_forall. intros s Hs.
      apply in_map_iff in Hs as (a & <- & _). apply substring_length.
Qed.

(** ** The engineering switch *)

(** X22. [shouldDoEngineering] answers no without a draw when
    engineering is not enabled or the token budget is used up.
    Otherwise it draws once and answers yes exactly when the draw is
    below [min(0.8, stepCount / 50)]: never for a draw of 0.8 or more,
    never at step 0 for a draw that is not negative, and from step 40 on
    exactly when the draw is below 0.8. *)
Theorem shouldDoEngineering_cases (this : SwarmAgent.t) (rnd : nat -> Q)
    (n : nat) :
  let st := SwarmAgent.state this in
  let stepCount := Base.stepCount (Agent.base st) in
  exists b n',
    shouldDoEngineering this rnd n = Some (b, n')
    /\ (SwarmAgent.engineeringEnabled this = false
        \/ Agent.tokensUsed st >= Agent.tokenBudget st ->
        b = false /\ n' = n)
    /\ (SwarmAgent.engineeringEnabled this = true ->
        Agent.tokensUsed st < Agent.tokenBudget st ->
        n' = S n
        /\ (b = true
            <-> (rnd n < Math_min 0.8 (inject_Z stepCount / 50))%Q)
        /\ ((0.8 <= rnd n)%Q -> b = false)
        /\ ((0 <= rnd n)%Q -> stepCount <= 0 -> b = false)
        /\ (40 <= stepCount -> (b = true <-> (rnd n < 0.8)%Q))).
Proof.
  cbv zeta. unfold shouldDoEngineering.
  destruct (SwarmAgent.engineeringEnabled this); cbn [negb].
  - destruct (Z.geb_spec (Agent.tokensUsed (SwarmAgent.state this))
                (Agent.tokenBudget (SwarmAgent.state this))) as [Hge|Hlt].
    + eexists _, _. split; [reflexivity|]. split; [auto|]. intros _ H. lia.
    + cbv zeta. unfold Rand.bind, Rand.random, Rand.ret.
      eexists _, _. split; [reflexivity|]. split.
      * intros [H|H]; [discriminate|lia].
      * intros _ _. split; [reflexivity|].
        set (step := Base.stepCount _).
        rewrite Qltb_lt. split; [reflexivity|].
        assert (Hmin : (Math_min 0.8 (inject_Z step / 50) <= 0.8)%Q)
          by (minmax; lra).
        split; [|split].
        -- intros H. apply not_true_iff_false. rewrite Qltb_lt. lra.
        -- intros H0 Hs. apply not_true_iff_false. rewrite Qltb_lt.
           assert (inject_Z step <= 0)%Q
             by (change 0%Q with (inject_Z 0); now rewrite <- Zle_Qle).
           assert (inject_Z step / 50 <= 0)%Q as Hq
             by (apply Qle_shift_div_r; lra).
           revert Hq. generalize (inject_Z step / 50)%Q. intros q Hq.
           minmax; lra.
        -- intros Hs.
           assert (40 <= inject_Z step)%Q
             by (change 40%Q with (inject_Z 40); now rewrite <- Zle_Qle).
           assert (0.8 <= inject_Z step / 50)%Q as Hq
             by (apply Qle_shift_div_l; lra).
           revert Hq. generalize (inject_Z step / 50)%Q. intros q Hq.
           minmax; split; lra.
  - eexists _, _. split; [reflexivity|]. split; [auto|]. discriminate.
Qed.

(** ** One step in exploration mode *)




(** ** A new agent *)

Lemma DOMAINS_lookup (index : nat) :
  exists domain,
    nth_error DOMAINS (index mod length DOMAINS) = Some domain
    /\ In domain DOMAINS.
Proof.
  destruct (nth_error DOMAINS (index mod length DOMAINS)) as [d|] eqn:E.
  - exists d. split; [reflexivity|]. eapply nth_error_In, E.
  - apply nth_error_None in E.
    pose proof (Nat.mod_upper_bound index (length DOMAINS)) as H.
    simpl in *. lia.
Qed.

Lemma NAMES_lookup (index : nat) :
  match nth_error NAMES index with
  | Some n => Js.or_else n ("Neuron-" ++ show_nat index)%string
  | None => ("Neuron-" ++ show_nat index)%string
  end
  = match nth_error NAMES index with
    | Some n => n
    | None => ("Neuron-" ++ show_nat index)%string
    end.
Proof. destruct index as [|[|[|[|i]]]]; reflexivity. Qed.

(** X24. The constructor takes eight draws and always completes.  The
    new agent is not synchronized, has absorbed nothing, has made no
    step and spent no token, and engineering is not enabled; for draws
    from [[0,1)] its energy is in [[0.3, 0.6)] and each component of its
    velocity in [[-4, 4)]; its personality is the one
    [generatePersonality] returns for its index; its exploration target
    is the domain of index [index % 10] and its name the one of the
    table for the first three indices, and [Neuron-] followed by the
    index for the others.  [checkSync] leaves it as it is, whatever the
    channel. *)
Theorem fresh_agent uuid Math_cos Math_sin Math_PI tokenBudget
    (index : nat) (rnd : nat -> Q) (n : nat) :
  (forall k, (0 <= rnd k < 1)%Q) ->
  exists a,
    newSwarmAgent uuid Math_cos Math_sin Math_PI tokenBudget index rnd n
    = Some (a, (8 + n)%nat)
    /\ Agent.synchronized (SwarmAgent.state a) = false
    /\ Agent.absorbed (SwarmAgent.state a) = ∅
    /\ Base.stepCount (Agent.base (SwarmAgent.state a)) = 0
    /\ Agent.tokensUsed (SwarmAgent.state a) = 0
    /\ Agent.tokenBudget (SwarmAgent.state a) = tokenBudget
    /\ Agent.currentDecision (SwarmAgent.state a) = None
    /\ SwarmAgent.engineeringEnabled a = false
    /\ (0.3 <= Agent.energy (SwarmAgent.state a) < 0.6)%Q
    /\ (-4 <= fst (Base.velocity (Agent.base (SwarmAgent.state a))) < 4)%Q
    /\ (-4 <= snd (Base.velocity (Agent.base (SwarmAgent.state a))) < 4)%Q
    /\ generatePersonality index rnd (S n)
       = Some (Agent.specialization (SwarmAgent.state a),
               Agent.personality (SwarmAgent.state a), (5 + n)%nat)
    /\ nth_error DOMAINS (index mod 10)
       = Some (Agent.explorationTarget (SwarmAgent.state a))
    /\ Base.name (Agent.base (SwarmAgent.state a))
       = match nth_error NAMES index with
         | Some name => name
         | None => ("Neuron-" ++ show_nat index)%string
         end
    /\ (forall channel,
           checkSync (SwarmAgent.state a) channel = SwarmAgent.state a).
Proof.
  intros Hrnd.
  destruct (DOMAINS_lookup index) as (domain & Hd & _).
  unfold newSwarmAgent, generatePersonality, perturb, Rand.bind, Rand.random,
    Rand.ret, Rand.lift.
  rewrite Hd, NAMES_lookup. eexists. split; [reflexivity|].
  cbn [SwarmAgent.state SwarmAgent.engineeringEnabled Agent.synchronized
       Agent.absorbed Agent.energy Agent.base Agent.tokensUsed
       Agent.tokenBudget Agent.currentDecision Agent.specialization
       Agent.personality Agent.explorationTarget Base.synchronized
       Base.absorbed Base.energy Base.stepCount Base.velocity Base.name
       Base.explorationTarget fst snd].
  pose proof (Hrnd (5 + n)%nat) as H5. pose proof (Hrnd (6 + n)%nat) as H6.
  pose proof (Hrnd (7 + n)%nat) as H7. cbn [Nat.add] in H5, H6, H7.
  do 7 (split; [reflexivity|]).
  split; [split; lra|]. split; [split; lra|]. split; [split; lra|].
  split; [reflexivity|]. split; [exact Hd|]. split; [reflexivity|].
  intros channel. unfold checkSync.
  cbn [Agent.synchronized Agent.absorbed Agent.base Base.synchronized
       Base.absorbed].
  now rewrite size_empty, andb_false_r.
Qed.

Lemma fresh_agent_witness :
  exists a,
    newSwarmAgent ex_uuid (fun _ => 1%Q) (fun _ => 0%Q) 3%Q 50000 4
                  (fun _ => 0.25%Q) 0%nat
    = Some (a, 8%nat)
    /\ Base.name (Agent.base (SwarmAgent.state a)) = "Neuron-4"
    /\ Agent.explorationTarget (SwarmAgent.state a)
       = "database optimization patterns".
Proof.
  destruct (fresh_agent ex_uuid (fun _ => 1%Q) (fun _ => 0%Q) 3%Q 50000 4
              (fun _ => 0.25%Q) 0%nat)
    as (a & E & _ & _ & _ & _ & _ & _ & _ & _ & _ & _ & _ & Hd & Hn & _).
  - intros k. split; [discriminate|reflexivity].
  - exists a. split; [exact E|]. split; [exact Hn|].
    change (Some "database optimization patterns"
            = Some (Agent.explorationTarget (SwarmAgent.state a))) in Hd.
    congruence.
Defined.

(** ** The fallback texts *)

(** X25. A text [fallbackInsight] or [fallbackDiscovery] returns is read
    from the table, after one draw: from the list of the domain, the one
    of the pheromone or the one the agent explores, or from the list of
    "data structures and algorithms" when the table has none for the
    domain. *)
Theorem fallback_texts insights discoveries (source : Pheromone.t)
    (this : SwarmAgent.t) (rnd : nat -> Q) (n : nat) (c : string)
    (n' : nat) :
  let from (table : string -> option (list string)) (domain : string) :=
    n' = S n
    /\ exists l,
        In c l
        /\ (table domain = Some l
            \/ table domain = None
               /\ table "data structures and algorithms" = Some l) in
  (fallbackInsight insights source rnd n = Some (c, n') ->
   from insights (Pheromone.domain source))
  /\ (fallbackDiscovery discoveries this rnd n = Some (c, n') ->
      from discoveries (Agent.explorationTarget (SwarmAgent.state this))).
Proof.
  cbv zeta.
  assert (Hpool : forall table domain l,
            pool_of table domain = Some l ->
            table domain = Some l
            \/ table domain = None
               /\ table "data structures and algorithms" = Some l).
  { intros table domain l. unfold pool_of.
    destruct (table domain); [intros [= ->]; now left|now right]. }
  split; intros H.
  - unfold fallbackInsight in H.
    apply bind_Some in H as (l & n1 & Hl & H).
    apply lift_Some in Hl as [Hl <-].
    apply bind_Some in H as (r & n2 & Hr & H).
    apply random_Some in Hr as [-> ->].
    apply lift_Some in H as [H <-]. split; [reflexivity|].
    exists l. split; [eapply pick_In, H|now apply Hpool].
  - unfold fallbackDiscovery in H.
    apply bind_Some in H as (l & n1 & Hl & H).
    apply lift_Some in Hl as [Hl <-].
    apply bind_Some in H as (r & n2 & Hr & H).
    apply random_Some in Hr as [-> ->].
    apply lift_Some in H as [H <-]. split; [reflexivity|].
    exists l. split; [eapply pick_In, H|now apply Hpool].
Qed.

(* ===================================================================== *)
(** * Properties of the ranking of files *)
(* ===================================================================== *)

Lemma insert_by_score_perm (f : FileScore.t) (l : list FileScore.t) :
  Permutation (insert_by_score f l) (f :: l).
Proof.
  induction l as [|e l IH]; simpl; [reflexivity|].
  destruct (_ <=? _); [reflexivity|].
  rewrite IH. apply perm_swap.
Qed.

Lemma sort_by_score_perm (l : list FileScore.t) :
  Permutation (sort_by_score l) l.
Proof.
  induction l as [|f l IH]; simpl; [reflexivity|].
  rewrite insert_by_score_perm. now rewrite IH.
Qed.

Lemma insert_by_score_sorted (f : FileScore.t) (l : list FileScore.t) :
  by_score l -> by_score (insert_by_score f l).
Proof.
  unfold by_score. induction 1 as [|e l Hl IH He]; simpl.
  - repeat constructor.
  - destruct (Z.leb_spec (FileScore.score e) (FileScore.score f)) as [E|E].
    + constructor; [now constructor|].
      constructor; [exact E|].
      eapply List.Forall_impl; [|exact He]. intros c Hc. simpl in Hc. lia.
    + constructor; [exact IH|].
      apply (Permutation_Forall (x := f :: l));
        [symmetry; apply insert_by_score_perm|].
      constructor; [lia|exact He].
Qed.

Lemma sort_by_score_sorted (l : list FileScore.t) :
  by_score (sort_by_score l).
Proof.
  induction l as [|f l IH]; simpl; [constructor|].
  now apply insert_by_score_sorted.
Qed.

Lemma by_score_app (l1 l2 : list FileScore.t) :
  by_score (l1 ++ l2) ->
  by_score l1
  /\ forall a b, In a l1 -> In b l2 -> FileScore.score b <= FileScore.score a.
Proof.
  unfold by_score. induction l1 as [|x l1 IH]; simpl; intros H.
  - split; [constructor|]. intros a b [].
  - inversion H as [|? ? Hs Hx]; subst.
    destruct (IH Hs) as [Hs1 Hle]. split.
    + constructor; [exact Hs1|].
      apply List.Forall_forall. intros y Hy.
      rewrite List.Forall_forall in Hx. apply Hx, in_or_app. now left.
    + intros a b [<-|Ha] Hb; [|now apply Hle].
      rewrite List.Forall_forall in Hx. apply Hx, in_or_app. now right.
Qed.

(** The first [n] of a sorted list are sorted, and rank above every
    entry left out. *)
Lemma by_score_top (n : nat) (l : list FileScore.t) :
  by_score l ->
  by_score (firstn n l)
  /\ forall s, In s l ->
       In s (firstn n l)
       \/ (length (firstn n l) = n
           /\ forall t, In t (firstn n l) ->
                        FileScore.score s <= FileScore.score t).
Proof.
  intros H. rewrite <- (firstn_skipn n l) in H at 1.
  apply by_score_app in H as [H1 H2]. split; [exact H1|].
  intros s Hs. rewrite <- (firstn_skipn n l) in Hs at 1.
  apply in_app_or in Hs as [Hs|Hs]; [now left|right]. split.
  - rewrite length_firstn.
    destruct (Nat.le_gt_cases n (length l)) as [|Hlt]; [lia|].
    rewrite skipn_all2 in Hs by lia. destruct Hs.
  - intros t Ht. now apply H2.
Qed.

Section Ranking.

Variable extname : string -> string.
Variable basename : string -> string.
Variable keywords : list string.
Variable issue : option Issue.t.

Lemma fold_bump {X} (c : Z) (test : X -> bool) (label : X -> string)
    (l : list X) :
  0 <= c ->
  forall s r,
    s <= fst (fold_left (fun '(score, reasons) x =>
                           if test x
                           then (score + c, reasons ++ [label x])
                           else (score, reasons)) l (s, r))
    <= s + c * Z.of_nat (length l).
Proof using Type.
  intros Hc. induction l as [|x l IH]; intros s r.
  - simpl. lia.
  - cbn [fold_left]. destruct (test x).
    + specialize (IH (s + c) (r ++ [label x])). cbn [length]. lia.
    + specialize (IH s r). cbn [length]. lia.
Qed.

Lemma scoreFile_Some (filePath : string) (s : FileScore.t) :
  scoreFile extname basename keywords issue filePath = Some s ->
  FileScore.path s = filePath
  /\ FileScore.keySnippets s = []
  /\ vendored filePath = false
  /\ 0 < FileScore.score s
     <= 6 + 2 * Z.of_nat (length keywords) + 3 * term_count issue.
Proof using Type.
  unfold scoreFile, vendored. cbv zeta.
  set (src := existsb _ [".ts"; _; _; _; _; _]).
  set (entry := existsb _ ["index"; _; _; _; _]).
  set (test := _ || _).
  set (dull := existsb _ [".md"; _; _; _; _; _; _] && _).
  assert (H1 : exists s1 r1,
            (if src then (0 + 2, [] ++ ["source file"])
             else (0, @nil string)) = (s1, r1) /\ 0 <= s1 <= 2)
    by (destruct src; eexists _, _; (split; [reflexivity|lia])).
  destruct H1 as (s1 & r1 & -> & Hs1).
  assert (H2 : exists s2 r2,
            (if entry then (s1 + 3, r1 ++ ["entry point"])
             else (s1, r1)) = (s2, r2) /\ s1 <= s2 <= s1 + 3)
    by (destruct entry; eexists _, _; (split; [reflexivity|lia])).
  destruct H2 as (s2 & r2 & -> & Hs2).
  assert (H3 : exists s3 r3,
            (if test then (s2 + 1, r2 ++ ["test file"])
             else (s2, r2)) = (s3, r3) /\ s2 <= s3 <= s2 + 1)
    by (destruct test; eexists _, _; (split; [reflexivity|lia])).
  destruct H3 as (s3 & r3 & -> & Hs3).
  match goal with
  | |- context [fold_left ?f keywords (s3, r3)] =>
      pose proof (fold_bump 2
                    (fun kw => Js.includes (Js.toLowerCase filePath)
                                           (Js.toLowerCase kw))
                    (fun kw => ("matches keyword: " ++ kw)%string)
                    keywords ltac:(lia) s3 r3) as Hk;
      destruct (fold_left f keywords (s3, r3)) as [s4 r4]
  end.
  cbn [fst] in Hk.
  assert (H5 : exists s5 r5,
            match issue with
            | Some issue =>
                fold_left (fun '(score, reasons) term =>
                  if Js.includes (Js.toLowerCase filePath) term
                  then (score + 3,
                        reasons ++ [("matches issue term: " ++ term)%string])
                  else (score, reasons)) (issueTerms issue) (s4, r4)
            | None => (s4, r4)
            end = (s5, r5) /\ s4 <= s5 <= s4 + 3 * term_count issue).
  { destruct issue as [i|]; simpl.
    - pose proof (fold_bump 3
                    (fun term => Js.includes (Js.toLowerCase filePath) term)
                    (fun term => ("matches issue term: " ++ term)%string)
                    (issueTerms i) ltac:(lia) s4 r4) as Ht.
      destruct (fold_left _ (issueTerms i) (s4, r4)) as [s5 r5].
      exists s5, r5. split; [reflexivity|exact Ht].
    - exists s4, r4. split; [reflexivity|lia]. }
  destruct H5 as (s5 & r5 & -> & Hs5).
  destruct (_ || _ || _); [discriminate|].
  destruct (Z.ltb_spec 0 (if dull then Z.max 0 (s5 - 2) else s5));
    [|discriminate].
  intros [= <-]. cbn [FileScore.path FileScore.keySnippets FileScore.score].
  repeat split; try assumption. destruct dull; lia.
Qed.

Lemma scores_fold (filePaths : list string) :
  forall scores,
    fold_left (fun scores filePath =>
                 match scoreFile extname basename keywords issue filePath with
                 | Some s => scores ++ [s]
                 | None => scores
                 end) filePaths scores
    = scores ++ omap (scoreFile extname basename keywords issue) filePaths.
Proof using Type.
  induction filePaths as [|f l IH]; intros scores; cbn [fold_left].
  - now rewrite app_nil_r.
  - rewrite IH. cbn [omap list_omap].
    destruct (scoreFile extname basename keywords issue f);
      [now rewrite <- app_assoc|reflexivity].
Qed.

Lemma scoreFiles_eq (filePaths : list string) :
  scoreFiles extname basename filePaths keywords issue
  = firstn 15 (sort_by_score
                 (omap (scoreFile extname basename keywords issue)
                       filePaths)).
Proof using Type. unfold scoreFiles. cbv zeta. now rewrite scores_fold. Qed.

Lemma scored_In (filePaths : list string) (s : FileScore.t) :
  In s (sort_by_score
          (omap (scoreFile extname basename keywords issue) filePaths))
  <-> exists filePath,
        In filePath filePaths
        /\ scoreFile extname basename keywords issue filePath = Some s.
Proof using Type.
  rewrite <- list_elem_of_In.
  rewrite (sort_by_score_perm _), list_elem_of_omap.
  split; intros (f & Hf & E); exists f; split;
    try assumption; now apply list_elem_of_In.
Qed.

End Ranking.

(** X27. [scoreFiles] returns the fifteen best entries, by decreasing
    score: at most 15 entries, in non-increasing order of score, each
    the entry of one of the given paths; and the entry of a given path
    is returned unless 15 entries of at least its score are. *)
Theorem scoreFiles_top extname basename (filePaths keywords : list string)
    (issue : option Issue.t) :
  let ranked := scoreFiles extname basename filePaths keywords issue in
  (length ranked <= 15)%nat
  /\ by_score ranked
  /\ (forall s, In s ranked ->
        exists filePath,
          In filePath filePaths
          /\ scoreFile extname basename keywords issue filePath = Some s)
  /\ (forall filePath s,
        In filePath filePaths ->
        scoreFile extname basename keywords issue filePath = Some s ->
        In s ranked
        \/ (length ranked = 15%nat
            /\ forall t, In t ranked ->
                         FileScore.score s <= FileScore.score t)).
Proof.
  cbv zeta. rewrite scoreFiles_eq.
  set (all := sort_by_score _).
  destruct (by_score_top 15 all (sort_by_score_sorted _)) as [Hs Htop].
  split; [apply firstn_le_length|]. split; [exact Hs|]. split.
  - intros s Hs'. apply (scored_In extname basename keywords issue).
    fold all. rewrite <- (firstn_skipn 15 all). apply in_or_app. now left.
  - intros filePath s Hin E. apply Htop.
    apply scored_In. now exists filePath.
Qed.

(** X28. Every entry [scoreFiles] returns has a positive score of at
    most 6, plus 2 for each keyword and 3 for each term of the issue
    title of more than three characters; its path is none under
    [node_modules/], [dist/] or [.git/], and it has no snippet. *)
Theorem scoreFiles_entries extname basename (filePaths keywords : list string)
    (issue : option Issue.t) (s : FileScore.t) :
  In s (scoreFiles extname basename filePaths keywords issue) ->
  In (FileScore.path s) filePaths
  /\ vendored (FileScore.path s) = false
  /\ FileScore.keySnippets s = []
  /\ 0 < FileScore.score s
     <= 6 + 2 * Z.of_nat (length keywords) + 3 * term_count issue.
Proof.
  rewrite scoreFiles_eq. intros Hs.
  assert (Hall : In s (sort_by_score
                         (omap (scoreFile extname basename keywords issue)
                               filePaths))).
  { rewrite <- (firstn_skipn 15 (sort_by_score _)).
    apply in_or_app. now left. }
  apply scored_In in Hall as (filePath & Hin & E).
  apply scoreFile_Some in E as (<- & Hk & Hv & Hscore). auto.
Qed.

Lemma scoreFiles_entries_witness :
  In ex_file_score
     (scoreFiles ex_extname ex_basename
                 ["README.md"; "src/index.ts"; "dist/index.js"] ["src"] None)
  /\ vendored "src/index.ts" = false.
Proof.
  assert (H : In ex_file_score
                 (scoreFiles ex_extname ex_basename
                    ["README.md"; "src/index.ts"; "dist/index.js"] ["src"]
                    None)).
  { vm_compute. now left. }
  split; [exact H|].
  apply (scoreFiles_entries _ _ _ _ _ _ H).
Defined.
